(** * config-package.py: a shallow embedding and its properties

    The script applies a configuration template to a repository.  Its pure
    helpers are embedded as functions, the module-level script as a program
    over operating-system operations, run against an arbitrary environment.

    Conventions of the embedding:
    - a Python [str] is a [string] whose characters are the code points
      below 256; [int] is [Z];
    - a [pathlib.Path] is its anchor and its list of parts (POSIX flavour),
      symbolic links and [..] are not resolved;
    - files are opened in text mode on a POSIX system: reading translates
      [\r\n] and [\r] to [\n], writing writes the text as it is. *)

From Stdlib Require Import Ascii String.
From stdpp Require Import base strings list numbers pretty gmap.

Open Scope Z_scope.

(** ** Python strings *)

Module PyStr.

Definition chr (n : nat) : ascii := ascii_of_nat n.
Definition ord (c : ascii) : nat := nat_of_ascii c.

Definition LF : ascii := chr 10.
Definition CR : ascii := chr 13.
Definition nl : string := String LF "".
Definition dquote : string := String (chr 34) "".

(** [str.lower] on one code point below 256: the capital letters of ASCII
    and of the Latin-1 supplement (the multiplication sign is not one). *)
Definition lower_char (c : ascii) : ascii :=
  let n := ord c in
  if (((65 <=? n) && (n <=? 90)) ||
      ((192 <=? n) && (n <=? 222) && negb (n =? 215)))%nat
  then chr (n + 32) else c.

Fixpoint lower (s : string) : string :=
  match s with
  | EmptyString => EmptyString
  | String c s' => String (lower_char c) (lower s')
  end.

(** The line boundaries of [str.splitlines] below code point 256. *)
Definition is_linebreak (c : ascii) : bool :=
  let n := ord c in
  ((n =? 10) || (n =? 11) || (n =? 12) || (n =? 13) ||
   (n =? 28) || (n =? 29) || (n =? 30) || (n =? 133))%nat.

(** [splitlines_from cur s]: the lines of [s], the first one continuing the
    pending text [cur].  A boundary closes the pending line (empty or not);
    text left at the end of the string is a last line. *)
Fixpoint splitlines_from (cur s : string) : list string :=
  match s with
  | EmptyString => if decide (cur = "") then [] else [cur]
  | String c s' =>
      if decide (c = CR) then
        match s' with
        | String c' s'' =>
            if decide (c' = LF) then cur :: splitlines_from "" s''
            else cur :: splitlines_from "" s'
        | EmptyString => cur :: splitlines_from "" s'
        end
      else if is_linebreak c then cur :: splitlines_from "" s'
      else splitlines_from (cur +:+ String c "") s'
  end.

Definition splitlines (s : string) : list string := splitlines_from "" s.

(** Universal newlines, as applied by [read] on a file opened in text mode. *)
Fixpoint translate_newlines (s : string) : string :=
  match s with
  | EmptyString => EmptyString
  | String c s' =>
      if decide (c = CR) then
        match s' with
        | String c' s'' =>
            if decide (c' = LF) then String LF (translate_newlines s'')
            else String LF (translate_newlines s')
        | EmptyString => String LF (translate_newlines s')
        end
      else String c (translate_newlines s')
  end.

(** [str(b)] for a [bool]. *)
Definition str_bool (b : bool) : string := if b then "True" else "False".

(** [str(n)] for an [int]. *)
Definition str_int (n : Z) : string := pretty n.

(** [sub in s]. *)
Fixpoint contains (sub s : string) : bool :=
  String.prefix sub s ||
  match s with
  | EmptyString => false
  | String _ s' => contains sub s'
  end.

End PyStr.

(** ** Paths ([pathlib.PurePosixPath]) *)

Module Path.
Record t := mk { absolute : bool; parts : list string }.

#[global] Instance eq_dec : EqDecision t.
Proof. solve_decision. Defined.

(** [p / s] for a one-component relative [s]. *)
Definition div (p : t) (s : string) : t :=
    mk (absolute p) (parts p ++ [s]).

(** [p.name]: the last part, the empty string when there is none. *)
Definition name (p : t) : string := default "" (last (parts p)).

(** [str(p)]. *)
Definition str (p : t) : string :=
    match absolute p, parts p with
    | false, [] => "."
    | false, ps => String.concat "/" ps
    | true, ps => "/" +:+ String.concat "/" ps
    end.

(** [Path(s)] for a one-component relative [s]. *)
Definition rel (s : string) : t := mk false [s].
End Path.

Infix "//" := Path.div (at level 40, left associativity).

(** ** The command line (lines 80-129) *)

(** The choices of the positional argument [type]. *)
Inductive config_type := buildout_recipe | pure_python | pytest.

Definition config_type_str (c : config_type) : string :=
  match c with
  | buildout_recipe => "buildout-recipe"
  | pure_python => "pure-python"
  | pytest => "pytest"
  end.

(** The parsed command line ([argparse.Namespace]). *)
Module Args.
Record t := mk {
    path : Path.t;
    no_push : bool;
    with_pypy : bool;
    type : config_type;
    support_legacy_python : bool;
    min_version : Z * Z;
  }.
End Args.

(** ** Version range (lines 22-51) *)

(** [range(a, b)] on integers. *)
Definition range (a b : Z) : list Z := seqZ a (b - a).

Definition MAX_PYTHON : Z * Z := (3, 9).

Definition get_supported_versions (args : Args.t) : list (Z * Z) :=
  let versions :=
    (λ minor, (3, minor)) <$> range (Args.min_version args).2 (MAX_PYTHON.2 + 1) in
  if Args.support_legacy_python args then (2, 7) :: versions else versions.

(** [''.join(l)]. *)
Definition join (l : list string) : string := String.concat "" l.

Definition get_tox_ini_versions (versions : list (Z * Z)) : string :=
  let env_versions :=
    (λ v, "py" +:+ PyStr.str_int v.1 +:+ PyStr.str_int v.2) <$> versions in
  join ((λ ver, PyStr.nl +:+ "    " +:+ ver +:+ ",") <$> env_versions).

Definition get_test_matrix_versions (versions : list (Z * Z)) : string :=
  let env_versions :=
    (λ v, (PyStr.str_int v.1 +:+ "." +:+ PyStr.str_int v.2,
           "py" +:+ PyStr.str_int v.1 +:+ PyStr.str_int v.2)) <$> versions in
  join ((λ e, PyStr.nl +:+ "        - [" +:+ PyStr.dquote +:+ e.1 +:+ PyStr.dquote
              +:+ ", " +:+ PyStr.dquote +:+ e.2 +:+ PyStr.dquote +:+ "]")
          <$> env_versions).

(** ** Exceptions *)

Inductive exn :=
| SystemExit (code : Z)
| OSError (detail : string)
| KeyError (key : string)
| ValueError (detail : string)
| NoSectionError (section : string)
| NoOptionError (option section : string)
| InterpolationError (detail : string)
| OtherError (detail : string).

(** The outcome of a call: an exception or a value. *)
Definition result (A : Type) : Type := exn + A.

#[global] Instance result_ret : MRet result := λ A a, inr a.
#[global] Instance result_bind : MBind result := λ A B f r,
  match r with
  | inl e => inl e
  | inr a => f a
  end.

(** ** configparser.ConfigParser, as far as the script uses it

    Sections and options keep their insertion order, as a Python dict does.
    The defaults are the options of the section DEFAULT. *)

Module ConfigParser.

Definition items : Type := list (string * string).

Record t := mk { defaults : items; sections : list (string * items) }.

(** [ConfigParser()]. *)
Definition new : t := mk [] [].

Fixpoint lookup {V} (k : string) (l : list (string * V)) : option V :=
  match l with
  | [] => None
  | (k', v) :: l' => if decide (k' = k) then Some v else lookup k l'
  end.

(** [d[k] = v] on a dict: an existing key keeps its place. *)
Fixpoint assign {V} (k : string) (v : V) (l : list (string * V))
  : list (string * V) :=
  match l with
  | [] => [(k, v)]
  | (k', v') :: l' =>
      if decide (k' = k) then (k, v) :: l' else (k', v') :: assign k v l'
  end.

Definition keys {V} (l : list (string * V)) : list string := fst <$> l.

Definition default_section : string := "DEFAULT".

Definition optionxform (option : string) : string := PyStr.lower option.

(** [parser[section] = {}]. *)
Definition setitem_empty (section : string) (p : t) : t :=
  if decide (section = default_section) then mk [] (sections p)
  else mk (defaults p) (assign section [] (sections p)).

(** [parser[section]]: the section must exist; the proxy is the name. *)
Definition getitem (section : string) (p : t) : result string :=
  if decide (section = default_section) then inr section
  else match lookup section (sections p) with
       | Some _ => inr section
       | None => inl (KeyError section)
       end.

(** The chain of the section's options and the defaults. *)
Definition unify_values (section : string) (p : t) : result items :=
  match lookup section (sections p) with
  | Some d => inr (d ++ defaults p)
  | None =>
      if decide (section = default_section) then inr (defaults p)
      else inl (NoSectionError section)
  end.

(** The regular expression [%\(([^)]+)\)s] matched at the start of
    [%( ++ s]: the name and the text after the match. *)
Fixpoint match_key_from (name s : string) : option (string * string) :=
  match s with
  | EmptyString => None
  | String c s' =>
      if decide (c = ")"%char) then
        match name, s' with
        | EmptyString, _ => None
        | _, String c' rest =>
            if decide (c' = "s"%char) then Some (name, rest) else None
        | _, EmptyString => None
        end
      else match_key_from (name +:+ String c "") s'
  end.

Definition match_key (s : string) : option (string * string) :=
  match s with
  | String "%"%char (String "("%char s') => match_key_from "" s'
  | _ => None
  end.

Definition MAX_INTERPOLATION_DEPTH : nat := 10.

(** The loop of [BasicInterpolation._interpolate_some] over [rest]; [recur]
    expands the value of a referenced option one level deeper, [fuel]
    bounds the number of rounds. *)
Fixpoint interpolate_loop (recur : string → result string) (map : items)
    (fuel : nat) (rest : string) : result string :=
  match fuel, rest with
  | O, _ | _, EmptyString => inr ""
  | S fuel', String c r =>
      if decide (c = "%"%char) then
        match r with
        | String "%"%char r' =>
            out ← interpolate_loop recur map fuel' r'; mret ("%" +:+ out)
        | String "("%char _ =>
            match match_key rest with
            | None => inl (InterpolationError "syntax")
            | Some (name, r') =>
                match lookup (optionxform name) map with
                | None => inl (InterpolationError "missing option")
                | Some v =>
                    v' ← (if PyStr.contains "%" v then recur v else inr v);
                    out ← interpolate_loop recur map fuel' r';
                    mret (v' +:+ out)
                end
            end
        | _ => inl (InterpolationError "syntax")
        end
      else
        out ← interpolate_loop recur map fuel' r; mret (String c out)
  end.

(** [BasicInterpolation._interpolate_some]; [depth] counts the levels that
    are left. *)
Fixpoint interpolate_some (depth : nat) (map : items) (value : string)
  : result string :=
  match depth with
  | O => inl (InterpolationError "depth")
  | S depth' =>
      interpolate_loop (interpolate_some depth' map) map
        (String.length value) value
  end.

Definition before_get (map : items) (value : string) : result string :=
  interpolate_some MAX_INTERPOLATION_DEPTH map value.

(** [value.replace('%%', '')]. *)
Fixpoint drop_escaped (s : string) : string :=
  match s with
  | String "%"%char (String "%"%char s') => drop_escaped s'
  | String c s' => String c (drop_escaped s')
  | EmptyString => EmptyString
  end.

(** [_KEYCRE.sub('', s)]. *)
Fixpoint drop_keys (fuel : nat) (s : string) : string :=
  match fuel with
  | O => s
  | S fuel' =>
      match s with
      | EmptyString => EmptyString
      | String c s' =>
          match match_key s with
          | Some (_, rest) => drop_keys fuel' rest
          | None => String c (drop_keys fuel' s')
          end
      end
  end.

(** [BasicInterpolation.before_set]. *)
Definition before_set (value : string) : result string :=
  let tmp_value := drop_escaped value in
  let tmp_value := drop_keys (String.length tmp_value) tmp_value in
  if PyStr.contains "%" tmp_value
  then inl (ValueError "invalid interpolation syntax")
  else inr value.

(** [parser.get(section, option)]. *)
Definition get (section option : string) (p : t) : result string :=
  match unify_values section p with
  | inl e => inl e
  | inr d =>
      let option := optionxform option in
      match lookup option d with
      | None => inl (NoOptionError option section)
      | Some value => before_get d value
      end
  end.

Definition BOOLEAN_STATES : list (string * bool) :=
  [("1", true); ("yes", true); ("true", true); ("on", true);
   ("0", false); ("no", false); ("false", false); ("off", false)].

Definition convert_to_boolean (value : string) : result bool :=
  match lookup (PyStr.lower value) BOOLEAN_STATES with
  | None => inl (ValueError ("Not a boolean: " +:+ value))
  | Some b => inr b
  end.

(** [parser[section].getboolean(option, fallback)]. *)
Definition getboolean (section option : string) (fallback : bool) (p : t)
  : result bool :=
  match get section option p with
  | inr value => convert_to_boolean value
  | inl (NoSectionError _) | inl (NoOptionError _ _) => inr fallback
  | inl e => inl e
  end.

(** [parser.set(section, option, value)], as [parser[section][option] = value]
    calls it. *)
Definition set (section option value : string) (p : t) : result t :=
  let checked :=
    if decide (value = "") then inr value else before_set value in
  match checked with
  | inl e => inl e
  | inr value =>
      if bool_decide (section = "") || bool_decide (section = default_section) then
        inr (mk (assign (optionxform option) value (defaults p)) (sections p))
      else
        match lookup section (sections p) with
        | None => inl (NoSectionError section)
        | Some sectdict =>
            inr (mk (defaults p)
                   (assign section (assign (optionxform option) value sectdict)
                      (sections p)))
        end
  end.

Definition has_option (section option : string) (p : t) : bool :=
  if bool_decide (section = "") || bool_decide (section = default_section) then
    bool_decide (is_Some (lookup (optionxform option) (defaults p)))
  else
    match lookup section (sections p) with
    | None => false
    | Some sectdict =>
        bool_decide (is_Some (lookup (optionxform option) sectdict)) ||
        bool_decide (is_Some (lookup (optionxform option) (defaults p)))
    end.

(** [parser[section].setdefault(key, default)]: the value and the parser. *)
Definition setdefault (section key default : string) (p : t)
  : result (string * t) :=
  if has_option section key p then
    match get section key p with
    | inl e => inl e
    | inr v => inr (v, p)
    end
  else
    match set section key default p with
    | inl e => inl e
    | inr p' => inr (default, p')
    end.

(** [str.replace] of a newline by a newline and a tab. *)
Fixpoint indent_newlines (s : string) : string :=
  match s with
  | EmptyString => EmptyString
  | String c s' =>
      if decide (c = PyStr.LF)
      then String PyStr.LF (String (PyStr.chr 9) (indent_newlines s'))
      else String c (indent_newlines s')
  end.

Definition write_section (section_name : string) (section_items : items)
  : string :=
  "[" +:+ section_name +:+ "]" +:+ PyStr.nl +:+
  String.concat ""
    ((λ kv, kv.1 +:+ " = " +:+ indent_newlines kv.2 +:+ PyStr.nl)
       <$> section_items) +:+
  PyStr.nl.

(** [parser.write(fp)]: the text written. *)
Definition write (p : t) : string :=
  (if decide (defaults p = []) then ""
   else write_section default_section (defaults p)) +:+
  String.concat "" ((λ s, write_section s.1 s.2) <$> sections p).

End ConfigParser.

(** ** The operating system as seen by the script *)

(** The calls that reach outside the interpreter; the index is the type of
    the value a call returns. *)
Inductive op : Type → Type :=
| PathExists (p : Path.t) : op bool               (* p.exists() *)
| ReadText (p : Path.t) : op string               (* open(p).read() *)
| ParserRead (p : Path.t) : op ConfigParser.t     (* ConfigParser().read(p) *)
| OpenWrite (p : Path.t) : op unit                (* open(p, 'w') *)
| OpenAppend (p : Path.t) : op unit               (* open(p, 'a') *)
| Write (p : Path.t) (data : string) : op unit    (* f.write(data) *)
| Mkdir (p : Path.t) : op unit         (* p.mkdir(parents=True, exist_ok=True) *)
| GetCwd : op Path.t                              (* os.getcwd() *)
| ChDir (p : Path.t) : op unit                    (* os.chdir(p) *)
| SubprocessRun (args : list string) (capture_output : bool)
  : op (Z * string)     (* subprocess.run(args, ...): returncode and stdout *)
| Print (text : string) : op unit                 (* print(...) *)
| Input : op string.                              (* input() *)

(** A program: a tree of calls, each continued on the value or on the
    exception the call produced. *)
Inductive Prog (A : Type) : Type :=
| Ret (a : A)
| Throw (e : exn)
| Do {X : Type} (o : op X) (k : result X → Prog A).

Arguments Ret {A} a.
Arguments Throw {A} e.
Arguments Do {A X} o k.

Fixpoint bind {A B} (m : Prog A) (f : A → Prog B) : Prog B :=
  match m with
  | Ret a => f a
  | Throw e => Throw e
  | Do o k => Do o (λ r, bind (k r) f)
  end.

#[global] Instance Prog_ret : MRet Prog := @Ret.
#[global] Instance Prog_bind : MBind Prog := λ A B f m, bind m f.

(** A value computed inside the interpreter, or the exception it raised. *)
Definition lift {A} (r : result A) : Prog A :=
  match r with
  | inl e => Throw e
  | inr a => Ret a
  end.

(** One call; an exception of the call propagates. *)
Definition perform {X} (o : op X) : Prog X := Do o lift.

(** [try: body finally: final]. *)
Fixpoint try_finally {A} (body : Prog A) (final : Prog unit) : Prog A :=
  match body with
  | Ret a => final;; Ret a
  | Throw e => final;; Throw e
  | Do o k => Do o (λ r, try_finally (k r) final)
  end.

(** *** Running a program *)

Inductive node := File (data : string) | Dir.

(** The file system: absolute paths to nodes. *)
Abbreviation FS := (gmap (list string) node).

(** The log of a run keeps each call without its type index: what was
    called, and the value or the exception that came back. *)
Inductive action :=
| APathExists (p : Path.t)
| AReadText (p : Path.t)
| AParserRead (p : Path.t)
| AOpenWrite (p : Path.t)
| AOpenAppend (p : Path.t)
| AWrite (p : Path.t) (data : string)
| AMkdir (p : Path.t)
| AGetCwd
| AChDir (p : Path.t)
| ASubprocessRun (args : list string) (capture_output : bool)
| APrint (text : string)
| AInput.

Inductive value :=
| VUnit
| VBool (b : bool)
| VStr (s : string)
| VPath (p : Path.t)
| VProc (returncode : Z) (stdout : string)
| VParser (p : ConfigParser.t).

Definition action_of {X} (o : op X) : action :=
  match o with
  | PathExists p => APathExists p
  | ReadText p => AReadText p
  | ParserRead p => AParserRead p
  | OpenWrite p => AOpenWrite p
  | OpenAppend p => AOpenAppend p
  | Write p data => AWrite p data
  | Mkdir p => AMkdir p
  | GetCwd => AGetCwd
  | ChDir p => AChDir p
  | SubprocessRun args capture_output => ASubprocessRun args capture_output
  | Print text => APrint text
  | Input => AInput
  end.

Definition value_of {X} (o : op X) : X → value :=
  match o in op X return X → value with
  | PathExists _ => VBool
  | ReadText _ => VStr
  | ParserRead _ => VParser
  | OpenWrite _ | OpenAppend _ | Write _ _ | Mkdir _ | ChDir _ | Print _ =>
      λ _, VUnit
  | GetCwd => VPath
  | SubprocessRun _ _ => λ r, VProc r.1 r.2
  | Input => VStr
  end.

Definition reply_of {X} (o : op X) (r : result X) : result value :=
  match r with
  | inl e => inl e
  | inr x => inr (value_of o x)
  end.

(** A call as it happened: the working directory it ran in, the call and
    its outcome. *)
Record event := mkEvent {
  ev_cwd : list string;
  ev_action : action;
  ev_reply : result value;
}.

Record World := mkWorld {
  w_cwd : list string;      (* the working directory, an absolute path *)
  w_fs : FS;
  w_log : list event;       (* the calls made so far, oldest first *)
}.

(** What the script does not control.  [n] is the number of calls made
    before the one that is answered. *)
Record Env := mkEnv {
  (* the call fails in the operating system *)
  env_fault : nat → option exn;
  (* a child process: its return code, its output, the files it leaves *)
  env_subprocess : nat → list string → list string → FS → Z * string * FS;
  (* the line the operator types *)
  env_input : nat → string;
  (* ConfigParser's parser, on the text of a file *)
  env_parse : string → result ConfigParser.t;
}.

Definition resolve (cwd : list string) (p : Path.t) : list string :=
  if Path.absolute p then Path.parts p else cwd ++ Path.parts p.

(** The effect of a call the operating system lets through. *)
Definition perform_op {X} (env : Env) (n : nat) (o : op X)
    (cwd : list string) (fs : FS) : result X * list string * FS :=
  match o in op X return result X * list string * FS with
  | PathExists p =>
      (inr (bool_decide (is_Some (fs !! resolve cwd p))), cwd, fs)
  | ReadText p =>
      match fs !! resolve cwd p with
      | Some (File data) => (inr (PyStr.translate_newlines data), cwd, fs)
      | Some Dir => (inl (OSError "IsADirectoryError"), cwd, fs)
      | None => (inl (OSError "FileNotFoundError"), cwd, fs)
      end
  | ParserRead p =>
      match fs !! resolve cwd p with
      | Some (File data) =>
          (env_parse env (PyStr.translate_newlines data), cwd, fs)
      | _ => (inr ConfigParser.new, cwd, fs)
      end
  | OpenWrite p =>
      match fs !! resolve cwd p with
      | Some Dir => (inl (OSError "IsADirectoryError"), cwd, fs)
      | _ => (inr (), cwd, <[resolve cwd p := File ""]> fs)
      end
  | OpenAppend p =>
      match fs !! resolve cwd p with
      | Some Dir => (inl (OSError "IsADirectoryError"), cwd, fs)
      | Some (File _) => (inr (), cwd, fs)
      | None => (inr (), cwd, <[resolve cwd p := File ""]> fs)
      end
  | Write p data =>
      match fs !! resolve cwd p with
      | Some (File old) =>
          (inr (), cwd, <[resolve cwd p := File (old +:+ data)]> fs)
      | _ => (inl (OSError "write"), cwd, fs)
      end
  | Mkdir p =>
      match fs !! resolve cwd p with
      | Some (File _) => (inl (OSError "FileExistsError"), cwd, fs)
      | _ => (inr (), cwd, <[resolve cwd p := Dir]> fs)
      end
  | GetCwd => (inr (Path.mk true cwd), cwd, fs)
  | ChDir p => (inr (), resolve cwd p, fs)
  | SubprocessRun args _ =>
      let '(returncode, stdout, fs') := env_subprocess env n args cwd fs in
      (inr (returncode, stdout), cwd, fs')
  | Print _ => (inr (), cwd, fs)
  | Input => (inr (env_input env n), cwd, fs)
  end.

(** One call in a world.  A fault leaves the world as it is;
    [ConfigParser.read] skips a file it cannot open. *)
Definition step {X} (env : Env) (o : op X) (w : World) : result X * World :=
  let n := length (w_log w) in
  let '(r, cwd, fs) :=
    match env_fault env n with
    | Some e =>
        match o in op X return result X * list string * FS with
        | ParserRead _ =>
            match e with
            | OSError _ => (inr ConfigParser.new, w_cwd w, w_fs w)
            | _ => (inl e, w_cwd w, w_fs w)
            end
        | _ => (inl e, w_cwd w, w_fs w)
        end
    | None => perform_op env n o (w_cwd w) (w_fs w)
    end in
  (r, mkWorld cwd fs (w_log w ++ [mkEvent (w_cwd w) (action_of o) (reply_of o r)])).

Fixpoint exec {A} (env : Env) (m : Prog A) (w : World) : result A * World :=
  match m with
  | Ret a => (inr a, w)
  | Throw e => (inl e, w)
  | Do o k => let '(r, w') := step env o w in exec env (k r) w'
  end.

(** ** The script *)

(** A value put into a template. *)
Inductive pyval := PInt (n : Z) | PStr (s : string).

Definition print (line : string) : Prog unit :=
  perform (Print (line +:+ PyStr.nl)).

(** [call] (lines 54-65). *)
Definition call (args : list string) (capture_output : bool)
  : Prog (Z * string) :=
  result ← perform (SubprocessRun args capture_output);
  (if decide (result.1 ≠ 0) then
     print "ABORTING: Please fix the errors shown above.";;
     perform (Print "Proceed anyway (y/N)? ");;
     answer ← perform Input;
     if decide (PyStr.lower answer ≠ "y")
     then Throw (SystemExit result.1) else mret ()
   else mret ());;
  mret result.

(** [META_HINT.format(config_type=config_type)] (lines 11-14). *)
Definition META_HINT (config_type : string) : string :=
  "# Generated from:" +:+ PyStr.nl +:+
  "# https://github.com/gocept/meta/tree/master/config/" +:+ config_type
  +:+ PyStr.nl.

Definition TESTS_MATRIX_PYPY : string :=
  PyStr.nl +:+ "        - [" +:+ PyStr.dquote +:+ "pypy2" +:+ PyStr.dquote +:+ ", "
  +:+ PyStr.dquote +:+ "pypy" +:+ PyStr.dquote +:+ "]" +:+
  PyStr.nl +:+ "        - [" +:+ PyStr.dquote +:+ "pypy3" +:+ PyStr.dquote +:+ ", "
  +:+ PyStr.dquote +:+ "pypy3" +:+ PyStr.dquote +:+ "]".

Definition TOX_INI_PYPY : string :=
  PyStr.nl +:+ "    pypy," +:+ PyStr.nl +:+ "    pypy3,".

Section Script.

(** [str.format] with keyword arguments and the [%] operator on a template
    and a mapping are Python's own; the script is embedded for any behaviour
    of the two. *)
Variable str_format : string → list (string * string) → result string.
Variable percent_format : string → list (string * pyval) → result string.

(** [pathlib.Path(__file__).parent]: where the script and its templates are. *)
Variable here : Path.t.

(** [copy_with_meta] (lines 68-77). *)
Definition copy_with_meta (source destination : Path.t) (config_type : string)
    (kw : list (string * string)) : Prog unit :=
  f_data ← perform (ReadText source);
  perform (OpenWrite destination);;
  perform (Write destination (META_HINT config_type));;
  f_data ← (if decide (kw ≠ []) then lift (str_format f_data kw)
            else mret f_data);
  perform (Write destination f_data).

(** Lines 138-146: the registry of the packages of a config type. *)
Definition register_package (config_type_path : Path.t) (name : string)
  : Prog unit :=
  content ← perform (ReadText (config_type_path // "packages.txt"));
  let known_packages := PyStr.splitlines content in
  if decide (name ∈ known_packages) then
    print (name +:+ " is already configured for this config type, updating.")
  else
    print (name +:+ " is not yet configured for this config type, adding.");;
    perform (OpenAppend (config_type_path // "packages.txt"));;
    perform (Write (config_type_path // "packages.txt") (name +:+ PyStr.nl)).

(** Lines 158-164, once the output of git log is known: the commit and the
    two flags; the answer is [(meta_cfg, with_pypy, support_legacy_python)]. *)
Definition resolve_flags (args : Args.t) (commit_id : string)
    (meta_cfg : ConfigParser.t) : result (ConfigParser.t * bool * bool) :=
  meta_cfg ← ConfigParser.set "meta" "commit-id" commit_id meta_cfg;
  persisted ← ConfigParser.getboolean "meta" "with-pypy" false meta_cfg;
  let with_pypy := persisted || Args.with_pypy args in
  meta_cfg ← ConfigParser.set "meta" "with-pypy"
               (PyStr.str_bool with_pypy) meta_cfg;
  persisted ← ConfigParser.getboolean "meta" "support_legacy_python"
                false meta_cfg;
  let support_legacy_python := persisted || Args.support_legacy_python args in
  meta_cfg ← ConfigParser.set "meta" "support_legacy_python"
               (PyStr.str_bool support_legacy_python) meta_cfg;
  mret (meta_cfg, with_pypy, support_legacy_python).

(** The command line of git log (lines 158-159). *)
Definition git_log_command : list string :=
  ["git"; "log"; "-n1"; "--format=format:%H"].

(** Lines 150-164: the metadata of the repository and the two flags. *)
Definition read_meta (args : Args.t) (config_type : string)
  : Prog (ConfigParser.t * bool * bool) :=
  let meta_cfg_path := Args.path args // ".meta.cfg" in
  present ← perform (PathExists meta_cfg_path);
  meta_cfg ← (if present : bool then perform (ParserRead meta_cfg_path)
              else mret (ConfigParser.setitem_empty "meta" ConfigParser.new));
  _ ← lift (ConfigParser.getitem "meta" meta_cfg);
  meta_cfg ← lift (ConfigParser.set "meta" "template" config_type meta_cfg);
  log ← call git_log_command true;
  lift (resolve_flags args log.2 meta_cfg).

(** Lines 167-186: the template files; the answer is
    [(add_coveragerc, rm_coveragerc)]. *)
Definition copy_templates (path : Path.t) (config_type : string)
  : Prog (bool * bool) :=
  let default_path := here // "default" in
  let config_type_path := here // config_type in
  copy_with_meta (config_type_path // "setup.cfg") (path // "setup.cfg")
    config_type [];;
  copy_with_meta (default_path // "MANIFEST.in") (path // "MANIFEST.in")
    config_type [];;
  copy_with_meta (default_path // "editorconfig") (path // ".editorconfig")
    config_type [];;
  copy_with_meta (default_path // "gitignore") (path // ".gitignore")
    config_type [];;
  perform (Mkdir (path // ".github" // "workflows"));;
  template ← perform (PathExists (config_type_path // "coveragerc"));
  if template : bool then
    copy_with_meta (config_type_path // "coveragerc") (path // ".coveragerc")
      config_type [("package_name", Path.name path)];;
    mret (true, false)
  else
    stale ← perform (PathExists (path // ".coveragerc"));
    mret (false, stale).

(** Lines 195-202: setup.cfg. *)
Definition write_setup_cfg (path : Path.t) (config_type : string)
    (support_legacy_python : bool) : Prog unit :=
  setup_cfg ← perform (ReadText (here // config_type // "setup.cfg"));
  perform (OpenWrite (path // "setup.cfg"));;
  let universal_wheel := if support_legacy_python then 1 else 0 in
  text ← lift (percent_format setup_cfg
                 [("universal_wheel", PInt universal_wheel)]);
  perform (Write (path // "setup.cfg") text).

(** Lines 206-219: tox.ini; the metadata gain the coverage threshold. *)
Definition write_tox_ini (path : Path.t) (config_type : string)
    (meta_cfg : ConfigParser.t) (with_pypy : bool) (python_environs : string)
  : Prog ConfigParser.t :=
  tox_ini ← perform (ReadText (here // config_type // "tox.ini.in"));
  perform (OpenWrite (path // "tox.ini"));;
  '(fail_under, meta_cfg) ←
    lift (ConfigParser.setdefault "meta" "fail-under" "0" meta_cfg);
  let additional_environs := if with_pypy then TOX_INI_PYPY else "" in
  text ← lift (percent_format tox_ini
                 [("coverage_report_options",
                   PStr ("--fail-under=" +:+ fail_under));
                  ("python_environs", PStr python_environs);
                  ("additional_environs", PStr additional_environs)]);
  perform (Write (path // "tox.ini") text);;
  mret meta_cfg.

(** Lines 222-233: the workflow of the tests. *)
Definition write_tests_yml (path : Path.t) (with_pypy : bool)
    (versions_config : string) : Prog unit :=
  let workflows := path // ".github" // "workflows" in
  tests_yml ← perform (ReadText (here // "default" // "tests.yml.in"));
  perform (OpenWrite (workflows // "tests.yml"));;
  let additional_config := if with_pypy then TESTS_MATRIX_PYPY else "" in
  text ← lift (percent_format tests_yml
                 [("version_config", PStr versions_config);
                  ("additional_config", PStr additional_config)]);
  perform (Write (workflows // "tests.yml") text).

(** Lines 246-251: the metadata file. *)
Definition write_meta_cfg (config_type : string) (meta_cfg : ConfigParser.t)
  : Prog unit :=
  perform (OpenWrite (Path.rel ".meta.cfg"));;
  perform (Write (Path.rel ".meta.cfg")
             ("# Generated from:" +:+ PyStr.nl +:+
              "# https://github.com/gocept/meta/tree/master/config/" +:+
              config_type +:+ PyStr.nl));;
  perform (Write (Path.rel ".meta.cfg") (ConfigParser.write meta_cfg)).

(** Lines 253-277: the branch, the commit and the push. *)
Definition commit_and_push (args : Args.t) (config_type branch_name : string)
    (add_coveragerc rm_coveragerc : bool) : Prog unit :=
  listing ← call ["git"; "branch"; "--format"; "%(refname:short)"] true;
  let branches := PyStr.splitlines listing.2 in
  updating ← (if decide (branch_name ∈ branches) then
                call ["git"; "checkout"; branch_name] false;; mret true
              else
                call ["git"; "checkout"; "-b"; branch_name] false;; mret false);
  call ["git"; "add"; "setup.cfg"; "tox.ini"; ".gitignore";
        ".github/workflows/tests.yml"; "MANIFEST.in"; ".editorconfig";
        ".meta.cfg"] false;;
  (if rm_coveragerc then call ["git"; "rm"; ".coveragerc"] false;; mret ()
   else mret ());;
  (if add_coveragerc then call ["git"; "add"; ".coveragerc"] false;; mret ()
   else mret ());;
  call ["git"; "commit"; "-m"; "Configuring for " +:+ config_type] false;;
  (if negb (Args.no_push args) then
     call ["git"; "push"; "--set-upstream"; "origin"; branch_name] false;;
     mret ()
   else mret ());;
  print "";;
  print "If everything went fine up to here:";;
  if updating : bool then print "Updated the previously created PR."
  else print "Create a PR, using the URL shown above.".

(** The command line of the test runner (line 243). *)
Definition tox_command (cwd : Path.t) : list string :=
  [Path.str (cwd // "bin" // "tox"); "-p"; "auto"].

(** Lines 239-242: files of former set-ups. *)
Definition remove_legacy_files : Prog unit :=
  bootstrap ← perform (PathExists (Path.rel "bootstrap.py"));
  (if bootstrap : bool then call ["git"; "rm"; "bootstrap.py"] false;; mret ()
   else mret ());;
  travis ← perform (PathExists (Path.rel ".travis.yml"));
  (if travis : bool then call ["git"; "rm"; ".travis.yml"] false;; mret ()
   else mret ()).

(** Lines 238-277: what runs inside the target repository. *)
Definition in_repository (args : Args.t) (config_type branch_name : string)
    (cwd : Path.t) (meta_cfg : ConfigParser.t)
    (add_coveragerc rm_coveragerc : bool) : Prog unit :=
  perform (ChDir (Args.path args));;
  remove_legacy_files;;
  call (tox_command cwd) false;;
  write_meta_cfg config_type meta_cfg;;
  commit_and_push args config_type branch_name add_coveragerc rm_coveragerc.

(** Lines 235-279. *)
Definition orchestrate (args : Args.t) (config_type : string)
    (meta_cfg : ConfigParser.t) (add_coveragerc rm_coveragerc : bool)
  : Prog unit :=
  cwd ← perform GetCwd;
  let branch_name := "config-with-" +:+ config_type in
  try_finally
    (in_repository args config_type branch_name cwd meta_cfg
       add_coveragerc rm_coveragerc)
    (perform (ChDir cwd)).

(** Lines 129-233: the registry, the metadata and the files of the target
    repository; the answer is [(meta_cfg, add_coveragerc, rm_coveragerc)]. *)
Definition prepare (args : Args.t) : Prog (ConfigParser.t * bool * bool) :=
  let path := Args.path args in
  let config_type := config_type_str (Args.type args) in
  git ← perform (PathExists (path // ".git"));
  (if git : bool then mret ()
   else Throw (ValueError
                 "The `path` has to point to a git clone of a repository"));;
  register_package (here // config_type) (Path.name path);;
  '(meta_cfg, with_pypy, support_legacy_python) ← read_meta args config_type;
  '(add_coveragerc, rm_coveragerc) ← copy_templates path config_type;
  let versions := get_supported_versions args in
  let versions_config := get_test_matrix_versions versions in
  let python_environs := get_tox_ini_versions versions in
  write_setup_cfg path config_type support_legacy_python;;
  meta_cfg ← write_tox_ini path config_type meta_cfg with_pypy python_environs;
  write_tests_yml path with_pypy versions_config;;
  mret (meta_cfg, add_coveragerc, rm_coveragerc).

(** The module body (lines 129-279). *)
Definition main (args : Args.t) : Prog unit :=
  '(meta_cfg, add_coveragerc, rm_coveragerc) ← prepare args;
  orchestrate args (config_type_str (Args.type args)) meta_cfg
    add_coveragerc rm_coveragerc.

End Script.

(** ** Notions the properties are stated with *)

(** The options of the section meta, as stored. *)
Definition meta_items (p : ConfigParser.t) : ConfigParser.items :=
  default [] (ConfigParser.lookup "meta" (ConfigParser.sections p)).

(** What one run does to the metadata: lines 157, 158-164 and 211. *)
Definition meta_run (args : Args.t) (config_type commit_id : string)
    (meta_cfg : ConfigParser.t) : result (ConfigParser.t * bool * bool) :=
  meta_cfg ← ConfigParser.set "meta" "template" config_type meta_cfg;
  '(meta_cfg, with_pypy, support_legacy_python) ←
    resolve_flags args commit_id meta_cfg;
  '(_, meta_cfg) ← ConfigParser.setdefault "meta" "fail-under" "0" meta_cfg;
  mret (meta_cfg, with_pypy, support_legacy_python).

(** The value of the flag [key] that the metadata hold: the boolean that the
    stored spelling stands for, false when the option is absent (the
    fallback of lines 160 and 162). *)
Definition persisted (key : string) (p : ConfigParser.t) (b : bool) : Prop :=
  match ConfigParser.lookup key (meta_items p ++ ConfigParser.defaults p) with
  | Some v => ConfigParser.convert_to_boolean v = inr b
  | None => b = false
  end.

(** The store of a repository that has no metadata file (line 155). *)
Definition fresh_meta : ConfigParser.t :=
  ConfigParser.setitem_empty "meta" ConfigParser.new.

(** The store that lines 150-155 make of the files of [w]: what the parser
    reads from the file .meta.cfg of the target path, and the store with the
    empty section meta where nothing is at that path.  No store comes of a
    directory at that path: [ConfigParser.read] skips it and line 156
    raises. *)
Definition loaded_from (env : Env) (args : Args.t) (w : World)
    (loaded : ConfigParser.t) : Prop :=
  match w_fs w !! resolve (w_cwd w) (Args.path args // ".meta.cfg") with
  | Some (File text) =>
      env_parse env (PyStr.translate_newlines text) = inr loaded
  | Some Dir => False
  | None => loaded = fresh_meta
  end.

(** [later_run ... meta_cfg meta_cfg']: [meta_cfg'] are the metadata that a
    later run hands over for writing, when each run after the one that left
    [meta_cfg] finds, as the metadata file of its target, the text that lines
    246-251 write for the metadata of the run before it, and its parser reads
    that text as these metadata.  The runs have environments, files and
    command lines of their own. *)
Inductive later_run
    (str_format : string → list (string * string) → result string)
    (percent_format : string → list (string * pyval) → result string)
    (here : Path.t) (meta_cfg : ConfigParser.t) : ConfigParser.t → Prop :=
| later_run_refl : later_run str_format percent_format here meta_cfg meta_cfg
| later_run_step env args w config_type mid meta_cfg' add rm :
    later_run str_format percent_format here meta_cfg mid →
    w_fs w !! resolve (w_cwd w) (Args.path args // ".meta.cfg")
      = Some (File (META_HINT config_type +:+ ConfigParser.write mid)) →
    env_parse env
      (PyStr.translate_newlines
         (META_HINT config_type +:+ ConfigParser.write mid)) = inr mid →
    (exec env (prepare str_format percent_format here args) w).1
      = inr (meta_cfg', add, rm) →
    later_run str_format percent_format here meta_cfg meta_cfg'.

(** The keys with the legacy flag spelt with hyphens. *)
Definition hyphenated_keys : list string :=
  ["template"; "commit-id"; "with-pypy"; "support-legacy-python"; "fail-under"].

(** The keys the script writes. *)
Definition written_keys : list string :=
  ["template"; "commit-id"; "with-pypy"; "support_legacy_python"; "fail-under"].

(** ** Runs and the calls they make *)

(** The calls a run added to the log. *)
Definition new_events (w w' : World) : list event :=
  drop (length (w_log w)) (w_log w').

(** Every call [m] can make satisfies [P]. *)
Inductive only (P : action → Prop) {A} : Prog A → Prop :=
| only_Ret a : only P (Ret a)
| only_Throw e : only P (Throw e)
| only_Do {X} (o : op X) k :
    P (action_of o) → (∀ r, only P (k r)) → only P (Do o k).

Definition is_chdir (a : action) : bool :=
  match a with
  | AChDir _ => true
  | _ => false
  end.

(** The working directory after a call. *)
Definition next_cwd (cwd : list string) (a : action) (r : result value)
  : list string :=
  match a, r with
  | AChDir p, inr _ => resolve cwd p
  | _, _ => cwd
  end.

(** What a call can answer in the directory [cwd]: [os.getcwd()] answers
    this directory; the other answers are up to the environment. *)
Definition possible {X} (cwd : list string) (o : op X) : result X → Prop :=
  match o in op X return result X → Prop with
  | GetCwd => λ r,
      match r with
      | inr p => p = Path.mk true cwd
      | inl _ => True
      end
  | _ => λ _, True
  end.

(** [trace m cwd out evs cwd']: started in the directory [cwd], the program
    [m] can end with [out] in the directory [cwd'] after the calls [evs]. *)
Fixpoint trace {A} (m : Prog A) (cwd : list string) (out : result A)
    (evs : list event) (cwd' : list string) : Prop :=
  match m with
  | Ret a => out = inr a ∧ evs = [] ∧ cwd' = cwd
  | Throw e => out = inl e ∧ evs = [] ∧ cwd' = cwd
  | Do o k =>
      ∃ r evs',
        possible cwd o r ∧
        evs = mkEvent cwd (action_of o) (reply_of o r) :: evs' ∧
        trace (k r) (next_cwd cwd (action_of o) (reply_of o r)) out evs' cwd'
  end.

(** ** The outcomes of [call] *)

Definition ABORTING : string :=
  "ABORTING: Please fix the errors shown above." +:+ PyStr.nl.
Definition PROCEED : string := "Proceed anyway (y/N)? ".

(** The outcomes of [call args] in the directory [cwd]: what it returns or
    raises, and the calls it makes. *)
Inductive call_outcome (cwd : list string) (args : list string) (cap : bool)
  : result (Z * string) → list event → Prop :=
| call_not_run e :
    call_outcome cwd args cap (inl e)
      [mkEvent cwd (ASubprocessRun args cap) (inl e)]
| call_passed stdout :
    call_outcome cwd args cap (inr (0, stdout))
      [mkEvent cwd (ASubprocessRun args cap) (inr (VProc 0 stdout))]
| call_print_failed rc stdout e :
    rc ≠ 0 →
    call_outcome cwd args cap (inl e)
      [mkEvent cwd (ASubprocessRun args cap) (inr (VProc rc stdout));
       mkEvent cwd (APrint ABORTING) (inl e)]
| call_prompt_failed rc stdout e :
    rc ≠ 0 →
    call_outcome cwd args cap (inl e)
      [mkEvent cwd (ASubprocessRun args cap) (inr (VProc rc stdout));
       mkEvent cwd (APrint ABORTING) (inr VUnit);
       mkEvent cwd (APrint PROCEED) (inl e)]
| call_input_failed rc stdout e :
    rc ≠ 0 →
    call_outcome cwd args cap (inl e)
      [mkEvent cwd (ASubprocessRun args cap) (inr (VProc rc stdout));
       mkEvent cwd (APrint ABORTING) (inr VUnit);
       mkEvent cwd (APrint PROCEED) (inr VUnit);
       mkEvent cwd AInput (inl e)]
| call_declined rc stdout answer :
    rc ≠ 0 → PyStr.lower answer ≠ "y" →
    call_outcome cwd args cap (inl (SystemExit rc))
      [mkEvent cwd (ASubprocessRun args cap) (inr (VProc rc stdout));
       mkEvent cwd (APrint ABORTING) (inr VUnit);
       mkEvent cwd (APrint PROCEED) (inr VUnit);
       mkEvent cwd AInput (inr (VStr answer))]
| call_overridden rc stdout answer :
    rc ≠ 0 → PyStr.lower answer = "y" →
    call_outcome cwd args cap (inr (rc, stdout))
      [mkEvent cwd (ASubprocessRun args cap) (inr (VProc rc stdout));
       mkEvent cwd (APrint ABORTING) (inr VUnit);
       mkEvent cwd (APrint PROCEED) (inr VUnit);
       mkEvent cwd AInput (inr (VStr answer))].

(** ** Kinds of calls *)

(** Writing the metadata file of the target repository. *)
Definition is_meta_write (a : action) : bool :=
  match a with
  | AOpenWrite p | AOpenAppend p | AWrite p _ =>
      bool_decide (Path.name p = ".meta.cfg")
  | _ => false
  end.

(** git commit. *)
Definition is_commit (a : action) : bool :=
  match a with
  | ASubprocessRun (command :: subcommand :: _) _ =>
      bool_decide (subcommand = "commit") && bool_decide (command = "git")
  | _ => false
  end.

(** The test runner (line 243). *)
Definition is_tox (a : action) : bool :=
  match a with
  | ASubprocessRun [_; "-p"; "auto"] _ => true
  | _ => false
  end.

(** git log (lines 158-159). *)
Definition is_git_log (a : action) : bool :=
  match a with
  | ASubprocessRun (_ :: "log" :: _) _ => true
  | _ => false
  end.

Definition is_getcwd (a : action) : bool :=
  match a with
  | AGetCwd => true
  | _ => false
  end.

(** The calls of the preparation: they stay in the working directory and
    neither write the metadata file, nor commit, nor run the tests. *)
Definition preparing (a : action) : bool :=
  negb (is_chdir a) && negb (is_getcwd a) && negb (is_meta_write a) &&
  negb (is_commit a) && negb (is_tox a).

(** The calls before the tests: no write of the metadata file, no commit. *)
Definition before_tests (a : action) : bool :=
  negb (is_meta_write a) && negb (is_commit a) && negb (is_tox a) &&
  negb (is_git_log a) && negb (is_getcwd a).

(** The calls after the metadata file is written. *)
Definition after_meta (a : action) : bool :=
  negb (is_meta_write a) && negb (is_tox a) && negb (is_git_log a) &&
  negb (is_chdir a) && negb (is_getcwd a).

(** The calls that write the metadata file (lines 246-251). *)
Definition meta_write (config_type : string) (meta_cfg : ConfigParser.t)
    (a : action) : Prop :=
  a = AOpenWrite (Path.rel ".meta.cfg") ∨
  a = AWrite (Path.rel ".meta.cfg") (META_HINT config_type) ∨
  a = AWrite (Path.rel ".meta.cfg") (ConfigParser.write meta_cfg).

(** The call of the test runner that answered [rc] and [stdout]. *)
Definition tox_event (c cwd : list string) (rc : Z) (stdout : string) : event :=
  mkEvent c (ASubprocessRun (tox_command (Path.mk true cwd)) false)
    (inr (VProc rc stdout)).

(** Neither a write of the metadata file, nor a commit, nor the tests. *)
Definition silent (ev : event) : Prop :=
  is_meta_write (ev_action ev) = false ∧ is_commit (ev_action ev) = false ∧
  is_tox (ev_action ev) = false.

(** The call of git log that answered [rc] and [stdout]. *)
Definition git_log_event (cwd : list string) (rc : Z) (stdout : string)
  : event :=
  mkEvent cwd (ASubprocessRun git_log_command true) (inr (VProc rc stdout)).

(** Writing a file of the given name. *)
Definition writes_named (name : string) (a : action) : bool :=
  match a with
  | AOpenWrite p | AOpenAppend p | AWrite p _ => bool_decide (Path.name p = name)
  | _ => false
  end.

(** ** Files and lines *)

(** The environment lets the next [k] calls through. *)
Definition no_fault (env : Env) (w : World) (k : nat) : Prop :=
  ∀ i, (i < k)%nat → env_fault env (length (w_log w) + i) = None.

(** The text [copy_with_meta] puts after the provenance lines, with
    [str.format] as [str_format]. *)
Definition copied_text
    (str_format : string → list (string * string) → result string)
    (text : string) (kw : list (string * string)) : result string :=
  if decide (kw ≠ []) then str_format text kw else inr text.

(** A line boundary somewhere in the text. *)
Fixpoint has_linebreak (s : string) : bool :=
  match s with
  | EmptyString => false
  | String c s' => PyStr.is_linebreak c || has_linebreak s'
  end.

(** How many of the lines are [name]. *)
Definition occurrences (name : string) (lines : list string) : nat :=
  length (filter (λ line, line = name) lines).

(** The lines of the registry, as the script reads them. *)
Definition registry_lines (content : string) : list string :=
  PyStr.splitlines (PyStr.translate_newlines content).

(** How many lines of the registry file are [name]. *)
Definition registered (name : string) (registry : list string) (fs : FS)
  : nat :=
  match fs !! registry with
  | Some (File content) => occurrences name (registry_lines content)
  | _ => 0%nat
  end.

(** One invocation after the other, each in an environment of its own, on
    the files the invocation before has left. *)
Fixpoint invocations {A} (envs : list Env) (m : Prog A) (w : World) : World :=
  match envs with
  | [] => w
  | env :: envs => invocations envs m (exec env m w).2
  end.

(** ** Notions of the further properties *)

(** The line of the tox.ini snippet for one version. *)
Definition tox_ini_line (v : Z * Z) : string :=
  "    py" +:+ PyStr.str_int v.1 +:+ PyStr.str_int v.2 +:+ ",".

(** The row of the test matrix for one version. *)
Definition test_matrix_line (v : Z * Z) : string :=
  "        - [" +:+ PyStr.dquote +:+ PyStr.str_int v.1 +:+ "." +:+
  PyStr.str_int v.2 +:+ PyStr.dquote +:+ ", " +:+ PyStr.dquote +:+
  "py" +:+ PyStr.str_int v.1 +:+ PyStr.str_int v.2 +:+ PyStr.dquote +:+ "]".

(** git push. *)
Definition is_push (a : action) : bool :=
  match a with
  | ASubprocessRun (_ :: subcommand :: _) _ => bool_decide (subcommand = "push")
  | _ => false
  end.

(** Lines 239-277: the work in the target repository after [os.chdir(path)]. *)
Definition inside_repository (args : Args.t) (config_type branch_name : string)
    (cwd : Path.t) (meta_cfg : ConfigParser.t)
    (add_coveragerc rm_coveragerc : bool) : Prog unit :=
  remove_legacy_files;;
  call (tox_command cwd) false;;
  write_meta_cfg config_type meta_cfg;;
  commit_and_push args config_type branch_name add_coveragerc rm_coveragerc.

(** The file or directory a call creates or writes. *)
Definition written_path (a : action) : option Path.t :=
  match a with
  | AOpenWrite p | AOpenAppend p | AWrite p _ | AMkdir p => Some p
  | _ => None
  end.

(** [path] is [root] or lies below it. *)
Definition below (root path : Path.t) : Prop :=
  Path.absolute path = Path.absolute root ∧
  Path.parts root `prefix_of` Path.parts path.

(** git rm .coveragerc and git add .coveragerc (lines 268-271). *)
Definition git_rm_coveragerc : action :=
  ASubprocessRun ["git"; "rm"; ".coveragerc"] false.
Definition git_add_coveragerc : action :=
  ASubprocessRun ["git"; "add"; ".coveragerc"] false.

(** The calls of the prompt of [call] (lines 61-63). *)
Definition is_prompt (a : action) : bool :=
  match a with
  | APrint text => bool_decide (text = ABORTING) || bool_decide (text = PROCEED)
  | AInput => true
  | _ => false
  end.

(** The calls of a run, those of the prompts left out. *)
Definition script_calls (evs : list event) : list action :=
  filter (λ a, is_prompt a = false) (ev_action <$> evs).

(** The calls of lines 238-277 when every step succeeds, for a target with
    or without bootstrap.py and .travis.yml and the branches that git
    branch lists. *)
Definition completed_calls (args : Args.t) (config_type branch_name : string)
    (cwd : Path.t) (meta_cfg : ConfigParser.t)
    (bootstrap travis add_coveragerc rm_coveragerc : bool) (listing : string)
  : list action :=
  let updating := bool_decide (branch_name ∈ PyStr.splitlines listing) in
  [AChDir (Args.path args); APathExists (Path.rel "bootstrap.py")] ++
  (if bootstrap then [ASubprocessRun ["git"; "rm"; "bootstrap.py"] false]
   else []) ++
  [APathExists (Path.rel ".travis.yml")] ++
  (if travis then [ASubprocessRun ["git"; "rm"; ".travis.yml"] false]
   else []) ++
  [ASubprocessRun (tox_command cwd) false;
   AOpenWrite (Path.rel ".meta.cfg");
   AWrite (Path.rel ".meta.cfg") (META_HINT config_type);
   AWrite (Path.rel ".meta.cfg") (ConfigParser.write meta_cfg);
   ASubprocessRun ["git"; "branch"; "--format"; "%(refname:short)"] true;
   ASubprocessRun
     (if updating then ["git"; "checkout"; branch_name]
      else ["git"; "checkout"; "-b"; branch_name]) false;
   ASubprocessRun
     ["git"; "add"; "setup.cfg"; "tox.ini"; ".gitignore";
      ".github/workflows/tests.yml"; "MANIFEST.in"; ".editorconfig";
      ".meta.cfg"] false] ++
  (if rm_coveragerc then [git_rm_coveragerc] else []) ++
  (if add_coveragerc then [git_add_coveragerc] else []) ++
  [ASubprocessRun
     ["git"; "commit"; "-m"; "Configuring for " +:+ config_type] false] ++
  (if Args.no_push args then []
   else [ASubprocessRun
           ["git"; "push"; "--set-upstream"; "origin"; branch_name] false]) ++
  [APrint PyStr.nl;
   APrint ("If everything went fine up to here:" +:+ PyStr.nl);
   APrint ((if updating then "Updated the previously created PR."
            else "Create a PR, using the URL shown above.") +:+ PyStr.nl)].

(** A call that leaves the working directory [cwd] and the file [key] as
    they are: no [os.chdir], no child process, and nothing created or written
    at [key]. *)
Definition unaffecting (cwd key : list string) (a : action) : Prop :=
  is_chdir a = false ∧
  (∀ args capture_output, a ≠ ASubprocessRun args capture_output) ∧
  ∀ p, written_path a = Some p → resolve cwd p ≠ key.

(** A child process. *)
Definition is_child (a : action) : bool :=
  match a with
  | ASubprocessRun _ _ => true
  | _ => false
  end.

(** The text of the metadata of a first run: the section meta with its five
    options, as [ConfigParser.write] writes them. *)
Definition first_text (config_type commit_id : string)
    (with_pypy support_legacy_python : bool) : string :=
  "[meta]" +:+ PyStr.nl +:+
  "template = " +:+ config_type +:+ PyStr.nl +:+
  "commit-id = " +:+ ConfigParser.indent_newlines commit_id +:+ PyStr.nl +:+
  "with-pypy = " +:+ PyStr.str_bool with_pypy +:+ PyStr.nl +:+
  "support_legacy_python = " +:+ PyStr.str_bool support_legacy_python +:+
  PyStr.nl +:+
  "fail-under = 0" +:+ PyStr.nl +:+ PyStr.nl.

(** * A run on a small repository *)

Module Scenario.

(** A fragment of [str % dict]: text, [%%] and [%(key)s] or [%(key)d]. *)
Inductive percent_state :=
| PText | PPercent | PKey (key : string) | PConversion (key : string).

Definition render (v : pyval) : string :=
  match v with
  | PInt n => PyStr.str_int n
  | PStr s => s
  end.

Fixpoint percent_from (st : percent_state) (values : list (string * pyval))
    (s : string) : result string :=
  match s with
  | EmptyString =>
      match st with
      | PText => inr ""
      | _ => inl (ValueError "incomplete format")
      end
  | String c s' =>
      match st with
      | PText =>
          if decide (c = "%"%char) then percent_from PPercent values s'
          else rest ← percent_from PText values s'; mret (String c rest)
      | PPercent =>
          if decide (c = "%"%char) then
            rest ← percent_from PText values s'; mret (String c rest)
          else if decide (c = "("%char) then percent_from (PKey "") values s'
          else inl (OtherError "conversion without a key")
      | PKey key =>
          if decide (c = ")"%char) then percent_from (PConversion key) values s'
          else percent_from (PKey (key +:+ String c "")) values s'
      | PConversion key =>
          if decide (c = "s"%char ∨ c = "d"%char) then
            match ConfigParser.lookup key values with
            | Some v =>
                rest ← percent_from PText values s'; mret (render v +:+ rest)
            | None => inl (KeyError key)
            end
          else inl (OtherError "conversion type")
      end
  end.

Definition percent_format (template : string) (values : list (string * pyval))
  : result string :=
  percent_from PText values template.

(** A fragment of [str.format]: text, doubled braces and [{key}]. *)
Inductive format_state := FText | FOpen | FKey (key : string) | FClose.

Fixpoint format_from (st : format_state) (kw : list (string * string))
    (s : string) : result string :=
  match s with
  | EmptyString =>
      match st with
      | FText => inr ""
      | FClose => inl (ValueError "Single } encountered in format string")
      | _ => inl (ValueError "Single { encountered in format string")
      end
  | String c s' =>
      match st with
      | FText =>
          if decide (c = "{"%char) then format_from FOpen kw s'
          else if decide (c = "}"%char) then format_from FClose kw s'
          else rest ← format_from FText kw s'; mret (String c rest)
      | FOpen =>
          if decide (c = "{"%char) then
            rest ← format_from FText kw s'; mret (String c rest)
          else if decide (c = "}"%char) then
            inl (OtherError "positional field")
          else format_from (FKey (String c "")) kw s'
      | FKey key =>
          if decide (c = "}"%char) then
            match ConfigParser.lookup key kw with
            | Some v => rest ← format_from FText kw s'; mret (v +:+ rest)
            | None => inl (KeyError key)
            end
          else format_from (FKey (key +:+ String c "")) kw s'
      | FClose =>
          if decide (c = "}"%char) then
            rest ← format_from FText kw s'; mret (String c rest)
          else inl (ValueError "Single } encountered in format string")
      end
  end.

Definition str_format (template : string) (kw : list (string * string))
  : result string :=
  format_from FText kw template.

(** The directory of the script, with the templates of pure-python. *)
Definition here : Path.t := Path.mk true ["meta"; "config"].

Definition files : FS :=
  list_to_map [
    (["meta"; "config"; "pure-python"; "packages.txt"],
     File ("foo" +:+ PyStr.nl +:+ "bar" +:+ PyStr.nl));
    (["meta"; "config"; "pure-python"; "setup.cfg"],
     File ("[bdist_wheel]" +:+ PyStr.nl +:+
           "universal = %(universal_wheel)s" +:+ PyStr.nl));
    (["meta"; "config"; "pure-python"; "tox.ini.in"],
     File ("envlist =%(python_environs)s%(additional_environs)s" +:+ PyStr.nl
           +:+ "report = %(coverage_report_options)s" +:+ PyStr.nl));
    (["meta"; "config"; "default"; "tests.yml.in"],
     File ("config:%(version_config)s%(additional_config)s" +:+ PyStr.nl));
    (["meta"; "config"; "default"; "MANIFEST.in"],
     File ("include *.rst" +:+ PyStr.nl));
    (["meta"; "config"; "default"; "editorconfig"],
     File ("root = true" +:+ PyStr.nl));
    (["meta"; "config"; "default"; "gitignore"],
     File ("*.pyc" +:+ PyStr.nl));
    (["repo"; ".git"], Dir)
  ].

(** No call fails; every child process succeeds and prints abc123; the
    operator would answer n. *)
Definition env : Env :=
  mkEnv (λ _, None) (λ _ _ _ fs, (0, "abc123", fs)) (λ _, "n")
    (λ _, inr ConfigParser.new).

(** The same, but for the test runner, which fails with return code 2. *)
Definition failing : Env :=
  mkEnv (λ _, None)
    (λ _ command _ fs,
       if bool_decide (head command = Some "git") then (0, "abc123", fs)
       else (2, "", fs))
    (λ _, "n") (λ _, inr ConfigParser.new).

Definition world : World := mkWorld ["meta"] files [].

(** config-package.py --no-push /repo pure-python *)
Definition args : Args.t :=
  Args.mk (Path.mk true ["repo"]) true false pure_python false (3, 6).

(** The same with --with-py27. *)
Definition args_py27 : Args.t :=
  Args.mk (Path.mk true ["repo"]) true false pure_python true (3, 6).

(** Metadata of an earlier run with --with-pypy and a threshold of 85. *)
Definition stored : ConfigParser.t :=
  ConfigParser.mk []
    [("meta", [("template", "pure-python"); ("commit-id", "0123abc");
               ("with-pypy", "True"); ("support_legacy_python", "False");
               ("fail-under", "85")])].

(** What a run without flags makes of them, at commit abc123. *)
Definition stored_next : ConfigParser.t :=
  ConfigParser.mk []
    [("meta", [("template", "pure-python"); ("commit-id", "abc123");
               ("with-pypy", "True"); ("support_legacy_python", "False");
               ("fail-under", "85")])].

(** The metadata file that earlier run has written. *)
Definition stored_file : string :=
  META_HINT "pure-python" +:+ ConfigParser.write stored.

(** The files, with that metadata file in the target repository. *)
Definition configured : World :=
  mkWorld ["meta"] (<[["repo"; ".meta.cfg"] := File stored_file]> files) [].

(** The environment of a run on these files: the parser reads the metadata
    file as [stored], and nothing in any other text. *)
Definition reading : Env :=
  mkEnv (λ _, None) (λ _ _ _ fs, (0, "abc123", fs)) (λ _, "n")
    (λ text, if decide (text = stored_file) then inr stored
             else inr ConfigParser.new).

(** The metadata of a first run without flags, at commit abc123. *)
Definition first : ConfigParser.t :=
  ConfigParser.mk []
    [("meta", [("template", "pure-python"); ("commit-id", "abc123");
               ("with-pypy", "False"); ("support_legacy_python", "False");
               ("fail-under", "0")])].

(** The environment of a second run: the parser reads the metadata of the
    first one. *)
Definition again : Env :=
  mkEnv (λ _, None) (λ _ _ _ fs, (0, "abc123", fs)) (λ _, "n")
    (λ _, inr first).

(** The metadata of a first run with --with-py27. *)
Definition first_py27 : ConfigParser.t :=
  ConfigParser.mk []
    [("meta", [("template", "pure-python"); ("commit-id", "abc123");
               ("with-pypy", "False"); ("support_legacy_python", "True");
               ("fail-under", "0")])].

(** The metadata file of the first run without flags. *)
Definition first_file : string :=
  META_HINT "pure-python" +:+
  "[meta]" +:+ PyStr.nl +:+
  "template = pure-python" +:+ PyStr.nl +:+
  "commit-id = abc123" +:+ PyStr.nl +:+
  "with-pypy = False" +:+ PyStr.nl +:+
  "support_legacy_python = False" +:+ PyStr.nl +:+
  "fail-under = 0" +:+ PyStr.nl +:+ PyStr.nl.

End Scenario.

(** * Properties *)

(** ** C1: the supported versions *)

Lemma range_lookup (a b : Z) (i : nat) :
  range a b !! i =
    if decide (a + Z.of_nat i < b) then Some (a + Z.of_nat i) else None.
Proof.
  unfold range. case_decide.
  - apply lookup_seqZ_lt. lia.
  - apply lookup_seqZ_ge. lia.
Qed.

Lemma range_length (a b : Z) : length (range a b) = Z.to_nat (b - a).
Proof. apply length_seqZ. Qed.

Lemma range_empty (a b : Z) : b ≤ a → range a b = [].
Proof.
  intros Hle. apply length_zero_iff_nil. rewrite range_length. lia.
Qed.

Example get_supported_versions_36 :
  get_supported_versions
    (Args.mk (Path.mk true ["repo"]) false false pure_python false (3, 6))
  = [(3, 6); (3, 7); (3, 8); (3, 9)].
Proof. reflexivity. Qed.

Example get_supported_versions_38_legacy :
  get_supported_versions
    (Args.mk (Path.mk true ["repo"]) false false pure_python true (3, 8))
  = [(2, 7); (3, 8); (3, 9)].
Proof. reflexivity. Qed.

(** C1.  Whatever the major number of the minimum version, with [m] its
    minor number the versions are the legacy entry (2, 7) when the flag is
    set, and only then, followed by a list of 9 - m + 1 pairs whose k-th is
    (3, m + k): the pairs (3, m), ..., (3, 9) in this order.  Past 9 this
    list is empty, so the legacy entry is then the only one. *)
Theorem get_supported_versions_spec (args : Args.t) :
  let m := (Args.min_version args).2 in
  ∃ minors : list (Z * Z),
    get_supported_versions args =
      (if Args.support_legacy_python args then [(2, 7)] else []) ++ minors ∧
    length minors = Z.to_nat (9 - m + 1) ∧
    (∀ k : Z, m ≤ k ≤ 9 → minors !! Z.to_nat (k - m) = Some (3, k)) ∧
    (9 < m → minors = []).
Proof.
  intros m.
  exists ((λ minor, (3, minor)) <$> range m (MAX_PYTHON.2 + 1)).
  split; [|split; [|split]].
  - unfold get_supported_versions. fold m. by destruct (Args.support_legacy_python args).
  - rewrite length_fmap, range_length. simpl. f_equal. lia.
  - intros k Hk. rewrite list_lookup_fmap, range_lookup. simpl.
    rewrite decide_True by lia. simpl. do 2 f_equal. lia.
  - intros Hm. rewrite range_empty; [done|]. simpl. lia.
Qed.

(** ** The metadata store *)

Section assoc.
Context {V : Type}.
Implicit Types (l : list (string * V)) (k : string) (v : V).

Lemma lookup_assign_eq k v l : ConfigParser.lookup k (ConfigParser.assign k v l) = Some v.
Proof.
  induction l as [|[k' v'] l IH]; simpl.
  - by rewrite decide_True.
  - case_decide; simpl.
    + by rewrite decide_True.
    + by rewrite decide_False.
Qed.

Lemma lookup_assign_ne k k' v l :
  k ≠ k' → ConfigParser.lookup k' (ConfigParser.assign k v l) = ConfigParser.lookup k' l.
Proof.
  intros Hne. induction l as [|[k2 v2] l IH]; simpl.
  - by rewrite decide_False.
  - case_decide; simpl; subst.
    + by rewrite !decide_False.
    + by rewrite IH.
Qed.

Lemma keys_assign k v l :
  ConfigParser.keys (ConfigParser.assign k v l) =
    if decide (k ∈ ConfigParser.keys l) then ConfigParser.keys l else ConfigParser.keys l ++ [k].
Proof.
  unfold ConfigParser.keys. induction l as [|[k2 v2] l IH].
  - case_decide as Hin; [by apply elem_of_nil in Hin|reflexivity].
  - cbn [ConfigParser.assign fmap list_fmap fst]. destruct (decide (k2 = k)) as [->|Hk].
    + cbn [fmap list_fmap fst].
      rewrite decide_True by (apply elem_of_cons; by left). reflexivity.
    + cbn [fmap list_fmap fst]. rewrite IH.
      destruct (decide (k ∈ fst <$> l)) as [Hin|Hin].
      * rewrite decide_True; [done|]. apply elem_of_cons. by right.
      * rewrite decide_False; [done|]. intros [?|?]%elem_of_cons; congruence.
Qed.

Lemma lookup_app k l1 l2 :
  ConfigParser.lookup k (l1 ++ l2) =
    match ConfigParser.lookup k l1 with Some v => Some v | None => ConfigParser.lookup k l2 end.
Proof.
  induction l1 as [|[k' v'] l1 IH]; simpl; [done|]. by case_decide.
Qed.

Lemma lookup_is_Some_keys k l : is_Some (ConfigParser.lookup k l) ↔ k ∈ ConfigParser.keys l.
Proof.
  unfold ConfigParser.keys. induction l as [|[k' v'] l IH]; simpl.
  - split; [by intros [? ?]|]. by intros ?%elem_of_nil.
  - case_decide; subst.
    + split; [|by eauto]. intros _. apply elem_of_cons. by left.
    + rewrite IH. split; [intros; apply elem_of_cons; by right|].
      intros [?|?]%elem_of_cons; [congruence|done].
Qed.
End assoc.

Lemma contains_percent_cons c s :
  PyStr.contains "%" (String c s) =
    bool_decide (c = "%"%char) || PyStr.contains "%" s.
Proof.
  cbn [PyStr.contains String.prefix].
  destruct (Ascii.ascii_dec "%" c) as [<-|Hne].
  - rewrite bool_decide_true by done. by destruct s.
  - rewrite bool_decide_false by congruence. done.
Qed.

Lemma interpolate_loop_plain recur map s fuel :
  PyStr.contains "%" s = false → (String.length s ≤ fuel)%nat →
  ConfigParser.interpolate_loop recur map fuel s = inr s.
Proof.
  revert fuel. induction s as [|c s IH]; intros fuel Hs Hfuel.
  - by destruct fuel.
  - rewrite contains_percent_cons in Hs. apply orb_false_iff in Hs as [Hc Hs].
    apply bool_decide_eq_false in Hc.
    destruct fuel as [|fuel]; [simpl in Hfuel; lia|].
    cbn [ConfigParser.interpolate_loop]. rewrite decide_False by done.
    rewrite IH; [done|done|simpl in Hfuel; lia].
Qed.

Lemma before_get_plain map v :
  PyStr.contains "%" v = false → ConfigParser.before_get map v = inr v.
Proof.
  intros Hv. unfold ConfigParser.before_get, ConfigParser.MAX_INTERPOLATION_DEPTH.
  cbn [ConfigParser.interpolate_some]. by apply interpolate_loop_plain.
Qed.

Lemma lower_char_percent c :
  bool_decide (PyStr.lower_char c = "%"%char) = bool_decide (c = "%"%char).
Proof.
  destruct c as [[] [] [] [] [] [] [] []]; vm_compute; reflexivity.
Qed.

Lemma contains_percent_lower s :
  PyStr.contains "%" (PyStr.lower s) = PyStr.contains "%" s.
Proof.
  induction s as [|c s IH]; [done|].
  cbn [PyStr.lower]. rewrite !contains_percent_cons, IH.
  by rewrite lower_char_percent.
Qed.

Lemma convert_to_boolean_plain v b :
  ConfigParser.convert_to_boolean v = inr b → PyStr.contains "%" v = false.
Proof.
  unfold ConfigParser.convert_to_boolean. rewrite <- contains_percent_lower.
  generalize (PyStr.lower v). intros s.
  unfold ConfigParser.BOOLEAN_STATES. cbn [ConfigParser.lookup].
  repeat (case_decide; [subst; intros _; vm_compute; reflexivity|]).
  discriminate.
Qed.

Lemma before_set_inr v v' : ConfigParser.before_set v = inr v' → v' = v.
Proof. unfold ConfigParser.before_set. case_match; congruence. Qed.

Lemma set_meta_inv k v p p' :
  ConfigParser.set "meta" k v p = inr p' →
  ∃ sec, ConfigParser.lookup "meta" (ConfigParser.sections p) = Some sec ∧
    p' = ConfigParser.mk (ConfigParser.defaults p)
           (ConfigParser.assign "meta"
              (ConfigParser.assign (ConfigParser.optionxform k) v sec)
              (ConfigParser.sections p)).
Proof.
  unfold ConfigParser.set.
  destruct (if decide (v = "") then inr v else ConfigParser.before_set v)
    as [e|v'] eqn:Hv; [discriminate|].
  assert (v' = v) as ->.
  { case_decide; [congruence|]. by apply before_set_inr. }
  change (bool_decide ("meta" = "") ||
          bool_decide ("meta" = ConfigParser.default_section)) with false.
  cbn match. destruct (ConfigParser.lookup "meta" _) as [sec|]; [|discriminate].
  intros [= <-]. eauto.
Qed.

Lemma set_meta_ok k v p sec :
  ConfigParser.lookup "meta" (ConfigParser.sections p) = Some sec →
  PyStr.contains "%" v = false →
  ConfigParser.set "meta" k v p =
    inr (ConfigParser.mk (ConfigParser.defaults p)
           (ConfigParser.assign "meta"
              (ConfigParser.assign (ConfigParser.optionxform k) v sec)
              (ConfigParser.sections p))).
Proof.
  intros Hsec Hv. unfold ConfigParser.set.
  assert ((if decide (v = "") then inr v else ConfigParser.before_set v)
          = inr v) as ->.
  { case_decide; [done|]. unfold ConfigParser.before_set.
    assert (∀ s, PyStr.contains "%" s = false →
              ConfigParser.drop_escaped s = s) as Hesc.
    { induction s as [|c s IH]; [done|]. rewrite contains_percent_cons.
      intros [Hc Hs]%orb_false_iff. apply bool_decide_eq_false in Hc.
      cbn [ConfigParser.drop_escaped].
      destruct c as [[] [] [] [] [] [] [] []]; try (by rewrite IH);
        destruct s; try done. }
    assert (∀ s n, PyStr.contains "%" s = false →
              ConfigParser.drop_keys n s = s) as Hkeys.
    { induction s as [|c s IH]; intros n; [by destruct n|].
      rewrite contains_percent_cons.
      intros [Hc Hs]%orb_false_iff. apply bool_decide_eq_false in Hc.
      destruct n as [|n]; [done|]. cbn [ConfigParser.drop_keys].
      assert (ConfigParser.match_key (String c s) = None) as ->.
      { destruct c as [[] [] [] [] [] [] [] []]; done. }
      by rewrite IH. }
    by rewrite Hesc, Hkeys, Hv. }
  change (bool_decide ("meta" = "") ||
          bool_decide ("meta" = ConfigParser.default_section)) with false.
  cbn match. by rewrite Hsec.
Qed.

Lemma meta_items_set k v p p' :
  ConfigParser.set "meta" k v p = inr p' →
  meta_items p' = ConfigParser.assign (ConfigParser.optionxform k) v (meta_items p)
  ∧ ConfigParser.defaults p' = ConfigParser.defaults p
  ∧ is_Some (ConfigParser.lookup "meta" (ConfigParser.sections p)).
Proof.
  intros (sec & Hsec & ->)%set_meta_inv. unfold meta_items. simpl.
  by rewrite lookup_assign_eq, Hsec.
Qed.

Lemma getboolean_persisted key p b :
  is_Some (ConfigParser.lookup "meta" (ConfigParser.sections p)) →
  ConfigParser.optionxform key = key →
  persisted key p b →
  ConfigParser.getboolean "meta" key false p = inr b.
Proof.
  intros [sec Hsec] Hkey. unfold persisted, meta_items.
  unfold ConfigParser.getboolean, ConfigParser.get, ConfigParser.unify_values.
  rewrite Hsec, Hkey. simpl.
  destruct (ConfigParser.lookup key _) as [v|]; [|by intros ->].
  intros Hv. by rewrite (before_get_plain _ _ (convert_to_boolean_plain _ _ Hv)).
Qed.

Lemma persisted_set key k v p p' b :
  ConfigParser.optionxform k ≠ key →
  ConfigParser.set "meta" k v p = inr p' →
  persisted key p b → persisted key p' b.
Proof.
  intros Hne (Hitems & Hdef & _)%meta_items_set. unfold persisted.
  by rewrite Hitems, Hdef, !lookup_app, lookup_assign_ne.
Qed.

Lemma persisted_set_eq key b p p' :
  ConfigParser.optionxform key = key →
  ConfigParser.set "meta" key (PyStr.str_bool b) p = inr p' →
  persisted key p' b.
Proof.
  intros Hkey (Hitems & Hdef & _)%meta_items_set. unfold persisted.
  rewrite Hitems, Hkey, lookup_app, lookup_assign_eq. by destruct b.
Qed.

Lemma persisted_setdefault key k v p r p' b :
  ConfigParser.optionxform k ≠ key →
  ConfigParser.setdefault "meta" k v p = inr (r, p') →
  persisted key p b → persisted key p' b.
Proof.
  intros Hne. unfold ConfigParser.setdefault. case_match.
  - destruct (ConfigParser.get _ _ _); [discriminate|]. by intros [= _ <-].
  - destruct (ConfigParser.set _ _ _ _) as [|p''] eqn:Hset; [discriminate|].
    intros [= _ <-]. by eapply persisted_set.
Qed.

(** Undo the binds of a computation that returned. *)
Ltac inv_result H :=
  repeat match type of H with
    | mbind _ ?r = inr _ =>
        let E := fresh "E" in
        destruct r as [?|?] eqn:E; [discriminate H|]; cbn [mbind result_bind] in H
    | (let '(_, _) := ?r in _) = inr _ => destruct r
    end.

Lemma resolve_flags_inv args commit_id p p' with_pypy legacy :
  resolve_flags args commit_id p = inr (p', with_pypy, legacy) →
  ∃ p1 p2 b1 b2,
    ConfigParser.set "meta" "commit-id" commit_id p = inr p1 ∧
    ConfigParser.getboolean "meta" "with-pypy" false p1 = inr b1 ∧
    with_pypy = b1 || Args.with_pypy args ∧
    ConfigParser.set "meta" "with-pypy" (PyStr.str_bool with_pypy) p1 = inr p2 ∧
    ConfigParser.getboolean "meta" "support_legacy_python" false p2 = inr b2 ∧
    legacy = b2 || Args.support_legacy_python args ∧
    ConfigParser.set "meta" "support_legacy_python" (PyStr.str_bool legacy) p2
      = inr p'.
Proof.
  unfold resolve_flags. intros H. inv_result H.
  cbn [mret result_ret] in H. injection H as <- <- <-. eauto 12.
Qed.

Lemma meta_run_inv args config_type commit_id p p' with_pypy legacy :
  meta_run args config_type commit_id p = inr (p', with_pypy, legacy) →
  ∃ p0 p1 fail_under,
    ConfigParser.set "meta" "template" config_type p = inr p0 ∧
    resolve_flags args commit_id p0 = inr (p1, with_pypy, legacy) ∧
    ConfigParser.setdefault "meta" "fail-under" "0" p1 = inr (fail_under, p').
Proof.
  unfold meta_run. intros H.
  destruct (ConfigParser.set _ _ _ _) as [|p0] eqn:E0; [discriminate|].
  cbn [mbind result_bind] in H.
  destruct (resolve_flags _ _ _) as [|[[p1 wp] lg]] eqn:E1; [discriminate|].
  cbn [mbind result_bind] in H.
  destruct (ConfigParser.setdefault _ _ _ _) as [|[fu p2]] eqn:E2;
    [discriminate|].
  cbn [mbind result_bind mret result_ret] in H. injection H as <- <- <-.
  by exists p0, p1, fu.
Qed.

Lemma meta_run_flags args config_type commit_id p p' with_pypy legacy :
  meta_run args config_type commit_id p = inr (p', with_pypy, legacy) →
  (∀ b, persisted "with-pypy" p b → with_pypy = b || Args.with_pypy args) ∧
  (∀ b, persisted "support_legacy_python" p b →
        legacy = b || Args.support_legacy_python args) ∧
  persisted "with-pypy" p' with_pypy ∧
  persisted "support_legacy_python" p' legacy.
Proof.
  intros (p0 & p3 & fu & H0 & Hflags & Hdef)%meta_run_inv.
  apply resolve_flags_inv in Hflags
    as (p1 & p2 & b1 & b2 & H1 & Hb1 & -> & H2 & Hb2 & -> & H3).
  pose proof (meta_items_set _ _ _ _ H2) as (_ & _ & Hsec1).
  pose proof (meta_items_set _ _ _ _ H3) as (_ & _ & Hsec2).
  split; [|split; [|split]].
  - intros b Hb.
    apply (persisted_set "with-pypy" "template" _ _ _ _ ltac:(done) H0) in Hb.
    apply (persisted_set "with-pypy" "commit-id" _ _ _ _ ltac:(done) H1) in Hb.
    rewrite (getboolean_persisted _ _ _ Hsec1 eq_refl Hb) in Hb1. congruence.
  - intros b Hb.
    apply (persisted_set "support_legacy_python" "template" _ _ _ _
             ltac:(done) H0) in Hb.
    apply (persisted_set "support_legacy_python" "commit-id" _ _ _ _
             ltac:(done) H1) in Hb.
    apply (persisted_set "support_legacy_python" "with-pypy" _ _ _ _
             ltac:(done) H2) in Hb.
    rewrite (getboolean_persisted _ _ _ Hsec2 eq_refl Hb) in Hb2. congruence.
  - apply (persisted_setdefault "with-pypy" "fail-under" _ _ _ _ _
             ltac:(done) Hdef).
    apply (persisted_set "with-pypy" "support_legacy_python" _ _ _ _
             ltac:(done) H3).
    by apply (persisted_set_eq "with-pypy" _ _ _ eq_refl H2).
  - apply (persisted_setdefault "support_legacy_python" "fail-under" _ _ _ _ _
             ltac:(done) Hdef).
    by apply (persisted_set_eq "support_legacy_python" _ _ _ eq_refl H3).
Qed.

Lemma assign_absent {V} k (v : V) l :
  ConfigParser.lookup k l = None → ConfigParser.assign k v l = l ++ [(k, v)].
Proof.
  induction l as [|[k' v'] l IH]; simpl; [done|].
  case_decide; [done|]. intros Hl. by rewrite IH.
Qed.

Lemma has_option_meta key p sec :
  ConfigParser.lookup "meta" (ConfigParser.sections p) = Some sec →
  ConfigParser.optionxform key = key →
  ConfigParser.has_option "meta" key p =
    bool_decide (is_Some (ConfigParser.lookup key (sec ++ ConfigParser.defaults p))).
Proof.
  intros Hsec Hkey. unfold ConfigParser.has_option.
  change (bool_decide ("meta" = "") ||
          bool_decide ("meta" = ConfigParser.default_section)) with false.
  cbn match. rewrite Hsec, Hkey, lookup_app.
  destruct (ConfigParser.lookup key sec) as [v|]; [|done].
  rewrite !bool_decide_true by eauto. done.
Qed.

(** What line 211 does to the metadata. *)
Lemma setdefault_fail_under p sec :
  ConfigParser.lookup "meta" (ConfigParser.sections p) = Some sec →
  ConfigParser.setdefault "meta" "fail-under" "0" p =
    match ConfigParser.lookup "fail-under" (sec ++ ConfigParser.defaults p) with
    | Some v =>
        v' ← ConfigParser.before_get (sec ++ ConfigParser.defaults p) v;
        mret (v', p)
    | None =>
        inr ("0", ConfigParser.mk (ConfigParser.defaults p)
                    (ConfigParser.assign "meta" (sec ++ [("fail-under", "0")])
                       (ConfigParser.sections p)))
    end.
Proof.
  intros Hsec. unfold ConfigParser.setdefault.
  rewrite (has_option_meta _ _ _ Hsec eq_refl).
  destruct (ConfigParser.lookup "fail-under" (sec ++ _)) as [v|] eqn:Hv.
  - rewrite bool_decide_true by eauto.
    unfold ConfigParser.get, ConfigParser.unify_values. rewrite Hsec.
    change (ConfigParser.optionxform "fail-under") with "fail-under".
    rewrite Hv. by destruct (ConfigParser.before_get _ _).
  - rewrite bool_decide_false by (by intros [? ?]).
    rewrite (set_meta_ok "fail-under" "0" _ _ Hsec eq_refl).
    change (ConfigParser.optionxform "fail-under") with "fail-under".
    rewrite (assign_absent "fail-under" "0" sec); [done|].
    rewrite lookup_app in Hv. by destruct (ConfigParser.lookup _ sec).
Qed.

Lemma lookup_meta_items_set key k v p p' :
  ConfigParser.optionxform k ≠ key →
  ConfigParser.set "meta" k v p = inr p' →
  ConfigParser.lookup key (meta_items p') = ConfigParser.lookup key (meta_items p)
  ∧ ConfigParser.defaults p' = ConfigParser.defaults p.
Proof.
  intros Hne (Hitems & Hdef & _)%meta_items_set.
  by rewrite Hitems, lookup_assign_ne.
Qed.

(** What lines 157-164 and 211 make of the threshold: when the metadata
    hold a value for fail-under, in the section meta or in the defaults,
    the section's own option and the defaults stay as they are; when they
    hold none, the section gets the text 0. *)
Lemma meta_run_fail_under args config_type commit_id meta_cfg meta_cfg'
    with_pypy support_legacy_python :
  meta_run args config_type commit_id meta_cfg
    = inr (meta_cfg', with_pypy, support_legacy_python) →
  match ConfigParser.lookup "fail-under"
          (meta_items meta_cfg ++ ConfigParser.defaults meta_cfg) with
  | Some _ =>
      ConfigParser.lookup "fail-under" (meta_items meta_cfg') =
        ConfigParser.lookup "fail-under" (meta_items meta_cfg) ∧
      ConfigParser.defaults meta_cfg' = ConfigParser.defaults meta_cfg
  | None =>
      ConfigParser.lookup "fail-under" (meta_items meta_cfg') = Some "0"
  end.
Proof.
  intros (p0 & p3 & fu & H0 & Hflags & Hdef)%meta_run_inv.
  apply resolve_flags_inv in Hflags
    as (p1 & p2 & b1 & b2 & H1 & _ & -> & H2 & _ & -> & H3).
  pose proof (lookup_meta_items_set "fail-under" "template" _ _ _ ltac:(done) H0)
    as [L0 D0].
  pose proof (lookup_meta_items_set "fail-under" "commit-id" _ _ _ ltac:(done) H1)
    as [L1 D1].
  pose proof (lookup_meta_items_set "fail-under" "with-pypy" _ _ _ ltac:(done) H2)
    as [L2 D2].
  pose proof (lookup_meta_items_set "fail-under" "support_legacy_python" _ _ _ ltac:(done) H3)
    as [L3 D3].
  assert (ConfigParser.lookup "fail-under" (meta_items p3) =
          ConfigParser.lookup "fail-under" (meta_items meta_cfg)) as L
    by congruence.
  assert (ConfigParser.defaults p3 = ConfigParser.defaults meta_cfg) as D
    by congruence.
  clear L0 L1 L2 L3 D0 D1 D2 D3.
  pose proof (meta_items_set _ _ _ _ H3) as (Hitems & _ & _).
  unfold meta_items in Hitems at 1.
  destruct (ConfigParser.lookup "meta" (ConfigParser.sections p3))
    as [sec|] eqn:Hsec.
  2: { apply set_meta_inv in H3 as (? & _ & ->). simpl in Hsec.
       by rewrite lookup_assign_eq in Hsec. }
  assert (meta_items p3 = sec) as Hsec' by (unfold meta_items; by rewrite Hsec).
  rewrite (setdefault_fail_under _ _ Hsec) in Hdef.
  rewrite lookup_app, <- L, <- D, Hsec', <- lookup_app.
  destruct (ConfigParser.lookup "fail-under" (sec ++ _)) as [v|] eqn:Hv.
  - destruct (ConfigParser.before_get _ _); [discriminate|].
    cbn in Hdef. injection Hdef as _ <-. by rewrite Hsec'.
  - injection Hdef as _ <-. unfold meta_items. simpl.
    rewrite lookup_assign_eq. simpl. rewrite lookup_app.
    rewrite lookup_app in Hv. destruct (ConfigParser.lookup _ sec); [done|].
    reflexivity.
Qed.

(** ** The options of the metadata *)

Lemma config_type_str_plain c : PyStr.contains "%" (config_type_str c) = false.
Proof. by destruct c. Qed.

Lemma str_bool_plain b : PyStr.contains "%" (PyStr.str_bool b) = false.
Proof. by destruct b. Qed.

(** The metadata a run leaves for a repository that had none. *)
Lemma meta_run_fresh args commit_id p' with_pypy legacy :
  meta_run args (config_type_str (Args.type args)) commit_id fresh_meta
    = inr (p', with_pypy, legacy) →
  with_pypy = Args.with_pypy args ∧
  legacy = Args.support_legacy_python args ∧
  p' = ConfigParser.mk []
         [("meta", [("template", config_type_str (Args.type args));
                    ("commit-id", commit_id);
                    ("with-pypy", PyStr.str_bool with_pypy);
                    ("support_legacy_python", PyStr.str_bool legacy);
                    ("fail-under", "0")])].
Proof.
  pose proof (config_type_str_plain (Args.type args)) as Hct. revert Hct.
  generalize (config_type_str (Args.type args)) as ct. intros ct Hct.
  intros (p0 & p3 & fu & H0 & Hflags & Hdef)%meta_run_inv.
  apply resolve_flags_inv in Hflags
    as (p1 & p2 & b1 & b2 & H1 & Hb1 & -> & H2 & Hb2 & -> & H3).
  rewrite (set_meta_ok "template" ct fresh_meta [] eq_refl Hct) in H0.
  injection H0 as <-.
  apply set_meta_inv in H1 as (sec1 & Hsec1 & ->).
  vm_compute in Hsec1. injection Hsec1 as <-.
  vm_compute in Hb1. injection Hb1 as <-.
  apply set_meta_inv in H2 as (sec2 & Hsec2 & ->).
  vm_compute in Hsec2. injection Hsec2 as <-.
  vm_compute in Hb2. injection Hb2 as <-.
  apply set_meta_inv in H3 as (sec3 & Hsec3 & ->).
  vm_compute in Hsec3. injection Hsec3 as <-.
  vm_compute in Hdef. injection Hdef as _ <-. done.
Qed.

Lemma elem_of_keys_assign {V} k k' (v : V) l :
  k' ∈ ConfigParser.keys (ConfigParser.assign k v l) ↔
  k' = k ∨ k' ∈ ConfigParser.keys l.
Proof.
  rewrite keys_assign. case_decide as Hin.
  - split; [by right|]. by intros [->|].
  - rewrite elem_of_app, list_elem_of_singleton. tauto.
Qed.

Lemma keys_sections_set k v p p' :
  ConfigParser.set "meta" k v p = inr p' →
  ConfigParser.keys (ConfigParser.sections p') =
    ConfigParser.keys (ConfigParser.sections p).
Proof.
  intros (sec & Hsec & ->)%set_meta_inv. simpl.
  rewrite keys_assign, decide_True; [done|].
  apply lookup_is_Some_keys. eauto.
Qed.

Lemma elem_of_keys_set k' k v p p' :
  ConfigParser.set "meta" k v p = inr p' →
  k' ∈ ConfigParser.keys (meta_items p') ↔
  k' = ConfigParser.optionxform k ∨ k' ∈ ConfigParser.keys (meta_items p).
Proof.
  intros (-> & _ & _)%meta_items_set. apply elem_of_keys_assign.
Qed.

(** The sections and options of the metadata that lines 157-164 and 211
    leave: for the store of a repository without metadata file, the single
    section meta with the five options, in their order; for any store, the
    sections it had, the options meta had and, besides, options among the
    five. *)
Lemma meta_run_keys args commit_id meta_cfg meta_cfg' with_pypy legacy :
  meta_run args (config_type_str (Args.type args)) commit_id meta_cfg
    = inr (meta_cfg', with_pypy, legacy) →
  (meta_cfg = fresh_meta →
     ConfigParser.defaults meta_cfg' = [] ∧
     ConfigParser.keys (ConfigParser.sections meta_cfg') = ["meta"] ∧
     ConfigParser.keys (meta_items meta_cfg') = written_keys) ∧
  ConfigParser.keys (ConfigParser.sections meta_cfg') =
    ConfigParser.keys (ConfigParser.sections meta_cfg) ∧
  (∀ k, k ∈ ConfigParser.keys (meta_items meta_cfg) →
        k ∈ ConfigParser.keys (meta_items meta_cfg')) ∧
  (∀ k, k ∈ ConfigParser.keys (meta_items meta_cfg') →
        k ∈ ConfigParser.keys (meta_items meta_cfg) ∨ k ∈ written_keys) ∧
  (∀ k, k ∈ written_keys →
        k ∈ ConfigParser.keys
              (meta_items meta_cfg' ++ ConfigParser.defaults meta_cfg')).
Proof.
  intros Hrun. split.
  { intros ->. by apply meta_run_fresh in Hrun as (_ & _ & ->). }
  apply meta_run_inv in Hrun as (p0 & p3 & fu & H0 & Hflags & Hdef).
  apply resolve_flags_inv in Hflags
    as (p1 & p2 & b1 & b2 & H1 & _ & -> & H2 & _ & -> & H3).
  pose proof (meta_items_set _ _ _ _ H3) as (_ & _ & Hsec).
  assert (∃ sec, ConfigParser.lookup "meta" (ConfigParser.sections p3)
                 = Some sec) as [sec Hsec3].
  { apply set_meta_inv in H3 as (? & _ & ->). simpl.
    rewrite lookup_assign_eq. eauto. }
  assert (meta_items p3 = sec) as Hitems3
    by (unfold meta_items; by rewrite Hsec3).
  rewrite (setdefault_fail_under _ _ Hsec3) in Hdef.
  pose proof (elem_of_keys_set) as K.
  assert (∀ k, k ∈ ConfigParser.keys (meta_items p3) ↔
               k ∈ ["template"; "commit-id"; "with-pypy";
                    "support_legacy_python"]
               ∨ k ∈ ConfigParser.keys (meta_items meta_cfg)) as K3.
  { intros k. rewrite (K _ _ _ _ _ H3), (K _ _ _ _ _ H2), (K _ _ _ _ _ H1),
      (K _ _ _ _ _ H0).
    change (ConfigParser.optionxform "support_legacy_python")
      with "support_legacy_python".
    change (ConfigParser.optionxform "with-pypy") with "with-pypy".
    change (ConfigParser.optionxform "commit-id") with "commit-id".
    change (ConfigParser.optionxform "template") with "template".
    rewrite !elem_of_cons, elem_of_nil. tauto. }
  assert (ConfigParser.keys (ConfigParser.sections p3) =
          ConfigParser.keys (ConfigParser.sections meta_cfg)) as S3.
  { rewrite (keys_sections_set _ _ _ _ H3), (keys_sections_set _ _ _ _ H2),
      (keys_sections_set _ _ _ _ H1). apply (keys_sections_set _ _ _ _ H0). }
  unfold written_keys.
  destruct (ConfigParser.lookup "fail-under" (sec ++ _)) as [v|] eqn:Hv.
  - destruct (ConfigParser.before_get _ _); [discriminate|].
    cbn in Hdef. injection Hdef as _ <-.
    split; [done|]. split; [|split].
    + intros k Hk. apply K3. by right.
    + intros k [Hk| Hk]%K3; [right|by left].
      rewrite !elem_of_cons, elem_of_nil in Hk.
      rewrite !elem_of_cons. tauto.
    + intros k Hk. unfold ConfigParser.keys. rewrite fmap_app, elem_of_app.
      rewrite !elem_of_cons, elem_of_nil in Hk.
      destruct Hk as [Hk|[Hk|[Hk|[Hk|[Hk|[]]]]]]; subst k;
        try (left; apply K3; left; rewrite !elem_of_cons; tauto).
      apply elem_of_app. rewrite <- fmap_app.
      apply (lookup_is_Some_keys "fail-under"). rewrite Hitems3. eauto.
  - injection Hdef as _ <-. simpl.
    assert (meta_items
              {| ConfigParser.defaults := ConfigParser.defaults p3;
                 ConfigParser.sections :=
                   ConfigParser.assign "meta" (sec ++ [("fail-under", "0")])
                     (ConfigParser.sections p3) |}
            = sec ++ [("fail-under", "0")]) as ->.
    { unfold meta_items. simpl. by rewrite lookup_assign_eq. }
    rewrite <- Hitems3.
    split; [|split; [|split]].
    + rewrite keys_assign, decide_True; [done|].
      apply lookup_is_Some_keys. eauto.
    + intros k Hk. unfold ConfigParser.keys. rewrite fmap_app, elem_of_app.
      left. apply K3. by right.
    + intros k. unfold ConfigParser.keys at 1. rewrite fmap_app, elem_of_app.
      intros [[Hk|Hk]%K3|Hk]; [right|by left|right].
      * rewrite !elem_of_cons, elem_of_nil in Hk. rewrite !elem_of_cons. tauto.
      * simpl in Hk. apply list_elem_of_singleton in Hk as ->.
        rewrite !elem_of_cons. tauto.
    + intros k Hk. unfold ConfigParser.keys. rewrite !fmap_app, !elem_of_app.
      left. rewrite !elem_of_cons, elem_of_nil in Hk.
      destruct Hk as [Hk|[Hk|[Hk|[Hk|[Hk|[]]]]]]; subst k;
        try (left; apply K3; left; rewrite !elem_of_cons; tauto).
      right. simpl. apply list_elem_of_singleton. done.
Qed.

(** ** Running programs *)

Section exec.
Context (env : Env).

Lemma exec_bind {A B} (m : Prog A) (f : A → Prog B) (w : World) :
  exec env (m ≫= f) w =
    match exec env m w with
    | (inr a, w1) => exec env (f a) w1
    | (inl e, w1) => (inl e, w1)
    end.
Proof.
  unfold mbind, Prog_bind. revert w.
  induction m as [a|e|X o k IH]; intros w; simpl; [done|done|].
  destruct (step env o w) as [r w1]. apply IH.
Qed.

Lemma exec_lift {A} (r : result A) (w : World) : exec env (lift r) w = (r, w).
Proof. by destruct r. Qed.

Lemma exec_perform {X} (o : op X) (w : World) :
  exec env (perform o) w = step env o w.
Proof.
  unfold perform. simpl. destruct (step env o w) as [r w1]. apply exec_lift.
Qed.

Lemma exec_try_finally {A} (body : Prog A) (final : Prog unit) (w : World) :
  exec env (try_finally body final) w =
    let '(r, w1) := exec env body w in
    match exec env final w1 with
    | (inr _, w2) => (r, w2)
    | (inl e, w2) => (inl e, w2)
    end.
Proof.
  revert w. induction body as [a|e|X o k IH]; intros w; simpl.
  - rewrite exec_bind. by destruct (exec env final w) as [[?|?] ?].
  - rewrite exec_bind. by destruct (exec env final w) as [[?|?] ?].
  - destruct (step env o w) as [r w1]. apply IH.
Qed.

Lemma step_log {X} (o : op X) (w : World) :
  w_log (step env o w).2 =
    w_log w ++ [mkEvent (w_cwd w) (action_of o) (reply_of o (step env o w).1)].
Proof.
  unfold step. destruct (env_fault env _) as [e|].
  - destruct o; try done. by destruct e.
  - by destruct (perform_op _ _ _ _ _) as [[? ?] ?].
Qed.

Lemma exec_log {A} (m : Prog A) (w : World) :
  w_log (exec env m w).2 = w_log w ++ new_events w (exec env m w).2.
Proof.
  unfold new_events.
  assert (∃ new, w_log (exec env m w).2 = w_log w ++ new) as [new ->].
  { revert w. induction m as [a|e|X o k IH]; intros w; simpl.
    - exists []. by rewrite app_nil_r.
    - exists []. by rewrite app_nil_r.
    - pose proof (step_log o w) as Hlog.
      destruct (step env o w) as [r w1]. simpl in Hlog.
      destruct (IH r w1) as [new ->]. rewrite Hlog, <- app_assoc. eauto. }
  by rewrite drop_app_length.
Qed.

Lemma new_events_app (w w1 w2 : World) :
  w_log w1 = w_log w ++ new_events w w1 →
  w_log w2 = w_log w1 ++ new_events w1 w2 →
  new_events w w2 = new_events w w1 ++ new_events w1 w2.
Proof.
  intros H1 H2. unfold new_events at 1.
  by rewrite H2, H1, <- app_assoc, drop_app_length.
Qed.

(** The events of a bind: those of the first part, then those of the
    second. *)
Lemma new_events_bind {A B} (m : Prog A) (f : A → Prog B) (w : World) :
  new_events w (exec env (m ≫= f) w).2 =
    new_events w (exec env m w).2 ++
    match exec env m w with
    | (inr a, w1) => new_events w1 (exec env (f a) w1).2
    | (inl _, _) => []
    end.
Proof.
  rewrite exec_bind. pose proof (exec_log m w) as H1.
  destruct (exec env m w) as [[e|a] w1]; simpl in *.
  - by rewrite app_nil_r.
  - apply new_events_app; [done|]. apply exec_log.
Qed.

Lemma new_events_step {X} (o : op X) (w : World) :
  new_events w (step env o w).2 =
    [mkEvent (w_cwd w) (action_of o) (reply_of o (step env o w).1)].
Proof. unfold new_events. by rewrite step_log, drop_app_length. Qed.

Lemma new_events_refl (w : World) : new_events w w = [].
Proof. unfold new_events. apply drop_all. Qed.

End exec.

(** *** Calls a program never makes *)

Lemma only_bind P {A B} (m : Prog A) (f : A → Prog B) :
  only P m → (∀ a, only P (f a)) → only P (m ≫= f).
Proof.
  intros Hm Hf. unfold mbind, Prog_bind.
  induction Hm as [a|e|X o k Ho Hk IH]; simpl; [done|constructor|].
  constructor; [done|]. intros r. apply IH.
Qed.

Lemma only_lift P {A} (r : result A) : only P (lift r).
Proof. destruct r; constructor. Qed.

Lemma only_perform P {X} (o : op X) : P (action_of o) → only P (perform o).
Proof. intros Ho. constructor; [done|]. intros r. apply only_lift. Qed.

Lemma only_try_finally P {A} (body : Prog A) (final : Prog unit) :
  only P body → only P final → only P (try_finally body final).
Proof.
  intros Hb Hf. induction Hb as [a|e|X o k Ho Hk IH]; simpl.
  - apply only_bind; [done|]. intros _. constructor.
  - apply only_bind; [done|]. intros _. constructor.
  - constructor; [done|]. intros r. apply IH.
Qed.

Lemma only_mono (P Q : action → Prop) {A} (m : Prog A) :
  (∀ a, P a → Q a) → only P m → only Q m.
Proof.
  intros HPQ Hm. induction Hm; constructor; auto.
Qed.

(** *** The runs of a program, whatever the environment *)

Lemma step_possible env {X} (o : op X) (w : World) :
  possible (w_cwd w) o (step env o w).1.
Proof.
  unfold step. destruct (env_fault env _) as [e|].
  - destruct o; try done; by destruct e.
  - destruct o; try done; simpl; repeat case_match; by simplify_eq.
Qed.

Lemma step_next_cwd env {X} (o : op X) (w : World) :
  w_cwd (step env o w).2 =
    next_cwd (w_cwd w) (action_of o) (reply_of o (step env o w).1).
Proof.
  unfold step. destruct (env_fault env _) as [e|].
  - destruct o; try done. by destruct e.
  - destruct o; try done; simpl; repeat case_match; by simplify_eq.
Qed.

(** Every run is a trace. *)
Lemma exec_trace env {A} (m : Prog A) (w : World) :
  trace m (w_cwd w) (exec env m w).1 (new_events w (exec env m w).2)
    (w_cwd (exec env m w).2).
Proof.
  revert w. induction m as [a|e|X o k IH]; intros w; simpl.
  - by rewrite new_events_refl.
  - by rewrite new_events_refl.
  - pose proof (step_log env o w) as Hlog.
    pose proof (step_next_cwd env o w) as Hcwd.
    pose proof (step_possible env o w) as Hposs.
    destruct (step env o w) as [r w1] eqn:Hstep. simpl in *.
    exists r, (new_events w1 (exec env (k r) w1).2). split; [done|]. split.
    + rewrite (new_events_app w w1).
      * unfold new_events at 1. by rewrite Hlog, drop_app_length.
      * unfold new_events. by rewrite Hlog, drop_app_length.
      * apply exec_log.
    + rewrite <- Hcwd. apply IH.
Qed.

Lemma trace_bind {A B} (m : Prog A) (f : A → Prog B) cwd out evs cwd' :
  trace (m ≫= f) cwd out evs cwd' ↔
  (∃ e, out = inl e ∧ trace m cwd (inl e) evs cwd') ∨
  (∃ a evs1 evs2 cwd1,
     evs = evs1 ++ evs2 ∧ trace m cwd (inr a) evs1 cwd1 ∧
     trace (f a) cwd1 out evs2 cwd').
Proof.
  unfold mbind, Prog_bind. revert cwd evs.
  induction m as [a|e|X o k IH]; intros cwd evs; simpl.
  - split.
    + intros H. right. by exists a, [], evs, cwd.
    + intros [(e & _ & Hx & _)
             |(a' & evs1 & evs2 & cwd1 & -> & (Hx & -> & ->) & Hf)];
        [discriminate|]. by injection Hx as <-.
  - split.
    + intros (-> & -> & ->). left. by exists e.
    + intros [(e' & -> & Hx & -> & ->)
             |(a' & evs1 & evs2 & cwd1 & _ & (Hx & _) & _)];
        [|discriminate]. by injection Hx as <-.
  - split.
    + intros (r & evs' & Hp & -> & H). apply IH in H
        as [(e & -> & H)|(a & evs1 & evs2 & cwd1 & -> & H1 & H2)].
      * left. exists e. split; [done|]. by exists r, evs'.
      * right. exists a, (mkEvent cwd (action_of o) (reply_of o r) :: evs1),
          evs2, cwd1. split; [done|]. split; [|done]. by exists r, evs1.
    + intros [(e & -> & r & evs' & Hp & -> & H)
             |(a & evs1 & evs2 & cwd1 & -> & (r & evs' & Hp & -> & H1) & H2)].
      * exists r, evs'. do 2 (split; [done|]). apply IH. left. by exists e.
      * exists r, (evs' ++ evs2). do 2 (split; [done|]). apply IH. right.
        by exists a, evs', evs2, cwd1.
Qed.

Lemma trace_lift {A} (r : result A) cwd out evs cwd' :
  trace (lift r) cwd out evs cwd' ↔ out = r ∧ evs = [] ∧ cwd' = cwd.
Proof. by destruct r. Qed.

Lemma trace_perform {X} (o : op X) cwd out evs cwd' :
  trace (perform o) cwd out evs cwd' ↔
  possible cwd o out ∧
  evs = [mkEvent cwd (action_of o) (reply_of o out)] ∧
  cwd' = next_cwd cwd (action_of o) (reply_of o out).
Proof.
  unfold perform. simpl. split.
  - intros (r & evs' & Hp & -> & (-> & -> & ->)%trace_lift). done.
  - intros (Hp & -> & ->). exists out, []. do 2 (split; [done|]).
    by apply trace_lift.
Qed.

Lemma trace_try_finally {A} (body : Prog A) (final : Prog unit)
    cwd out evs cwd' :
  trace (try_finally body final) cwd out evs cwd' ↔
  ∃ out1 evs1 cwd1 out2 evs2,
    evs = evs1 ++ evs2 ∧
    trace body cwd out1 evs1 cwd1 ∧
    trace final cwd1 out2 evs2 cwd' ∧
    out = match out2 with inl e => inl e | inr _ => out1 end.
Proof.
  revert cwd evs. induction body as [a|e|X o k IH]; intros cwd evs; simpl.
  - rewrite trace_bind. split.
    + intros [(e & -> & H)
             |([] & evs1 & evs2 & cwd1 & -> & H1 & (-> & -> & ->))].
      * by exists (inr a), [], cwd, (inl e), evs.
      * exists (inr a), [], cwd, (inr ()), evs1. by rewrite app_nil_r.
    + intros (out1 & evs1 & cwd1 & out2 & evs2 & -> & (-> & -> & ->) & H & ->).
      destruct out2 as [e|[]]; [left; by exists e|right].
      exists (), evs2, [], cwd'. by rewrite app_nil_r.
  - rewrite trace_bind. split.
    + intros [(e' & -> & H)
             |([] & evs1 & evs2 & cwd1 & -> & H1 & (-> & -> & ->))].
      * by exists (inl e), [], cwd, (inl e'), evs.
      * exists (inl e), [], cwd, (inr ()), evs1. by rewrite app_nil_r.
    + intros (out1 & evs1 & cwd1 & out2 & evs2 & -> & (-> & -> & ->) & H & ->).
      destruct out2 as [e'|[]]; [left; by exists e'|right].
      exists (), evs2, [], cwd'. by rewrite app_nil_r.
  - split.
    + intros (r & evs' & Hp & -> & H). apply IH in H
        as (out1 & evs1 & cwd1 & out2 & evs2 & -> & H1 & H2 & ->).
      exists out1, (mkEvent cwd (action_of o) (reply_of o r) :: evs1), cwd1,
        out2, evs2. split; [done|]. split; [|done]. by exists r, evs1.
    + intros (out1 & evs1 & cwd1 & out2 & evs2 & -> & (r & evs' & Hp & -> & H1)
              & H2 & ->).
      exists r, (evs' ++ evs2). do 2 (split; [done|]). apply IH.
      by exists out1, evs', cwd1, out2, evs2.
Qed.

(** The calls of a program that satisfies [only P] satisfy [P]; if none of
    them changes the directory, all run in the directory of the start. *)
Lemma only_trace P {A} (m : Prog A) cwd out evs cwd' :
  only P m → trace m cwd out evs cwd' →
  Forall (λ ev, P (ev_action ev)) evs.
Proof.
  intros Hm. revert cwd evs.
  induction Hm as [a|e|X o k Ho Hk IH]; intros cwd evs; simpl.
  - by intros (_ & -> & _).
  - by intros (_ & -> & _).
  - intros (r & evs' & _ & -> & H). constructor; [done|]. by eapply IH.
Qed.

Lemma only_trace_cwd P {A} (m : Prog A) cwd out evs cwd' :
  (∀ a, P a → is_chdir a = false) →
  only P m → trace m cwd out evs cwd' →
  cwd' = cwd ∧ Forall (λ ev, ev_cwd ev = cwd) evs.
Proof.
  intros HP Hm. revert cwd evs.
  induction Hm as [a|e|X o k Ho Hk IH]; intros cwd evs; simpl.
  - by intros (_ & -> & ->).
  - by intros (_ & -> & ->).
  - intros (r & evs' & _ & -> & H).
    assert (next_cwd cwd (action_of o) (reply_of o r) = cwd) as Hcwd.
    { specialize (HP _ Ho). by destruct (action_of o). }
    rewrite Hcwd in H. apply IH in H as [-> H]. split; [done|].
    by constructor.
Qed.

(** Take the trace of a composed program apart. *)
Ltac trace_inv :=
  repeat
    (match goal with
     | H : trace (_ ≫= _) _ _ _ _ |- _ =>
         apply trace_bind in H as [(? & ? & H)|(? & ? & ? & ? & ? & ? & ?)]
     | H : trace (perform _) _ _ _ _ |- _ =>
         apply trace_perform in H as (? & ? & ?)
     | H : trace (lift _) _ _ _ _ |- _ =>
         apply trace_lift in H as (? & ? & ?)
     | H : trace (mret _) _ _ _ _ |- _ => destruct H as (? & ? & ?)
     | H : trace (Ret _) _ _ _ _ |- _ => destruct H as (? & ? & ?)
     | H : trace (Throw _) _ _ _ _ |- _ => destruct H as (? & ? & ?)
     | H : trace (if ?c then _ else _) _ _ _ _ |- _ => destruct c eqn:?
     end; simplify_eq).

(** *** [call] *)

Lemma call_trace args cap cwd out evs cwd' :
  trace (call args cap) cwd out evs cwd' →
  call_outcome cwd args cap out evs ∧ cwd' = cwd.
Proof.
  unfold call, print. intros H. trace_inv.
  all: try (split; [|done]).
  all: try match goal with a : (Z * string)%type |- _ => destruct a end.
  all: simpl in *.
  all: try by constructor.
  - apply call_overridden; [done|]. by apply dec_stable.
  - assert (z = 0) as -> by lia. constructor.
Qed.

(** *** Kinds of calls *)

Lemma name_div p s : Path.name (p // s) = s.
Proof. unfold Path.name, Path.div. simpl. by rewrite last_snoc. Qed.

Arguments Path.name : simpl never.
Arguments Path.div : simpl never.

(** Prove [only P m] along the structure of [m]. *)
Ltac solve_only :=
  repeat
    (first
       [ apply only_Ret
       | apply only_Throw
       | apply only_lift
       | apply only_perform
       | apply only_bind; [|intros]
       | apply only_try_finally
       | match goal with
         | |- only _ (mret _) => apply only_Ret
         | |- only _ (if ?c then _ else _) => destruct c
         | |- only _ (match ?x with _ => _ end) => destruct x
         end ]);
  try (unfold preparing; cbn; rewrite ?name_div; reflexivity).

Section only_script.
Context (str_format : string → list (string * string) → result string).
Context (percent_format : string → list (string * pyval) → result string).
Context (here : Path.t).

Lemma only_call (P : action → Prop) args cap :
  P (ASubprocessRun args cap) → P (APrint ABORTING) → P (APrint PROCEED) →
  P AInput → only P (call args cap).
Proof. intros. unfold call, print. solve_only; assumption. Qed.

Lemma only_copy_with_meta (P : action → Prop) source destination ct kw :
  P (AReadText source) → P (AOpenWrite destination) →
  (∀ data, P (AWrite destination data)) →
  only P (copy_with_meta str_format source destination ct kw).
Proof.
  intros. unfold copy_with_meta. solve_only; try assumption.
  all: cbn [action_of]; auto.
Qed.

Lemma prepare_preparing args :
  only (λ a, preparing a = true) (prepare str_format percent_format here args).
Proof.
  unfold prepare, register_package, read_meta, copy_templates,
    write_setup_cfg, write_tox_ini, write_tests_yml, print.
  solve_only.
  all: try (apply only_call; reflexivity).
  all: try (apply only_copy_with_meta; intros; unfold preparing; cbn;
            rewrite ?name_div; reflexivity).
Qed.

End only_script.

(** *** The work inside the repository *)

Ltac solve_kind :=
  unfold preparing, before_tests, after_meta; cbn; rewrite ?name_div;
  reflexivity.

Section repository.
Context (str_format : string → list (string * string) → result string).
Context (percent_format : string → list (string * pyval) → result string).
Context (here : Path.t).

Lemma remove_legacy_files_before_tests :
  only (λ a, before_tests a = true) remove_legacy_files.
Proof.
  unfold remove_legacy_files. solve_only.
  all: try (apply only_call; reflexivity).
Qed.

Lemma write_meta_cfg_meta_write config_type meta_cfg :
  only (meta_write config_type meta_cfg) (write_meta_cfg config_type meta_cfg).
Proof.
  unfold write_meta_cfg. solve_only; unfold meta_write; cbn; auto.
Qed.

Lemma commit_and_push_after_meta args config_type branch_name add rm :
  only (λ a, after_meta a = true)
    (commit_and_push args config_type branch_name add rm).
Proof.
  unfold commit_and_push, print. solve_only.
  all: try (apply only_call; reflexivity).
  all: try solve_kind.
Qed.

(** The calls of the work inside the repository, in their order: those
    before the tests, the call of the test runner and, if it returns, the
    writes of the metadata file followed by the calls of git. *)
Lemma in_repository_trace args config_type branch_name cwd0 meta_cfg add rm
    cwd out evs cwd' :
  trace (in_repository args config_type branch_name cwd0 meta_cfg add rm)
    cwd out evs cwd' →
  ∃ pre rest,
    evs = pre ++ rest ∧
    Forall (λ ev, before_tests (ev_action ev) = true) pre ∧
    ((∃ e, out = inl e ∧ rest = []) ∨
     ∃ c tests evs_tests post,
       rest = evs_tests ++ post ∧
       call_outcome c (tox_command cwd0) false tests evs_tests ∧
       match tests with
       | inl e => out = inl e ∧ post = []
       | inr _ =>
           ∃ evs_meta evs_git,
             post = evs_meta ++ evs_git ∧
             Forall (λ ev, meta_write config_type meta_cfg (ev_action ev))
               evs_meta ∧
             Forall (λ ev, after_meta (ev_action ev) = true) evs_git
       end).
Proof.
  unfold in_repository. intros H.
  apply trace_bind in H as [(e & -> & H)|([] & evs1 & evs2 & cwd1 & -> & H1 & H)].
  { exists evs, []. rewrite app_nil_r. split; [done|]. split; [|left; eauto].
    eapply (only_trace (λ a, before_tests a = true)); [|done].
    by apply only_perform. }
  apply (only_trace (λ a, before_tests a = true)) in H1;
    [|by apply only_perform].
  apply trace_bind in H as [(e & -> & H)|([] & evs3 & evs4 & cwd2 & -> & H2 & H)].
  { exists (evs1 ++ evs2), []. rewrite app_nil_r. split; [done|].
    split; [|left; eauto]. apply Forall_app. split; [done|].
    eapply (only_trace (λ a, before_tests a = true));
      [apply remove_legacy_files_before_tests|done]. }
  apply (only_trace (λ a, before_tests a = true) _ _ _ _ _
           remove_legacy_files_before_tests) in H2.
  exists (evs1 ++ evs3), evs4. split; [by rewrite app_assoc|].
  split; [by apply Forall_app|]. right.
  apply trace_bind in H as [(e & -> & H)|(r & evs5 & evs6 & cwd3 & -> & H3 & H)].
  { apply call_trace in H as [H _]. exists cwd2, (inl e), evs4, [].
    by rewrite app_nil_r. }
  apply call_trace in H3 as [H3 ->].
  exists cwd2, (inr r), evs5, evs6. do 2 (split; [done|]).
  apply trace_bind in H as [(e & -> & H)|([] & evs7 & evs8 & cwd4 & -> & H4 & H)].
  { exists evs6, []. rewrite app_nil_r. split; [done|]. split; [|done].
    eapply (only_trace (meta_write config_type meta_cfg));
      [apply write_meta_cfg_meta_write|done]. }
  exists evs7, evs8. split; [done|]. split.
  - eapply (only_trace (meta_write config_type meta_cfg));
      [apply write_meta_cfg_meta_write|done].
  - eapply (only_trace (λ a, after_meta a = true));
      [apply commit_and_push_after_meta|done].
Qed.

(** The runs of the script: the preparation, then [os.getcwd()], the work
    inside the repository and the return to the directory of the start. *)
Lemma main_trace args cwd out evs cwd' :
  trace (main str_format percent_format here args) cwd out evs cwd' →
  ∃ evs_prepare rest,
    evs = evs_prepare ++ rest ∧
    Forall (λ ev, preparing (ev_action ev) = true ∧ ev_cwd ev = cwd)
      evs_prepare ∧
    ((∃ e, out = inl e ∧ rest = [] ∧ cwd' = cwd) ∨
     (∃ e, out = inl e ∧ rest = [mkEvent cwd AGetCwd (inl e)] ∧ cwd' = cwd) ∨
     ∃ meta_cfg add rm out1 evs1 cwd1 reply,
       trace (prepare str_format percent_format here args) cwd
         (inr (meta_cfg, add, rm)) evs_prepare cwd ∧
       rest = mkEvent cwd AGetCwd (inr (VPath (Path.mk true cwd))) :: evs1 ++
              [mkEvent cwd1 (AChDir (Path.mk true cwd)) reply] ∧
       trace (in_repository args (config_type_str (Args.type args))
                ("config-with-" +:+ config_type_str (Args.type args))
                (Path.mk true cwd) meta_cfg add rm) cwd out1 evs1 cwd1 ∧
       match reply with
       | inr _ => out = out1 ∧ cwd' = cwd
       | inl e => out = inl e ∧ cwd' = cwd1
       end).
Proof.
  unfold main. intros H.
  pose proof (prepare_preparing str_format percent_format here args) as Hprep.
  assert (∀ a, preparing a = true → is_chdir a = false) as Hchdir.
  { intros a. unfold preparing. by destruct (is_chdir a). }
  apply trace_bind in H
    as [(e & -> & H)|([[meta_cfg add] rm] & evs1 & evs2 & cwd1 & -> & H1 & H)].
  { exists evs, []. rewrite app_nil_r. split; [done|].
    pose proof (only_trace (λ a, preparing a = true) _ _ _ _ _ Hprep H) as HP.
    destruct (only_trace_cwd (λ a, preparing a = true) _ _ _ _ _
                Hchdir Hprep H) as [-> Hcwd].
    split; [|left; eauto]. apply Forall_and. done. }
  pose proof (only_trace (λ a, preparing a = true) _ _ _ _ _ Hprep H1) as HP.
  destruct (only_trace_cwd (λ a, preparing a = true) _ _ _ _ _
              Hchdir Hprep H1) as [-> Hcwd].
  exists evs1, evs2. split; [done|]. split; [by apply Forall_and|]. right.
  unfold orchestrate in H.
  apply trace_bind in H as [(e & -> & H)|(p & evs3 & evs4 & cwd2 & -> & H2 & H)].
  { apply trace_perform in H as (_ & -> & ->). left. by exists e. }
  apply trace_perform in H2 as (Hp & -> & ->). simpl in Hp. subst p. right.
  apply trace_try_finally in H
    as (out1 & evs5 & cwd3 & out2 & evs6 & -> & Hbody & Hfinal & ->).
  apply trace_perform in Hfinal as (_ & -> & ->).
  exists meta_cfg, add, rm, out1, evs5, cwd3,
    (reply_of (ChDir (Path.mk true cwd)) out2).
  split; [done|]. split; [done|]. split; [done|].
  destruct out2 as [e|[]]; simpl; done.
Qed.

End repository.

(** *** Lists of calls *)

(** An element that satisfies [φ] lies, in a list whose other elements do
    not, at one place only. *)
Lemma unique_split {A} (φ : A → Prop) (a b a' b' : list A) (x x' : A) :
  a ++ x :: b = a' ++ x' :: b' →
  Forall (λ y, ¬ φ y) a → Forall (λ y, ¬ φ y) b → φ x' →
  a' = a ∧ x' = x ∧ b' = b.
Proof.
  revert a'. induction a as [|y a IH]; intros [|y' a'] Heq Ha Hb Hx';
    simpl in Heq; injection Heq as Hhd Htl.
  - by subst.
  - exfalso. subst. rewrite Forall_forall in Hb. apply (Hb x'); [|done].
    apply elem_of_app. right. by left.
  - exfalso. subst. by inversion Ha.
  - subst y'. inversion Ha as [|? ? Hy Ha']; subst.
    by destruct (IH a' Htl Ha' Hb Hx') as (-> & -> & ->).
Qed.

(** An element that satisfies [φ] lies after a prefix whose elements do
    not. *)
Lemma split_after {A} (φ : A → Prop) (a rest before after : list A) (x : A) :
  a ++ rest = before ++ x :: after →
  Forall (λ y, ¬ φ y) a → φ x →
  ∃ k, before = a ++ k ∧ rest = k ++ x :: after.
Proof.
  revert before. induction a as [|y a IH]; intros before Heq Ha Hx.
  - by exists before.
  - destruct before as [|y' before]; simpl in Heq; injection Heq as Hhd Htl.
    + exfalso. subst. by inversion Ha.
    + subst y'. inversion Ha as [|? ? Hy Ha']; subst.
      destruct (IH before Htl Ha' Hx) as (k & -> & ->). by exists k.
Qed.

(** An element that satisfies [φ] lies before a suffix whose elements do
    not. *)
Lemma split_before {A} (φ : A → Prop) (a rest before after : list A) (x : A) :
  a ++ rest = before ++ x :: after →
  Forall (λ y, ¬ φ y) rest → φ x →
  ∃ k, a = before ++ x :: k ∧ after = k ++ rest.
Proof.
  revert before. induction a as [|y a IH]; intros before Heq Hrest Hx.
  - exfalso. simpl in Heq. subst rest. rewrite Forall_forall in Hrest.
    apply (Hrest x); [|done]. apply elem_of_app. right. by left.
  - destruct before as [|y' before]; simpl in Heq; injection Heq as Hhd Htl.
    + subst. by exists a.
    + subst y'. destruct (IH before Htl Hrest Hx) as (k & -> & ->).
      by exists k.
Qed.

Lemma Forall_not {A} (f g : A → Prop) (l : list A) :
  (∀ x, f x → ¬ g x) → Forall f l → Forall (λ x, ¬ g x) l.
Proof. intros Hfg Hl. eapply Forall_impl; [done|]. done. Qed.

Lemma preparing_inv a :
  preparing a = true →
  is_chdir a = false ∧ is_getcwd a = false ∧ is_meta_write a = false ∧
  is_commit a = false ∧ is_tox a = false.
Proof.
  unfold preparing. rewrite !andb_true_iff, !negb_true_iff. tauto.
Qed.

Lemma before_tests_inv a :
  before_tests a = true →
  is_meta_write a = false ∧ is_commit a = false ∧ is_tox a = false ∧
  is_git_log a = false ∧ is_getcwd a = false.
Proof.
  unfold before_tests. rewrite !andb_true_iff, !negb_true_iff. tauto.
Qed.

Lemma after_meta_inv a :
  after_meta a = true →
  is_meta_write a = false ∧ is_tox a = false ∧ is_git_log a = false ∧
  is_chdir a = false ∧ is_getcwd a = false.
Proof.
  unfold after_meta. rewrite !andb_true_iff, !negb_true_iff. tauto.
Qed.

(** ** C9: the working directory *)

Section cwd.
Context (str_format : string → list (string * string) → result string).
Context (percent_format : string → list (string * pyval) → result string).
Context (here : Path.t).

Lemma cwd_restored_trace args cwd out evs cwd' :
  trace (main str_format percent_format here args) cwd out evs cwd' →
  (∀ ev, ev ∈ evs → is_chdir (ev_action ev) = true →
         ∃ c reply, last evs = Some (mkEvent c (AChDir (Path.mk true cwd)) reply)) ∧
  (cwd' = cwd ∨
   ∃ c e, last evs = Some (mkEvent c (AChDir (Path.mk true cwd)) (inl e)) ∧
          out = inl e).
Proof.
  intros (evsP & rest & -> & HP & Hrest)%main_trace.
  assert (∀ ev, ev ∈ evsP → is_chdir (ev_action ev) = true → False) as HnoP.
  { intros ev Hev Hc. rewrite Forall_forall in HP.
    destruct (HP ev Hev) as [(Hch & _)%preparing_inv _]. congruence. }
  destruct Hrest as [(e & -> & -> & ->)|[(e & -> & -> & ->)|Hin]].
  - split; [|by left]. intros ev Hev Hc. exfalso.
    rewrite app_nil_r in Hev. eauto.
  - split; [|by left]. intros ev [Hev|Hev]%elem_of_app Hc; exfalso; [eauto|].
    apply list_elem_of_singleton in Hev as ->. done.
  - destruct Hin as (meta_cfg & add & rm & out1 & evs1 & cwd1 & reply & _ & ->
                     & _ & Hreply).
    assert (last (evsP ++
                  mkEvent cwd AGetCwd (inr (VPath (Path.mk true cwd))) ::
                  evs1 ++ [mkEvent cwd1 (AChDir (Path.mk true cwd)) reply])
            = Some (mkEvent cwd1 (AChDir (Path.mk true cwd)) reply)) as Hlast.
    { rewrite app_comm_cons, app_assoc. apply last_snoc. }
    split; [eauto|].
    destruct reply as [e|v]; destruct Hreply as [-> ->]; [right|by left].
    eauto.
Qed.

(** C9.  In every run of the script, whatever the environment answers:
    once [os.chdir] has been called, the last call of the run is the
    [os.chdir] back to the directory that was current at the start; and the
    run ends in that directory, unless this last [os.chdir] itself raised,
    in which case its exception is the outcome of the run.  This covers the
    normal end, [sys.exit] after a declined prompt and any exception raised
    inside the repository. *)
Theorem cwd_restored env args w :
  let run := exec env (main str_format percent_format here args) w in
  let evs := new_events w run.2 in
  let back := AChDir (Path.mk true (w_cwd w)) in
  (∀ ev, ev ∈ evs → is_chdir (ev_action ev) = true →
         ∃ c reply, last evs = Some (mkEvent c back reply)) ∧
  (w_cwd run.2 = w_cwd w ∨
   ∃ c e, last evs = Some (mkEvent c back (inl e)) ∧ run.1 = inl e).
Proof.
  intros run evs back. apply (cwd_restored_trace args), exec_trace.
Qed.

End cwd.

(** ** The shape of a run *)

Section shape.
Context (str_format : string → list (string * string) → result string).
Context (percent_format : string → list (string * pyval) → result string).
Context (here : Path.t).

(** The calls of a run, phase by phase: the preparation; [os.getcwd()];
    the calls before the tests; the call of the test runner; the writes of
    the metadata file; the calls of git; the return to the directory of the
    start.  A run can stop after each phase. *)
Lemma main_shape args cwd out evs cwd' :
  trace (main str_format percent_format here args) cwd out evs cwd' →
  ∃ evsP,
    Forall (λ ev, preparing (ev_action ev) = true ∧ ev_cwd ev = cwd) evsP ∧
    ((evs = evsP ∧ ∃ e, out = inl e) ∨
     (∃ e, evs = evsP ++ [mkEvent cwd AGetCwd (inl e)] ∧ out = inl e) ∨
     ∃ meta_cfg add rm pre c1 reply out1,
       trace (prepare str_format percent_format here args) cwd
         (inr (meta_cfg, add, rm)) evsP cwd ∧
       Forall (λ ev, before_tests (ev_action ev) = true) pre ∧
       out = match reply with inl e => inl e | inr _ => out1 end ∧
       let g := mkEvent cwd AGetCwd (inr (VPath (Path.mk true cwd))) in
       let fin := mkEvent c1 (AChDir (Path.mk true cwd)) reply in
       ((evs = evsP ++ g :: pre ++ [fin] ∧ ∃ e, out1 = inl e) ∨
        ∃ c tests evsT,
          call_outcome c (tox_command (Path.mk true cwd)) false tests evsT ∧
          match tests with
          | inl e => evs = evsP ++ g :: pre ++ evsT ++ [fin] ∧ out1 = inl e
          | inr _ =>
              ∃ evsM evsG,
                evs = evsP ++ g :: pre ++ evsT ++ evsM ++ evsG ++ [fin] ∧
                Forall (λ ev, meta_write (config_type_str (Args.type args))
                                meta_cfg (ev_action ev)) evsM ∧
                Forall (λ ev, after_meta (ev_action ev) = true) evsG
          end)).
Proof.
  intros (evsP & rest & -> & HP & Hrest)%main_trace.
  exists evsP. split; [done|].
  destruct Hrest as [(e & -> & -> & ->)|[(e & -> & -> & ->)|Hin]].
  { left. rewrite app_nil_r. eauto. }
  { right. left. eauto. }
  right. right.
  destruct Hin as (meta_cfg & add & rm & out1 & evs1 & cwd1 & reply & Hprep
                   & -> & Hrepo & Hreply).
  apply in_repository_trace in Hrepo as (pre & rest & -> & Hpre & Hrest).
  exists meta_cfg, add, rm, pre, cwd1, reply, out1.
  do 2 (split; [done|]). split.
  { by destruct reply as [e|v]; destruct Hreply as [-> _]. }
  simpl. destruct Hrest as [(e & -> & ->)|(c & tests & evsT & post & -> & HT & Hpost)].
  { left. rewrite app_nil_r. eauto. }
  right. exists c, tests, evsT. split; [done|].
  destruct tests as [e|r].
  - destruct Hpost as [-> ->]. rewrite app_nil_r. by rewrite <- app_assoc.
  - destruct Hpost as (evsM & evsG & -> & HM & HG). exists evsM, evsG.
    split; [|done]. by rewrite <- !app_assoc.
Qed.

End shape.

(** The calls of [call] after the first are prints and the prompt. *)
Lemma call_outcome_inv c args cap out evsT :
  call_outcome c args cap out evsT →
  ∃ reply tail,
    evsT = mkEvent c (ASubprocessRun args cap) reply :: tail ∧
    Forall (λ ev, ev_action ev = APrint ABORTING ∨
                  ev_action ev = APrint PROCEED ∨ ev_action ev = AInput) tail.
Proof.
  intros H. inversion H; subst; eexists _, _; (split; [reflexivity|]);
    repeat (apply Forall_cons_2; [simpl; auto|]); apply Forall_nil_2.
Qed.

(** ** C2: the metadata file is written after the tests *)

Lemma silent_preparing cwd l :
  Forall (λ ev, preparing (ev_action ev) = true ∧ ev_cwd ev = cwd) l →
  Forall silent l.
Proof.
  intros H. eapply Forall_impl; [done|].
  intros ev [(_ & _ & ? & ? & ?)%preparing_inv _]. by repeat split.
Qed.

Lemma silent_before_tests l :
  Forall (λ ev, before_tests (ev_action ev) = true) l → Forall silent l.
Proof.
  intros H. eapply Forall_impl; [done|].
  intros ev (? & ? & ? & _)%before_tests_inv. by repeat split.
Qed.

Lemma Forall_shape_head {A} (P : A → Prop) (l1 l2 : list A) (g : A) :
  Forall P l1 → P g → Forall P l2 → Forall P (l1 ++ g :: l2).
Proof. intros. apply Forall_app. split; [done|]. by constructor. Qed.

Lemma app_head_assoc {A} (l1 l2 l3 : list A) (g : A) :
  l1 ++ g :: l2 ++ l3 = (l1 ++ g :: l2) ++ l3.
Proof. by rewrite app_comm_cons, app_assoc. Qed.

Section tests.
Context (str_format : string → list (string * string) → result string).
Context (percent_format : string → list (string * pyval) → result string).
Context (here : Path.t).

Lemma metadata_after_tests_trace args cwd out evs cwd' :
  trace (main str_format percent_format here args) cwd out evs cwd' →
  (∀ before ev after,
     evs = before ++ ev :: after → is_meta_write (ev_action ev) = true →
     ∃ b1 c rc stdout b2,
       before = b1 ++ tox_event c cwd rc stdout :: b2 ∧
       (rc = 0 ∨
        ∃ answer b3,
          b2 = [mkEvent c (APrint ABORTING) (inr VUnit);
                mkEvent c (APrint PROCEED) (inr VUnit);
                mkEvent c AInput (inr (VStr answer))] ++ b3 ∧
          PyStr.lower answer = "y")) ∧
  (∀ before c rc stdout p1 p2 c' answer after,
     evs = before ++ tox_event c cwd rc stdout :: p1 :: p2 ::
           mkEvent c' AInput (inr (VStr answer)) :: after →
     rc ≠ 0 → PyStr.lower answer ≠ "y" →
     Forall (λ ev, is_meta_write (ev_action ev) = false ∧
                   is_commit (ev_action ev) = false) evs ∧
     (out = inl (SystemExit rc) ∨
      ∃ c'' e,
        last evs = Some (mkEvent c'' (AChDir (Path.mk true cwd)) (inl e)) ∧
        out = inl e)).
Proof.
  intros (evsP & HP & Hshape)%main_shape.
  apply silent_preparing in HP.
  assert (∀ l, Forall silent l →
               Forall (λ ev, ¬ is_meta_write (ev_action ev) = true) l) as Hmeta.
  { intros l Hl. eapply Forall_impl; [done|]. intros ev (-> & _). done. }
  assert (∀ l, Forall silent l →
               Forall (λ ev, ¬ is_tox (ev_action ev) = true) l) as Htox.
  { intros l Hl. eapply Forall_impl; [done|]. intros ev (_ & _ & ->). done. }
  assert (∀ l, Forall silent l →
               Forall (λ ev, is_meta_write (ev_action ev) = false ∧
                             is_commit (ev_action ev) = false) l) as Hquiet.
  { intros l Hl. eapply Forall_impl; [done|]. by intros ev (-> & -> & _). }
  assert (∀ (l : list event) before ev after (φ : event → Prop),
            l = before ++ ev :: after → Forall (λ ev, ¬ φ ev) l → φ ev →
            False) as Hnone.
  { intros l before ev after φ -> Hl Hev. rewrite Forall_forall in Hl.
    apply (Hl ev); [|done]. apply elem_of_app. right. by left. }
  destruct Hshape as [[-> (e & ->)]|[(e & -> & ->)|Hin]].
  { split.
    - intros before ev after Heq Hev. exfalso.
      eapply (Hnone _ _ _ _ (λ ev, is_meta_write (ev_action ev) = true));
        [done|by apply Hmeta|done].
    - intros before c rc stdout p1 p2 c' answer after Heq _ _. exfalso.
      eapply (Hnone _ _ _ _ (λ ev, is_tox (ev_action ev) = true));
        [done|by apply Htox|done]. }
  { assert (Forall silent (evsP ++ [mkEvent cwd AGetCwd (inl e)])) as Hall.
    { apply Forall_app. split; [done|]. by repeat constructor. }
    split.
    - intros before ev after Heq Hev. exfalso.
      eapply (Hnone _ _ _ _ (λ ev, is_meta_write (ev_action ev) = true));
        [done|by apply Hmeta|done].
    - intros before c rc stdout p1 p2 c' answer after Heq _ _. exfalso.
      eapply (Hnone _ _ _ _ (λ ev, is_tox (ev_action ev) = true));
        [done|by apply Htox|done]. }
  destruct Hin as (meta_cfg & add & rm & pre & c1 & reply & out1 & _ & Hpre
                   & -> & Hrest).
  apply silent_before_tests in Hpre. simpl in Hrest.
  set (g := mkEvent cwd AGetCwd (inr (VPath (Path.mk true cwd)))) in *.
  set (fin := mkEvent c1 (AChDir (Path.mk true cwd)) reply) in *.
  assert (silent g) as Hg by done.
  assert (silent fin) as Hfin by done.
  assert (Forall silent (evsP ++ g :: pre)) as Hhead
    by by apply Forall_shape_head.
  destruct Hrest as [[-> (e & ->)]|(c & tests & evsT & HT & Hrest)].
  { assert (Forall silent (evsP ++ g :: pre ++ [fin])) as Hall.
    { rewrite app_head_assoc. apply Forall_app. split; [done|].
      by repeat constructor. }
    split.
    - intros before ev after Heq Hev. exfalso.
      eapply (Hnone _ _ _ _ (λ ev, is_meta_write (ev_action ev) = true));
        [done|by apply Hmeta|done].
    - intros before c rc stdout p1 p2 c' answer after Heq _ _. exfalso.
      eapply (Hnone _ _ _ _ (λ ev, is_tox (ev_action ev) = true));
        [done|by apply Htox|done]. }
  split.
  - (* a write of the metadata file *)
    intros before ev after Heq Hev.
    destruct tests as [e|[rc stdout]].
    { destruct Hrest as [-> ->]. exfalso.
      eapply (Hnone _ _ _ _ (λ ev, is_meta_write (ev_action ev) = true));
        [done| |done].
      rewrite app_head_assoc. apply Forall_app. split; [by apply Hmeta|].
      apply Forall_app. split; [|by repeat constructor].
      inversion HT; subst; repeat constructor; simpl; done. }
    destruct Hrest as (evsM & evsG & -> & HM & HG).
    rewrite app_head_assoc, app_assoc in Heq.
    apply (split_after (λ ev, is_meta_write (ev_action ev) = true)) in Heq
      as (k & -> & _); [| |done].
    2:{ apply Forall_app. split; [by apply Hmeta|].
        inversion HT; subst; repeat constructor; simpl; done. }
    exists (evsP ++ g :: pre), c, rc, stdout.
    inversion HT; subst.
    + exists k. split; [by rewrite <- app_assoc|]. by left.
    + eexists. split; [rewrite <- app_assoc; reflexivity|]. right.
      by exists answer, k.
  - (* the tests failed and the operator declined *)
    intros before c0 rc stdout p1 p2 c' answer after Heq Hrc Hanswer.
    assert (is_tox (ev_action (tox_event c0 cwd rc stdout)) = true) as Htx
      by done.
    assert (∀ tail rest,
              Forall (λ ev, ¬ is_tox (ev_action ev) = true) (tail ++ rest) →
              ∀ tx, evsP ++ g :: pre ++ (tx :: tail) ++ rest =
                    before ++ tox_event c0 cwd rc stdout :: p1 :: p2 ::
                    mkEvent c' AInput (inr (VStr answer)) :: after →
                    tox_event c0 cwd rc stdout = tx ∧
                    p1 :: p2 :: mkEvent c' AInput (inr (VStr answer)) :: after
                    = tail ++ rest) as Hsplit.
    { intros tail rest Hb tx Heq'. rewrite app_head_assoc in Heq'.
      simpl in Heq'.
      apply (unique_split (λ ev, is_tox (ev_action ev) = true)) in Heq'
        as (_ & -> & ->); [done|by apply Htox|done|done]. }
    assert (¬ is_tox (ev_action fin) = true) as Hfin' by done.
    destruct tests as [e|[rc' stdout']].
    + destruct Hrest as [-> ->]. inversion HT; subst.
      all: apply Hsplit in Heq as [Htxeq Htail];
        [|repeat constructor; simpl; done].
      all: try discriminate Htxeq.
      all: injection Htxeq as -> -> ->.
      all: simpl in Htail; try discriminate Htail.
      simplify_eq. split.
      * rewrite app_head_assoc. apply Forall_app. split; [by apply Hquiet|].
        by repeat constructor.
      * rewrite app_head_assoc, app_assoc, last_snoc. subst fin.
        destruct reply as [e|v]; [right; eauto|by left].
    + destruct Hrest as (evsM & evsG & -> & HM & HG). exfalso.
      assert (Forall (λ ev, ¬ is_tox (ev_action ev) = true)
                (evsM ++ evsG ++ [fin])) as Hpost.
      { apply Forall_app. split.
        - eapply Forall_impl; [done|]. by intros ev [->|[-> | ->]].
        - apply Forall_app. split; [|by repeat constructor].
          eapply Forall_impl; [done|].
          intros ev (_ & -> & _)%after_meta_inv. done. }
      inversion HT; subst.
      * apply Hsplit in Heq as [Htxeq Htail]; [|done].
        injection Htxeq as -> -> ->. done.
      * apply (Hsplit _ (evsM ++ evsG ++ [fin])) in Heq as [Htxeq Htail];
          [|by repeat (constructor; [simpl; done|])].
        simpl in Htail. injection Htxeq as -> -> ->. by simplify_eq.
Qed.

(** C2.  In every run of the script, whatever the environment answers: a
    call that opens or writes the metadata file comes after the call of
    the test runner, and that call returned 0, or it returned another code
    and the operator's answer to the prompt reads y in lower case; and when
    the test runner returns a code other than 0 and the answer to the
    prompt that follows is anything else, no call of the run opens or
    writes the metadata file, none is git commit, and the run ends with
    [SystemExit] of that code (unless the [os.chdir] back to the directory
    of the start raises, whose exception then replaces it). *)
Theorem metadata_after_tests env args w :
  let run := exec env (main str_format percent_format here args) w in
  let evs := new_events w run.2 in
  (∀ before ev after,
     evs = before ++ ev :: after → is_meta_write (ev_action ev) = true →
     ∃ b1 c rc stdout b2,
       before = b1 ++ tox_event c (w_cwd w) rc stdout :: b2 ∧
       (rc = 0 ∨
        ∃ answer b3,
          b2 = [mkEvent c (APrint ABORTING) (inr VUnit);
                mkEvent c (APrint PROCEED) (inr VUnit);
                mkEvent c AInput (inr (VStr answer))] ++ b3 ∧
          PyStr.lower answer = "y")) ∧
  (∀ before c rc stdout p1 p2 c' answer after,
     evs = before ++ tox_event c (w_cwd w) rc stdout :: p1 :: p2 ::
           mkEvent c' AInput (inr (VStr answer)) :: after →
     rc ≠ 0 → PyStr.lower answer ≠ "y" →
     Forall (λ ev, is_meta_write (ev_action ev) = false ∧
                   is_commit (ev_action ev) = false) evs ∧
     (run.1 = inl (SystemExit rc) ∨
      ∃ c'' e,
        last evs = Some (mkEvent c'' (AChDir (Path.mk true (w_cwd w))) (inl e)) ∧
        run.1 = inl e)).
Proof.
  intros run evs.
  apply (metadata_after_tests_trace args (w_cwd w) run.1 evs (w_cwd run.2)).
  apply exec_trace.
Qed.

End tests.

(** ** What the preparation computes *)

(** Find an element in a concatenation of lists. *)
Ltac find_elem :=
  first
    [ assumption
    | apply elem_of_app;
      first [ solve [left; find_elem] | solve [right; find_elem] ]
    | apply elem_of_cons;
      first [ solve [left; reflexivity] | solve [right; find_elem] ] ].

Section prepare.
Context (str_format : string → list (string * string) → result string).
Context (percent_format : string → list (string * pyval) → result string).
Context (here : Path.t).

Lemma read_meta_trace args config_type cwd meta_cfg with_pypy legacy evs cwd' :
  trace (read_meta args config_type) cwd (inr (meta_cfg, with_pypy, legacy))
    evs cwd' →
  ∃ loaded p0 rc stdout,
    ConfigParser.set "meta" "template" config_type loaded = inr p0 ∧
    resolve_flags args stdout p0 = inr (meta_cfg, with_pypy, legacy) ∧
    git_log_event cwd rc stdout ∈ evs ∧
    (loaded = fresh_meta ∨
     mkEvent cwd (AParserRead (Args.path args // ".meta.cfg"))
       (inr (VParser loaded)) ∈ evs).
Proof.
  unfold read_meta. intros H.
  apply trace_bind in H as [(e & [=] & _)|(present & evs1 & evs2 & cwd1 & -> & H1 & H)].
  apply trace_perform in H1 as (_ & -> & ->). simpl.
  apply trace_bind in H as [(e & [=] & _)|(loaded & evs3 & evs4 & cwd2 & -> & H2 & H)].
  apply trace_bind in H as [(e & [=] & _)|(s & evs5 & evs6 & cwd3 & -> & H3 & H)].
  apply trace_lift in H3 as (_ & -> & ->).
  apply trace_bind in H as [(e & [=] & _)|(p0 & evs7 & evs8 & cwd4 & -> & H4 & H)].
  apply trace_lift in H4 as (Hset & -> & ->).
  apply trace_bind in H as [(e & [=] & _)|([rc stdout] & evs9 & evs10 & cwd5 & -> & H5 & H)].
  apply trace_lift in H as (Hflags & -> & ->).
  apply call_trace in H5 as [H5 ->].
  exists loaded, p0, rc, stdout. split; [done|]. split; [done|].
  assert (cwd2 = cwd ∧
          (loaded = fresh_meta ∨
           mkEvent cwd (AParserRead (Args.path args // ".meta.cfg"))
             (inr (VParser loaded)) ∈ evs3)) as [-> Hloaded].
  { destruct present.
    - apply trace_perform in H2 as (_ & -> & ->). simpl. split; [done|].
      right. by left.
    - destruct H2 as (Hl & -> & ->). split; [done|]. left. by injection Hl. }
  assert (git_log_event cwd rc stdout ∈ evs9) as Hlog.
  { unfold git_log_event. inversion H5; subst; by left. }
  split; [find_elem|].
  destruct Hloaded as [Hfresh|Hin]; [by left|right]. find_elem.
Qed.

Lemma write_tox_ini_trace path config_type meta_cfg with_pypy environs cwd
    meta_cfg' evs cwd' :
  trace (write_tox_ini percent_format here path config_type meta_cfg with_pypy
           environs) cwd (inr meta_cfg') evs cwd' →
  ∃ fail_under,
    ConfigParser.setdefault "meta" "fail-under" "0" meta_cfg
      = inr (fail_under, meta_cfg').
Proof.
  unfold write_tox_ini. intros H.
  apply trace_bind in H as [(e & [=] & _)|(tox_ini & evs1 & evs2 & cwd1 & -> & H1 & H)].
  apply trace_bind in H as [(e & [=] & _)|([] & evs3 & evs4 & cwd2 & -> & H2 & H)].
  apply trace_bind in H as [(e & [=] & _)|([fu p] & evs5 & evs6 & cwd3 & -> & H3 & H)].
  apply trace_lift in H3 as (Hdef & -> & ->).
  apply trace_bind in H as [(e & [=] & _)|(text & evs7 & evs8 & cwd4 & -> & H4 & H)].
  apply trace_bind in H as [(e & [=] & _)|([] & evs9 & evs10 & cwd5 & -> & H5 & H)].
  destruct H as (Hret & -> & ->). injection Hret as <-. by exists fu.
Qed.

(** The calls of the steps after setup.cfg write other files. *)
Lemma write_tox_ini_other path config_type meta_cfg with_pypy environs :
  only (λ a, writes_named "setup.cfg" a = false)
    (write_tox_ini percent_format here path config_type meta_cfg with_pypy
       environs).
Proof.
  unfold write_tox_ini. solve_only.
  all: cbn; rewrite ?name_div; reflexivity.
Qed.

Lemma write_tests_yml_other path with_pypy versions_config :
  only (λ a, writes_named "setup.cfg" a = false)
    (write_tests_yml percent_format here path with_pypy versions_config).
Proof.
  unfold write_tests_yml. solve_only.
  all: cbn; rewrite ?name_div; reflexivity.
Qed.

(** The three calls of lines 195-202, when none raises. *)
Lemma write_setup_cfg_trace path config_type legacy cwd evs cwd' :
  trace (write_setup_cfg percent_format here path config_type legacy) cwd
    (inr ()) evs cwd' →
  ∃ template data,
    percent_format template
      [("universal_wheel", PInt (if legacy then 1 else 0))] = inr data ∧
    evs = [mkEvent cwd (AReadText (here // config_type // "setup.cfg"))
             (inr (VStr template));
           mkEvent cwd (AOpenWrite (path // "setup.cfg")) (inr VUnit);
           mkEvent cwd (AWrite (path // "setup.cfg") data) (inr VUnit)].
Proof.
  unfold write_setup_cfg. intros H.
  apply trace_bind in H as [(e & [=] & _)|(template & evs1 & evs2 & cwd1 & -> & H1 & H)].
  apply trace_perform in H1 as (_ & -> & ->).
  apply trace_bind in H as [(e & [=] & _)|([] & evs3 & evs4 & cwd2 & -> & H2 & H)].
  apply trace_perform in H2 as (_ & -> & ->).
  apply trace_bind in H as [(e & [=] & _)|(data & evs5 & evs6 & cwd3 & -> & H3 & H)].
  apply trace_lift in H3 as (Hfmt & -> & ->).
  apply trace_perform in H as (_ & -> & ->).
  by exists template, data.
Qed.

(** When the preparation completes: the metadata it hands over are those of
    [meta_run] on the metadata it loaded and the output of git log; and
    the last calls that touch the target's setup.cfg are those of lines
    195-202, with the flag resolved on lines 162-163. *)
Lemma prepare_trace args cwd meta_cfg add rm evs cwd' :
  trace (prepare str_format percent_format here args) cwd
    (inr (meta_cfg, add, rm)) evs cwd' →
  ∃ loaded rc stdout with_pypy legacy,
    meta_run args (config_type_str (Args.type args)) stdout loaded
      = inr (meta_cfg, with_pypy, legacy) ∧
    git_log_event cwd rc stdout ∈ evs ∧
    (loaded = fresh_meta ∨
     mkEvent cwd (AParserRead (Args.path args // ".meta.cfg"))
       (inr (VParser loaded)) ∈ evs) ∧
    ∃ before template data after,
      percent_format template
        [("universal_wheel", PInt (if legacy then 1 else 0))] = inr data ∧
      evs = before ++
            [mkEvent cwd (AReadText (here // config_type_str (Args.type args)
                                     // "setup.cfg")) (inr (VStr template));
             mkEvent cwd (AOpenWrite (Args.path args // "setup.cfg"))
               (inr VUnit);
             mkEvent cwd (AWrite (Args.path args // "setup.cfg") data)
               (inr VUnit)] ++ after ∧
      Forall (λ ev, writes_named "setup.cfg" (ev_action ev) = false) after.
Proof.
  intros H.
  pose proof (prepare_preparing str_format percent_format here args) as Hprep.
  assert (∀ a, preparing a = true → is_chdir a = false) as Hchdir.
  { intros a. unfold preparing. by destruct (is_chdir a). }
  destruct (only_trace_cwd (λ a, preparing a = true) _ _ _ _ _ Hchdir Hprep H)
    as [Hcwd' Hcwd].
  rewrite Forall_forall in Hcwd.
  unfold prepare in H.
  apply trace_bind in H as [(e & [=] & _)|(git & evs1 & evs2 & cwd1 & -> & H1 & H)].
  apply trace_bind in H as [(e & [=] & _)|([] & evs3 & evs4 & cwd2 & -> & H2 & H)].
  apply trace_bind in H as [(e & [=] & _)|([] & evs5 & evs6 & cwd3 & -> & H3 & H)].
  apply trace_bind in H
    as [(e & [=] & _)|([[cfg0 wp] lg] & evs7 & evs8 & cwd4 & -> & H4 & H)].
  apply trace_bind in H
    as [(e & [=] & _)|([add' rm'] & evs9 & evs10 & cwd5 & -> & H5 & H)].
  apply trace_bind in H as [(e & [=] & _)|([] & evs11 & evs12 & cwd6 & -> & H6 & H)].
  apply trace_bind in H as [(e & [=] & _)|(cfg1 & evs13 & evs14 & cwd7 & -> & H7 & H)].
  apply trace_bind in H as [(e & [=] & _)|([] & evs15 & evs16 & cwd8 & -> & H8 & H)].
  destruct H as (Hret & -> & Hcwd8). injection Hret as <- <- <-.
  apply read_meta_trace in H4 as (loaded & p0 & rc & stdout & Hset & Hflags
                                  & Hlog & Hloaded).
  pose proof (write_tox_ini_trace _ _ _ _ _ _ _ _ _ H7) as [fu Hdef].
  apply write_setup_cfg_trace in H6 as (template & data & Hfmt & ->).
  assert (cwd3 = cwd) as ->.
  { apply (Hcwd (git_log_event cwd3 rc stdout)). find_elem. }
  assert (cwd5 = cwd) as ->.
  { apply (Hcwd (mkEvent cwd5 (AOpenWrite (Args.path args // "setup.cfg"))
                   (inr VUnit))).
    find_elem. }
  exists loaded, rc, stdout, wp, lg. split; [|split; [|split]].
  - unfold meta_run. rewrite Hset. cbn [mbind result_bind].
    rewrite Hflags. cbn [mbind result_bind]. by rewrite Hdef.
  - find_elem.
  - destruct Hloaded as [Hfresh|Hin]; [by left|right]. find_elem.
  - exists (evs1 ++ evs3 ++ evs5 ++ evs7 ++ evs9), template, data,
      (evs13 ++ evs15 ++ []).
    split; [done|]. split; [by rewrite <- !app_assoc|].
    apply Forall_app. split; [|apply Forall_app; split; [|constructor]].
    + by apply (only_trace (λ a, writes_named "setup.cfg" a = false)
                  _ _ _ _ _ (write_tox_ini_other _ _ _ _ _) H7).
    + by apply (only_trace (λ a, writes_named "setup.cfg" a = false)
                  _ _ _ _ _ (write_tests_yml_other _ _ _) H8).
Qed.

End prepare.

(** ** C10: the commit recorded in the metadata *)

Lemma lookup_meta_items_setdefault key k v p r p' :
  ConfigParser.optionxform k ≠ key →
  ConfigParser.setdefault "meta" k v p = inr (r, p') →
  ConfigParser.lookup key (meta_items p') = ConfigParser.lookup key (meta_items p).
Proof.
  intros Hne. unfold ConfigParser.setdefault. case_match.
  - destruct (ConfigParser.get _ _ _); [discriminate|]. by intros [= _ <-].
  - destruct (ConfigParser.set _ _ _ _) as [|p''] eqn:Hset; [discriminate|].
    intros [= _ <-]. by apply (lookup_meta_items_set key k v).
Qed.

(** The metadata a run leaves record the output of git log. *)
Lemma meta_run_commit_id args config_type commit_id p p' with_pypy legacy :
  meta_run args config_type commit_id p = inr (p', with_pypy, legacy) →
  ConfigParser.lookup "commit-id" (meta_items p') = Some commit_id.
Proof.
  intros (p0 & p3 & fu & H0 & Hflags & Hdef)%meta_run_inv.
  apply resolve_flags_inv in Hflags
    as (p1 & p2 & b1 & b2 & H1 & _ & -> & H2 & _ & -> & H3).
  rewrite (lookup_meta_items_setdefault "commit-id" "fail-under" _ _ _ _
             ltac:(done) Hdef).
  destruct (lookup_meta_items_set "commit-id" "support_legacy_python" _ _ _
              ltac:(done) H3) as [-> _].
  destruct (lookup_meta_items_set "commit-id" "with-pypy" _ _ _
              ltac:(done) H2) as [-> _].
  apply meta_items_set in H1 as (-> & _ & _).
  apply lookup_assign_eq.
Qed.

Section commit.
Context (str_format : string → list (string * string) → result string).
Context (percent_format : string → list (string * pyval) → result string).
Context (here : Path.t).

(** The calls of a run after the preparation: none is git log, and those
    that open or write the metadata file are the calls of lines 246-251, on
    the metadata the preparation handed over. *)
Lemma main_events args cwd out evs cwd' :
  trace (main str_format percent_format here args) cwd out evs cwd' →
  ∃ evsP evsR,
    evs = evsP ++ evsR ∧
    Forall (λ ev, preparing (ev_action ev) = true ∧ ev_cwd ev = cwd) evsP ∧
    Forall (λ ev,
      is_git_log (ev_action ev) = false ∧
      (is_meta_write (ev_action ev) = true →
       ∃ meta_cfg add rm,
         trace (prepare str_format percent_format here args) cwd
           (inr (meta_cfg, add, rm)) evsP cwd ∧
         meta_write (config_type_str (Args.type args)) meta_cfg
           (ev_action ev))) evsR.
Proof.
  intros (evsP & HP & Hshape)%main_shape.
  exists evsP.
  destruct Hshape as [[-> (e & ->)]|[(e & -> & ->)|Hin]].
  { exists []. rewrite app_nil_r. by repeat split. }
  { eexists. split; [done|]. split; [done|]. by repeat constructor. }
  destruct Hin as (meta_cfg & add & rm & pre & c1 & reply & out1 & Hprep & Hpre
                   & -> & Hrest).
  simpl in Hrest.
  set (Q := λ ev : event,
         is_git_log (ev_action ev) = false ∧
         (is_meta_write (ev_action ev) = true →
          ∃ meta_cfg add rm,
            trace (prepare str_format percent_format here args) cwd
              (inr (meta_cfg, add, rm)) evsP cwd ∧
            meta_write (config_type_str (Args.type args)) meta_cfg
              (ev_action ev))).
  assert (Forall Q pre) as Hpre'.
  { eapply Forall_impl; [done|].
    intros ev (Hm & _ & _ & Hg & _)%before_tests_inv. split; [done|].
    rewrite Hm. done. }
  assert (∀ c tests evsT,
            call_outcome c (tox_command (Path.mk true cwd)) false tests evsT →
            Forall Q evsT) as Htests.
  { intros c tests evsT HT.
    inversion HT; subst; repeat (apply Forall_cons_2; [by split|]);
      apply Forall_nil_2. }
  destruct Hrest as [[-> (e & ->)]|(c & tests & evsT & HT & Hrest)].
  { eexists. split; [done|]. split; [done|].
    apply Forall_cons_2; [by split|]. apply Forall_app. split; [done|].
    apply Forall_cons_2; [by split|]. apply Forall_nil_2. }
  apply Htests in HT.
  destruct tests as [e|r].
  { destruct Hrest as [-> ->]. eexists. split; [done|]. split; [done|].
    apply Forall_cons_2; [by split|]. apply Forall_app. split; [done|].
    apply Forall_app. split; [done|].
    apply Forall_cons_2; [by split|]. apply Forall_nil_2. }
  destruct Hrest as (evsM & evsG & -> & HM & HG).
  eexists. split; [done|]. split; [done|].
  apply Forall_cons_2; [by split|]. apply Forall_app. split; [done|].
  apply Forall_app. split; [done|]. apply Forall_app. split.
  { eapply Forall_impl; [done|]. intros ev Hev. split.
    - by destruct Hev as [->|[-> | ->]].
    - intros _. by exists meta_cfg, add, rm. }
  apply Forall_app. split.
  { eapply Forall_impl; [done|].
    intros ev (Hm & _ & Hg & _)%after_meta_inv. split; [done|].
    rewrite Hm. done. }
  apply Forall_cons_2; [by split|]. apply Forall_nil_2.
Qed.

Lemma commit_id_trace args cwd out evs cwd' :
  trace (main str_format percent_format here args) cwd out evs cwd' →
  (∀ before ev after,
     evs = before ++ ev :: after →
     ev_action ev = ASubprocessRun git_log_command true →
     ev_cwd ev = cwd ∧
     Forall (λ e, is_chdir (ev_action e) = false) before) ∧
  (∀ ev data,
     ev ∈ evs → ev_action ev = AWrite (Path.rel ".meta.cfg") data →
     data = META_HINT (config_type_str (Args.type args)) ∨
     ∃ meta_cfg rc stdout,
       data = ConfigParser.write meta_cfg ∧
       ConfigParser.lookup "commit-id" (meta_items meta_cfg) = Some stdout ∧
       git_log_event cwd rc stdout ∈ evs).
Proof.
  intros (evsP & evsR & -> & HP & HR)%main_events. split.
  - intros before ev after Heq Hev.
    apply (split_before (λ ev, is_git_log (ev_action ev) = true)) in Heq
      as (k & -> & _).
    + apply Forall_app in HP as [Hbefore Hev'].
      apply Forall_cons in Hev' as [[_ Hcwd] _]. split; [done|].
      eapply Forall_impl; [done|].
      by intros e [(? & _)%preparing_inv _].
    + eapply Forall_impl; [done|]. intros e [-> _]. done.
    + by rewrite Hev.
  - intros ev data [Hin|Hin]%elem_of_app Hev.
    + exfalso. rewrite Forall_forall in HP.
      destruct (HP ev Hin) as [(_ & _ & Hm & _)%preparing_inv _].
      by rewrite Hev in Hm.
    + rewrite Forall_forall in HR. destruct (HR ev Hin) as [_ Hmeta].
      destruct Hmeta as (meta_cfg & add & rm & Hprep & Hw);
        [by rewrite Hev|].
      rewrite Hev in Hw. destruct Hw as [Hw|[Hw|Hw]]; [done| |].
      * left. by injection Hw.
      * right. injection Hw as ->.
        apply prepare_trace in Hprep
          as (loaded & rc & stdout & wp & lg & Hrun & Hlog & _).
        exists meta_cfg, rc, stdout. split; [done|].
        split; [by eapply meta_run_commit_id|].
        apply elem_of_app. by left.
Qed.

(** C10.  In every run of the script, whatever the environment answers:
    the call of git log runs in the directory that was current at the start
    of the run and no [os.chdir] comes before it; and the metadata written
    to the metadata file record, as commit-id, the output of that call. *)
Theorem commit_id_from_start_directory env args w :
  let run := exec env (main str_format percent_format here args) w in
  let evs := new_events w run.2 in
  (∀ before ev after,
     evs = before ++ ev :: after →
     ev_action ev = ASubprocessRun git_log_command true →
     ev_cwd ev = w_cwd w ∧
     Forall (λ e, is_chdir (ev_action e) = false) before) ∧
  (∀ ev data,
     ev ∈ evs → ev_action ev = AWrite (Path.rel ".meta.cfg") data →
     data = META_HINT (config_type_str (Args.type args)) ∨
     ∃ meta_cfg rc stdout,
       data = ConfigParser.write meta_cfg ∧
       ConfigParser.lookup "commit-id" (meta_items meta_cfg) = Some stdout ∧
       git_log_event (w_cwd w) rc stdout ∈ evs).
Proof.
  intros run evs.
  apply (commit_id_trace args (w_cwd w) run.1 evs (w_cwd run.2)).
  apply exec_trace.
Qed.

End commit.

(** ** C7: universal_wheel *)

Lemma meta_run_flag_given args config_type commit_id p p' with_pypy legacy :
  meta_run args config_type commit_id p = inr (p', with_pypy, legacy) →
  (Args.with_pypy args = true → with_pypy = true) ∧
  (Args.support_legacy_python args = true → legacy = true).
Proof.
  intros (p0 & p3 & fu & H0 & Hflags & Hdef)%meta_run_inv.
  apply resolve_flags_inv in Hflags
    as (p1 & p2 & b1 & b2 & H1 & _ & -> & H2 & _ & -> & H3).
  split; intros ->; apply orb_true_r.
Qed.

Section setup_cfg.
Context (str_format : string → list (string * string) → result string).
Context (percent_format : string → list (string * pyval) → result string).
Context (here : Path.t).

(** C7.  When the preparation completes, the last calls that open or write
    the target's setup.cfg are those of lines 195-202: the template of the
    config type is read and written formatted with universal_wheel 1 if the
    legacy flag, as resolved on lines 162-163 from the metadata and the
    command line, is true, and with universal_wheel 0 if it is false.  The
    flag is true with --with-py27; for a repository without metadata file
    it is the flag of the command line. *)
Theorem universal_wheel_flag env args w meta_cfg add rm :
  let run := exec env (prepare str_format percent_format here args) w in
  run.1 = inr (meta_cfg, add, rm) →
  ∃ loaded stdout with_pypy legacy before template data after,
    meta_run args (config_type_str (Args.type args)) stdout loaded
      = inr (meta_cfg, with_pypy, legacy) ∧
    (∀ b, persisted "support_legacy_python" loaded b →
          legacy = b || Args.support_legacy_python args) ∧
    (Args.support_legacy_python args = true → legacy = true) ∧
    (loaded = fresh_meta → legacy = Args.support_legacy_python args) ∧
    percent_format template
      [("universal_wheel", PInt (if legacy then 1 else 0))] = inr data ∧
    new_events w run.2 =
      before ++
      [mkEvent (w_cwd w)
         (AReadText (here // config_type_str (Args.type args) // "setup.cfg"))
         (inr (VStr template));
       mkEvent (w_cwd w) (AOpenWrite (Args.path args // "setup.cfg"))
         (inr VUnit);
       mkEvent (w_cwd w) (AWrite (Args.path args // "setup.cfg") data)
         (inr VUnit)] ++ after ∧
    Forall (λ ev, writes_named "setup.cfg" (ev_action ev) = false) after.
Proof.
  intros run Hrun.
  pose proof (exec_trace env (prepare str_format percent_format here args) w)
    as Htrace.
  fold run in Htrace. rewrite Hrun in Htrace.
  apply prepare_trace in Htrace
    as (loaded & rc & stdout & wp & lg & Hmeta & _ & _ & before & template
        & data & after & Hfmt & Hevs & Hafter).
  exists loaded, stdout, wp, lg, before, template, data, after.
  split; [done|].
  destruct (meta_run_flags _ _ _ _ _ _ _ Hmeta) as (_ & Hl & _ & _).
  destruct (meta_run_flag_given _ _ _ _ _ _ _ Hmeta) as [_ Hgiven].
  do 2 (split; [done|]). split; [|done].
  intros ->. by apply meta_run_fresh in Hmeta as (_ & -> & _).
Qed.

End setup_cfg.

(** ** Files *)

Lemma no_fault_next env w w1 ev k :
  no_fault env w (S k) → w_log w1 = w_log w ++ [ev] → no_fault env w1 k.
Proof.
  intros H Hlog i Hi. rewrite Hlog, length_app. simpl.
  rewrite <- Nat.add_assoc. apply H. simpl. lia.
Qed.

Lemma no_fault_now env w k :
  no_fault env w (S k) → env_fault env (length (w_log w)) = None.
Proof. intros H. rewrite <- (Nat.add_0_r (length _)). apply H. lia. Qed.

(** A call the environment lets through. *)
Lemma step_no_fault env {X} (o : op X) (w : World) :
  env_fault env (length (w_log w)) = None →
  step env o w =
    let '(r, cwd, fs) :=
      perform_op env (length (w_log w)) o (w_cwd w) (w_fs w) in
    (r, mkWorld cwd fs
          (w_log w ++ [mkEvent (w_cwd w) (action_of o) (reply_of o r)])).
Proof. intros H. unfold step. by rewrite H. Qed.

(** [os.chdir] apart, a call leaves the working directory as it is. *)
Lemma step_cwd env {X} (o : op X) (w : World) :
  is_chdir (action_of o) = false → w_cwd (step env o w).2 = w_cwd w.
Proof.
  intros Ho. rewrite step_next_cwd. by destruct (action_of o).
Qed.

Lemma step_ReadText env p w :
  w_fs (step env (ReadText p) w).2 = w_fs w ∧
  ∀ text, (step env (ReadText p) w).1 = inr text →
          ∃ data, w_fs w !! resolve (w_cwd w) p = Some (File data) ∧
                  text = PyStr.translate_newlines data.
Proof.
  unfold step. destruct (env_fault env _) as [e|]; simpl; [done|].
  destruct (w_fs w !! _) as [[data|]|]; simpl; split; try done.
  intros text [= <-]. eauto.
Qed.

Lemma step_OpenWrite env p w :
  match (step env (OpenWrite p) w).1 with
  | inl _ => w_fs (step env (OpenWrite p) w).2 = w_fs w
  | inr _ =>
      w_fs (step env (OpenWrite p) w).2 =
        <[resolve (w_cwd w) p := File ""]> (w_fs w)
  end.
Proof.
  unfold step. destruct (env_fault env _) as [e|]; simpl; [done|].
  by destruct (w_fs w !! _) as [[data|]|].
Qed.

Lemma step_OpenAppend env p w :
  match (step env (OpenAppend p) w).1 with
  | inl _ => w_fs (step env (OpenAppend p) w).2 = w_fs w
  | inr _ =>
      w_fs (step env (OpenAppend p) w).2 =
        match w_fs w !! resolve (w_cwd w) p with
        | None => <[resolve (w_cwd w) p := File ""]> (w_fs w)
        | Some _ => w_fs w
        end
  end.
Proof.
  unfold step. destruct (env_fault env _) as [e|]; simpl; [done|].
  by destruct (w_fs w !! _) as [[data|]|].
Qed.

Lemma step_Write env p data w :
  match (step env (Write p data) w).1 with
  | inl _ => w_fs (step env (Write p data) w).2 = w_fs w
  | inr _ =>
      ∃ old,
        w_fs w !! resolve (w_cwd w) p = Some (File old) ∧
        w_fs (step env (Write p data) w).2 =
          <[resolve (w_cwd w) p := File (old +:+ data)]> (w_fs w)
  end.
Proof.
  unfold step. destruct (env_fault env _) as [e|]; simpl; [done|].
  destruct (w_fs w !! _) as [[old|]|]; simpl; eauto.
Qed.

Lemma step_Print env text w : w_fs (step env (Print text) w).2 = w_fs w.
Proof. unfold step. by destruct (env_fault env _) as [e|]. Qed.

Lemma string_app_empty_r (s : string) : s +:+ "" = s.
Proof.
  induction s as [|c s IH]; [done|].
  change (String c (s +:+ "") = String c s). by f_equal.
Qed.

(** Calls that leave a file and the working directory as they are. *)
Lemma step_unaffecting env {X} (o : op X) w key :
  unaffecting (w_cwd w) key (action_of o) →
  w_fs (step env o w).2 !! key = w_fs w !! key ∧
  w_cwd (step env o w).2 = w_cwd w.
Proof.
  intros (Hchdir & Hchild & Hkey).
  split; [|by apply step_cwd].
  unfold step. destruct (env_fault env _) as [e|].
  { destruct o; try done. by destruct e. }
  destruct o; simpl in *; try done.
  - by destruct (w_fs w !! _) as [[]|].
  - by destruct (w_fs w !! _) as [[]|].
  - destruct (w_fs w !! _) as [[]|]; simpl; [|done|].
    all: by rewrite lookup_insert_ne by (by apply Hkey).
  - destruct (w_fs w !! _) as [[]|]; simpl; [done|done|].
    by rewrite lookup_insert_ne by (by apply Hkey).
  - destruct (w_fs w !! _) as [[]|]; simpl; [|done|done].
    by rewrite lookup_insert_ne by (by apply Hkey).
  - destruct (w_fs w !! _) as [[]|]; simpl; [done| |].
    all: by rewrite lookup_insert_ne by (by apply Hkey).
  - by destruct (Hchild args capture_output).
Qed.

Lemma exec_unaffecting env {A} (m : Prog A) cwd key :
  only (unaffecting cwd key) m →
  ∀ w, w_cwd w = cwd →
    w_fs (exec env m w).2 !! key = w_fs w !! key ∧
    w_cwd (exec env m w).2 = w_cwd w.
Proof.
  induction 1 as [a|e|X o k Ho Hk IH]; intros w Hw; [done|done|].
  simpl. rewrite <- Hw in Ho.
  destruct (step_unaffecting env o w key Ho) as [Hfs Hcwd].
  destruct (step env o w) as [r w1]. simpl in *.
  destruct (IH r w1) as [Hfs' Hcwd']; [congruence|].
  split; congruence.
Qed.

Lemma exec_stays env {A} (m : Prog A) w :
  only (λ a, is_chdir a = false) m → w_cwd (exec env m w).2 = w_cwd w.
Proof.
  intros Hm. pose proof (exec_trace env m w) as Htrace.
  by apply (only_trace_cwd _ _ _ _ _ _ (λ a Ha, Ha) Hm) in Htrace as [? _].
Qed.

Lemma resolve_div cwd p s : resolve cwd (p // s) = resolve cwd p ++ [s].
Proof.
  unfold resolve, Path.div. simpl.
  destruct (Path.absolute p); [done|]. by rewrite app_assoc.
Qed.

Lemma resolve_div_ne cwd p q s t : s ≠ t → resolve cwd (p // s) ≠ resolve cwd (q // t).
Proof.
  intros Hne. rewrite !resolve_div. by intros [_ ?]%app_inj_tail.
Qed.

Lemma exec_log_app env {A} (m : Prog A) w r w' :
  exec env m w = (r, w') → ∃ evs, w_log w' = w_log w ++ evs.
Proof.
  intros H. pose proof (exec_log env m w) as Hlog. rewrite H in Hlog. eauto.
Qed.

(** ** C6: [copy_with_meta] *)

Section copy.
Context (str_format : string → list (string * string) → result string).

(** C6.  Whatever the environment, [copy_with_meta] leaves the destination
    as it was, or empty, or with a text that begins with the two provenance
    lines.  When the environment lets its four calls through, the source
    is a file, the destination is not a directory and the substitution, if
    any is asked for, succeeds, the call returns and the destination holds
    the two provenance lines followed by the text read from the source, with
    the placeholders substituted when keyword arguments are given and as
    it is otherwise; what the destination held before is gone. *)
Theorem copy_with_meta_spec env source destination config_type kw w :
  let run := exec env (copy_with_meta str_format source destination
                         config_type kw) w in
  let dest := resolve (w_cwd w) destination in
  (w_fs run.2 !! dest = w_fs w !! dest ∨
   w_fs run.2 !! dest = Some (File "") ∨
   ∃ rest, w_fs run.2 !! dest = Some (File (META_HINT config_type +:+ rest))) ∧
  (∀ data body,
     no_fault env w 4 →
     w_fs w !! resolve (w_cwd w) source = Some (File data) →
     w_fs w !! dest ≠ Some Dir →
     copied_text str_format (PyStr.translate_newlines data) kw = inr body →
     run.1 = inr () ∧
     w_fs run.2 = <[dest := File (META_HINT config_type +:+ body)]> (w_fs w)).
Proof.
  intros run dest. subst run. unfold copy_with_meta.
  (* open(source).read() *)
  rewrite exec_bind, exec_perform.
  pose proof (step_ReadText env source w) as [Hfs1 Hread].
  pose proof (step_cwd env (ReadText source) w eq_refl) as Hcwd1.
  pose proof (step_log env (ReadText source) w) as Hlog1.
  pose proof (step_no_fault env (ReadText source) w) as Hok1.
  destruct (step env (ReadText source) w) as [[e|text] w1]; cbn [fst snd] in *.
  { split; [left; by rewrite Hfs1|].
    intros data body Hnf Hsrc _ _. exfalso.
    specialize (Hok1 (no_fault_now _ _ _ Hnf)). simpl in Hok1.
    rewrite Hsrc in Hok1. discriminate. }
  (* open(destination, 'w') *)
  rewrite exec_bind, exec_perform.
  pose proof (step_OpenWrite env destination w1) as Hfs2.
  pose proof (step_cwd env (OpenWrite destination) w1 eq_refl) as Hcwd2.
  pose proof (step_log env (OpenWrite destination) w1) as Hlog2.
  pose proof (step_no_fault env (OpenWrite destination) w1) as Hok2.
  destruct (step env (OpenWrite destination) w1) as [[e|[]] w2]; cbn [fst snd] in *.
  { split; [left; by rewrite Hfs2, Hfs1|].
    intros data body Hnf Hsrc Hdest _. exfalso.
    pose proof (no_fault_next _ _ _ _ _ Hnf Hlog1) as Hnf1.
    specialize (Hok2 (no_fault_now _ _ _ Hnf1)). simpl in Hok2.
    rewrite Hcwd1, Hfs1 in Hok2. fold dest in Hok2.
    destruct (w_fs w !! dest) as [[?|]|]; simplify_eq. }
  rewrite Hcwd1, Hfs1 in Hfs2. fold dest in Hfs2.
  (* f_.write(META_HINT...) *)
  rewrite exec_bind, exec_perform.
  pose proof (step_Write env destination (META_HINT config_type) w2) as Hfs3.
  pose proof (step_cwd env (Write destination (META_HINT config_type)) w2
                eq_refl) as Hcwd3.
  pose proof (step_log env (Write destination (META_HINT config_type)) w2)
    as Hlog3.
  pose proof (step_no_fault env (Write destination (META_HINT config_type)) w2)
    as Hok3.
  rewrite Hcwd2, Hcwd1 in Hfs3. fold dest in Hfs3.
  destruct (step env (Write destination (META_HINT config_type)) w2)
    as [[e|[]] w3]; cbn [fst snd] in *.
  { split; [right; left; by rewrite Hfs3, Hfs2, lookup_insert_eq|].
    intros data body Hnf Hsrc Hdest _. exfalso.
    pose proof (no_fault_next _ _ _ _ _ Hnf Hlog1) as Hnf1.
    pose proof (no_fault_next _ _ _ _ _ Hnf1 Hlog2) as Hnf2.
    specialize (Hok3 (no_fault_now _ _ _ Hnf2)). simpl in Hok3.
    rewrite Hcwd2, Hcwd1, Hfs2 in Hok3. fold dest in Hok3.
    rewrite lookup_insert_eq in Hok3. simplify_eq. }
  destruct Hfs3 as (old & Hold & Hfs3).
  rewrite Hfs2, lookup_insert_eq in Hold. injection Hold as <-.
  rewrite Hfs2, insert_insert_eq in Hfs3.
  change ("" +:+ META_HINT config_type) with (META_HINT config_type) in Hfs3.
  (* f_data.format(...) *)
  assert (text = PyStr.translate_newlines
                   match w_fs w !! resolve (w_cwd w) source with
                   | Some (File data) => data
                   | _ => ""
                   end) as Htext.
  { destruct (Hread text eq_refl) as (data & -> & ->). done. }
  rewrite exec_bind.
  assert (exec env (if decide (kw ≠ []) then lift (str_format text kw)
                    else mret text) w3 = (copied_text str_format text kw, w3)) as ->.
  { unfold copied_text. case_decide; [apply exec_lift|done]. }
  destruct (copied_text str_format text kw) as [e|body'] eqn:Hbody; cbn [fst snd].
  { split; [right; right; exists "";
            by rewrite Hfs3, lookup_insert_eq, string_app_empty_r|].
    intros data body Hnf Hsrc Hdest Hcopied. exfalso.
    rewrite Hsrc in Htext. subst text. congruence. }
  (* f_.write(f_data) *)
  rewrite exec_perform.
  pose proof (step_Write env destination body' w3) as Hfs4.
  pose proof (step_no_fault env (Write destination body') w3) as Hok4.
  rewrite Hcwd3, Hcwd2, Hcwd1 in Hfs4. fold dest in Hfs4.
  destruct (step env (Write destination body') w3) as [[e|[]] w4]; cbn [fst snd] in *.
  { split; [right; right; exists "";
            by rewrite Hfs4, Hfs3, lookup_insert_eq, string_app_empty_r|].
    intros data body Hnf Hsrc Hdest _. exfalso.
    pose proof (no_fault_next _ _ _ _ _ Hnf Hlog1) as Hnf1.
    pose proof (no_fault_next _ _ _ _ _ Hnf1 Hlog2) as Hnf2.
    pose proof (no_fault_next _ _ _ _ _ Hnf2 Hlog3) as Hnf3.
    specialize (Hok4 (no_fault_now _ _ _ Hnf3)). simpl in Hok4.
    rewrite Hcwd3, Hcwd2, Hcwd1, Hfs3 in Hok4. fold dest in Hok4.
    rewrite lookup_insert_eq in Hok4. simplify_eq. }
  destruct Hfs4 as (old & Hold & Hfs4).
  rewrite Hfs3, lookup_insert_eq in Hold. injection Hold as <-.
  rewrite Hfs3, insert_insert_eq in Hfs4.
  split; [right; right; exists body'; by rewrite Hfs4, lookup_insert_eq|].
  intros data body Hnf Hsrc Hdest Hcopied. split; [done|].
  rewrite Hsrc in Htext. subst text. congruence.
Qed.

End copy.

(** ** Lines of a text *)

(** Induction on a string, two characters at a time. *)
Lemma string_ind2 (P : string → Prop) :
  P "" → (∀ c, P (String c "")) →
  (∀ c c' s, P s → P (String c' s) → P (String c (String c' s))) →
  ∀ s, P s.
Proof.
  intros H0 H1 H2 s. enough (P s ∧ ∀ c, P (String c s)) as [? _] by done.
  induction s as [|c' s [IH1 IH2]]; [by split|].
  split; [apply IH2|]. intros c. apply H2; [done|apply IH2].
Qed.

Lemma string_app_cons c (s t : string) : String c s +:+ t = String c (s +:+ t).
Proof. reflexivity. Qed.

Lemma string_app_nil (t : string) : "" +:+ t = t.
Proof. reflexivity. Qed.

Lemma string_app_assoc (s t u : string) : (s +:+ t) +:+ u = s +:+ (t +:+ u).
Proof.
  induction s as [|c s IH]; [done|].
  rewrite !string_app_cons. by f_equal.
Qed.

Lemma is_linebreak_CR : PyStr.is_linebreak PyStr.CR = true.
Proof. reflexivity. Qed.

Lemma is_linebreak_LF : PyStr.is_linebreak PyStr.LF = true.
Proof. reflexivity. Qed.

(** The equations of [splitlines_from]. *)
Lemma splitlines_from_nil cur :
  PyStr.splitlines_from cur "" = if decide (cur = "") then [] else [cur].
Proof. reflexivity. Qed.

Lemma splitlines_from_CR_end cur :
  PyStr.splitlines_from cur (String PyStr.CR "") = [cur].
Proof. reflexivity. Qed.

Lemma splitlines_from_CR_LF cur s :
  PyStr.splitlines_from cur (String PyStr.CR (String PyStr.LF s))
  = cur :: PyStr.splitlines_from "" s.
Proof. reflexivity. Qed.

Lemma splitlines_from_CR cur c s :
  c ≠ PyStr.LF →
  PyStr.splitlines_from cur (String PyStr.CR (String c s))
  = cur :: PyStr.splitlines_from "" (String c s).
Proof.
  intros Hc. cbn [PyStr.splitlines_from].
  rewrite (decide_True (P := PyStr.CR = PyStr.CR)) by done.
  by rewrite (decide_False (P := c = PyStr.LF)) by done.
Qed.

Lemma splitlines_from_break cur c s :
  c ≠ PyStr.CR → PyStr.is_linebreak c = true →
  PyStr.splitlines_from cur (String c s) = cur :: PyStr.splitlines_from "" s.
Proof.
  intros Hc Hb. cbn [PyStr.splitlines_from].
  rewrite (decide_False (P := c = PyStr.CR)) by done. by rewrite Hb.
Qed.

Lemma splitlines_from_char cur c s :
  PyStr.is_linebreak c = false →
  PyStr.splitlines_from cur (String c s)
  = PyStr.splitlines_from (cur +:+ String c "") s.
Proof.
  intros Hb. cbn [PyStr.splitlines_from].
  rewrite (decide_False (P := c = PyStr.CR)).
  - by rewrite Hb.
  - intros ->. by rewrite is_linebreak_CR in Hb.
Qed.

(** The cases of a string for [splitlines_from]. *)
Lemma linebreak_cases (c : ascii) :
  c = PyStr.CR ∨ (c ≠ PyStr.CR ∧ PyStr.is_linebreak c = true) ∨
  PyStr.is_linebreak c = false.
Proof.
  destruct (decide (c = PyStr.CR)); [by left|right].
  destruct (PyStr.is_linebreak c); [by left|by right].
Qed.

(** [splitlines] sees the same lines before and after the translation of
    the newlines. *)
Lemma splitlines_from_translate s cur :
  PyStr.splitlines_from cur (PyStr.translate_newlines s)
  = PyStr.splitlines_from cur s.
Proof.
  revert cur.
  induction s as [|c|c c' s IH1 IH2] using string_ind2; intros cur; [done| |].
  - destruct (linebreak_cases c) as [->|[[Hc Hb]|Hb]]; [done| |].
    + cbn [PyStr.translate_newlines].
      by rewrite (decide_False (P := c = PyStr.CR)) by done.
    + cbn [PyStr.translate_newlines].
      rewrite (decide_False (P := c = PyStr.CR)); [done|].
      intros ->. by rewrite is_linebreak_CR in Hb.
  - destruct (linebreak_cases c) as [->|[[Hc Hb]|Hb]].
    + destruct (decide (c' = PyStr.LF)) as [->|Hc'].
      * rewrite splitlines_from_CR_LF.
        change (PyStr.translate_newlines
                  (String PyStr.CR (String PyStr.LF s)))
          with (String PyStr.LF (PyStr.translate_newlines s)).
        rewrite splitlines_from_break by done. by rewrite IH1.
      * rewrite splitlines_from_CR by done.
        assert (PyStr.translate_newlines (String PyStr.CR (String c' s))
                = String PyStr.LF (PyStr.translate_newlines (String c' s)))
          as ->.
        { cbn [PyStr.translate_newlines].
          rewrite (decide_True (P := PyStr.CR = PyStr.CR)) by done.
          by rewrite (decide_False (P := c' = PyStr.LF)) by done. }
        rewrite splitlines_from_break by done. by rewrite IH2.
    + assert (PyStr.translate_newlines (String c (String c' s))
              = String c (PyStr.translate_newlines (String c' s))) as ->.
      { cbn [PyStr.translate_newlines].
        by rewrite (decide_False (P := c = PyStr.CR)) by done. }
      rewrite !splitlines_from_break by done. by rewrite IH2.
    + assert (c ≠ PyStr.CR) as Hc.
      { intros ->. by rewrite is_linebreak_CR in Hb. }
      assert (PyStr.translate_newlines (String c (String c' s))
              = String c (PyStr.translate_newlines (String c' s))) as ->.
      { cbn [PyStr.translate_newlines].
        by rewrite (decide_False (P := c = PyStr.CR)) by done. }
      rewrite !splitlines_from_char by done. by rewrite IH2.
Qed.

Lemma has_linebreak_app s t :
  has_linebreak (s +:+ t) = has_linebreak s || has_linebreak t.
Proof.
  induction s as [|c s IH]; [done|].
  rewrite string_app_cons. simpl. by rewrite IH, orb_assoc.
Qed.

(** No line of a text holds a line boundary. *)
Lemma splitlines_from_nobreak s cur line :
  has_linebreak cur = false →
  line ∈ PyStr.splitlines_from cur s → has_linebreak line = false.
Proof.
  revert cur.
  induction s as [|c|c c' s IH1 IH2] using string_ind2; intros cur Hcur.
  - rewrite splitlines_from_nil. case_decide; [by intros ?%elem_of_nil|].
    by intros ->%list_elem_of_singleton.
  - destruct (linebreak_cases c) as [->|[[Hc Hb]|Hb]].
    + rewrite splitlines_from_CR_end. by intros ->%list_elem_of_singleton.
    + rewrite splitlines_from_break by done. simpl.
      by intros ->%list_elem_of_singleton.
    + rewrite splitlines_from_char, splitlines_from_nil by done.
      case_decide; [by intros ?%elem_of_nil|].
      intros ->%list_elem_of_singleton.
      rewrite has_linebreak_app. simpl. by rewrite Hcur, Hb.
  - destruct (linebreak_cases c) as [->|[[Hc Hb]|Hb]].
    + destruct (decide (c' = PyStr.LF)) as [->|Hc'].
      * rewrite splitlines_from_CR_LF.
        intros [->|Hin]%elem_of_cons; [done|]. by apply (IH1 "").
      * rewrite splitlines_from_CR by done.
        intros [->|Hin]%elem_of_cons; [done|]. by apply (IH2 "").
    + rewrite splitlines_from_break by done.
      intros [->|Hin]%elem_of_cons; [done|]. by apply (IH2 "").
    + rewrite splitlines_from_char by done. apply IH2.
      rewrite has_linebreak_app. simpl. by rewrite Hcur, Hb.
Qed.

Lemma occurrences_cons name line lines :
  occurrences name (line :: lines)
  = ((if decide (line = name) then 1 else 0) + occurrences name lines)%nat.
Proof.
  unfold occurrences. rewrite filter_cons. by case_decide.
Qed.

Lemma occurrences_length name lines :
  (occurrences name lines ≤ length lines)%nat.
Proof. apply length_filter. Qed.

Lemma occurrences_absent name lines :
  name ∉ lines → occurrences name lines = 0%nat.
Proof.
  induction lines as [|line lines IH]; [done|].
  intros [Hne Hin]%not_elem_of_cons. rewrite occurrences_cons, IH by done.
  by rewrite decide_False by done.
Qed.

(** A text without line boundary, closed by a newline, is one line. *)
Lemma splitlines_from_line name cur :
  has_linebreak name = false →
  PyStr.splitlines_from cur (name +:+ PyStr.nl) = [cur +:+ name].
Proof.
  revert cur. induction name as [|c name IH]; intros cur Hname.
  - rewrite string_app_nil, string_app_empty_r. done.
  - simpl in Hname. apply orb_false_elim in Hname as [Hc Hname].
    rewrite string_app_cons, splitlines_from_char, IH by done.
    by rewrite string_app_assoc.
Qed.

(** Appending a name and a newline to a text makes the name a line at most
    once more. *)
Lemma occurrences_append name content :
  has_linebreak name = false → ∀ cur,
  (occurrences name
     (PyStr.splitlines_from cur (content +:+ name +:+ PyStr.nl))
   ≤ occurrences name (PyStr.splitlines_from cur content) + 1)%nat.
Proof.
  intros Hname.
  assert (∀ cur,
            (occurrences name
               (PyStr.splitlines_from cur (name +:+ PyStr.nl)) ≤ 1)%nat)
    as Hline.
  { intros cur. rewrite splitlines_from_line by done.
    apply (occurrences_length name [_]). }
  induction content as [|c|c c' s IH1 IH2] using string_ind2; intros cur.
  - rewrite string_app_nil. specialize (Hline cur). lia.
  - rewrite string_app_cons, string_app_nil.
    destruct (linebreak_cases c) as [->|[[Hc Hb]|Hb]].
    + rewrite splitlines_from_CR_end. destruct name as [|c' name].
      * rewrite string_app_nil. unfold PyStr.nl.
        rewrite splitlines_from_CR_LF, splitlines_from_nil. simpl. lia.
      * simpl in Hname. apply orb_false_elim in Hname as [Hc' Hname].
        rewrite string_app_cons, splitlines_from_CR.
        -- rewrite <- string_app_cons, !occurrences_cons.
           change (occurrences (String c' name) []) with 0%nat.
           specialize (Hline ""). lia.
        -- intros ->. by rewrite is_linebreak_LF in Hc'.
    + rewrite !(splitlines_from_break _ c), !occurrences_cons by done.
      specialize (Hline ""). lia.
    + rewrite splitlines_from_char by done.
      specialize (Hline (cur +:+ String c "")). lia.
  - rewrite !string_app_cons.
    destruct (linebreak_cases c) as [->|[[Hc Hb]|Hb]].
    + destruct (decide (c' = PyStr.LF)) as [->|Hc'].
      * rewrite !splitlines_from_CR_LF, !occurrences_cons.
        specialize (IH1 ""). lia.
      * rewrite !(splitlines_from_CR _ c'), !occurrences_cons by done.
        specialize (IH2 ""). rewrite string_app_cons in IH2. lia.
    + rewrite !(splitlines_from_break _ c), !occurrences_cons by done.
      specialize (IH2 ""). rewrite string_app_cons in IH2. lia.
    + rewrite !(splitlines_from_char _ c) by done.
      specialize (IH2 (cur +:+ String c "")).
      by rewrite string_app_cons in IH2.
Qed.

(** ** C3: the registry of packages *)

Lemma registry_lines_append name content :
  name ∉ registry_lines content →
  (occurrences name (registry_lines (content +:+ name +:+ PyStr.nl)) ≤ 1)%nat.
Proof.
  unfold registry_lines, PyStr.splitlines. rewrite !splitlines_from_translate.
  intros Habsent%occurrences_absent.
  destruct (has_linebreak name) eqn:Hname.
  - rewrite occurrences_absent; [lia|]. intros Hin.
    apply splitlines_from_nobreak in Hin; [congruence|done].
  - pose proof (occurrences_append name content Hname "") as Happ. lia.
Qed.

Lemma new_events_log (w w' : World) evs :
  w_log w' = w_log w ++ evs → new_events w w' = evs.
Proof. intros H. unfold new_events. by rewrite H, drop_app_length. Qed.

(** What one invocation does to the files, whatever the environment: nothing,
    or the name and a newline appended to a registry that has no such line. *)
Lemma register_package_step env config_type_path name w :
  let registry := resolve (w_cwd w) (config_type_path // "packages.txt") in
  let run := exec env (register_package config_type_path name) w in
  w_cwd run.2 = w_cwd w ∧
  (w_fs run.2 = w_fs w ∨
   ∃ content,
     w_fs w !! registry = Some (File content) ∧
     (name ∉ registry_lines content) ∧
     w_fs run.2 =
       <[registry := File (content +:+ name +:+ PyStr.nl)]> (w_fs w)).
Proof.
  intros registry run. subst run. unfold register_package.
  set (file := config_type_path // "packages.txt") in *.
  (* f.read() *)
  rewrite exec_bind, exec_perform.
  pose proof (step_ReadText env file w) as [Hfs1 Hread].
  pose proof (step_cwd env (ReadText file) w eq_refl) as Hcwd1.
  destruct (step env (ReadText file) w) as [[e|text] w1]; cbn [fst snd] in *.
  { split; [done|by left]. }
  destruct (Hread text eq_refl) as (content & Hsrc & ->). fold registry in Hsrc.
  case_decide as Hknown.
  { unfold print. rewrite exec_perform.
    rewrite step_cwd, step_Print by done. split; [done|]. left. congruence. }
  (* print *)
  rewrite exec_bind. unfold print. rewrite exec_perform.
  set (notice := (name +:+
                  " is not yet configured for this config type, adding.")
                 +:+ PyStr.nl).
  pose proof (step_Print env notice w1) as Hfs2.
  pose proof (step_cwd env (Print notice) w1 eq_refl) as Hcwd2.
  destruct (step env (Print notice) w1) as [[e|[]] w2]; cbn [fst snd] in *.
  { split; [congruence|]. left. congruence. }
  (* open(..., 'a') *)
  rewrite exec_bind, exec_perform.
  pose proof (step_OpenAppend env file w2) as Hfs3.
  pose proof (step_cwd env (OpenAppend file) w2 eq_refl) as Hcwd3.
  rewrite Hcwd2, Hcwd1, Hfs2, Hfs1 in Hfs3. fold registry in Hfs3.
  rewrite Hsrc in Hfs3.
  destruct (step env (OpenAppend file) w2) as [[e|[]] w3]; cbn [fst snd] in *.
  { split; [congruence|]. left. congruence. }
  (* f.write(...) *)
  rewrite exec_perform.
  pose proof (step_Write env file (name +:+ PyStr.nl) w3) as Hfs4.
  pose proof (step_cwd env (Write file (name +:+ PyStr.nl)) w3 eq_refl)
    as Hcwd4.
  rewrite Hcwd3, Hcwd2, Hcwd1, Hfs3 in Hfs4. fold registry in Hfs4.
  destruct (step env (Write file _) w3) as [[e|[]] w4]; cbn [fst snd] in *.
  { split; [congruence|]. left. congruence. }
  destruct Hfs4 as (old & Hold & Hfs4).
  rewrite Hsrc in Hold. injection Hold as <-.
  split; [congruence|]. right. by exists content.
Qed.

(** One invocation leaves the name at most once in a registry that had it
    at most once. *)
Lemma register_package_registered env config_type_path name w :
  let registry := resolve (w_cwd w) (config_type_path // "packages.txt") in
  let run := exec env (register_package config_type_path name) w in
  (registered name registry (w_fs w) ≤ 1)%nat →
  (registered name registry (w_fs run.2) ≤ 1)%nat.
Proof.
  intros registry run Hw.
  destruct (register_package_step env config_type_path name w)
    as [_ [Hfs|(content & Hsrc & Habsent & Hfs)]]; subst run.
  - by rewrite Hfs.
  - unfold registered. rewrite Hfs. subst registry.
    rewrite lookup_insert_eq. by apply registry_lines_append.
Qed.

Lemma invocations_registered envs config_type_path name w :
  let registry := resolve (w_cwd w) (config_type_path // "packages.txt") in
  (registered name registry (w_fs w) ≤ 1)%nat →
  (registered name registry
     (w_fs (invocations envs (register_package config_type_path name) w))
   ≤ 1)%nat.
Proof.
  revert w. induction envs as [|env envs IH]; intros w registry Hw; [done|].
  simpl. subst registry.
  destruct (register_package_step env config_type_path name w) as [Hcwd _].
  simpl in Hcwd. rewrite <- Hcwd. apply IH. rewrite Hcwd.
  by apply register_package_registered.
Qed.

(** C3.  [register_package] (lines 138-146), which every run executes with
    the directory of the template type and the name of the target
    repository.  If the name is a line of the registry file, the files are
    left as they are, whatever the environment, and once the file has been
    read the one call that follows prints the notice that the package is
    updated.  If the name is no line of it and the environment lets the four
    calls through, the notice of adding is printed and the file ends up as
    its content followed by the name and a newline.  And over any number of
    invocations after one another, in any environments, a registry that
    holds the name as a line at most once still holds it at most once. *)
Theorem register_package_spec env config_type_path name w :
  let file := config_type_path // "packages.txt" in
  let registry := resolve (w_cwd w) file in
  let run := exec env (register_package config_type_path name) w in
  (∀ content,
     w_fs w !! registry = Some (File content) →
     name ∈ registry_lines content →
     w_fs run.2 = w_fs w ∧
     (env_fault env (length (w_log w)) = None →
      ∃ reply,
        new_events w run.2 =
          [mkEvent (w_cwd w) (AReadText file)
             (inr (VStr (PyStr.translate_newlines content)));
           mkEvent (w_cwd w)
             (APrint ((name +:+
                       " is already configured for this config type, updating.")
                      +:+ PyStr.nl)) reply])) ∧
  (∀ content,
     w_fs w !! registry = Some (File content) →
     name ∉ registry_lines content →
     no_fault env w 4 →
     run.1 = inr () ∧
     w_fs run.2 =
       <[registry := File (content +:+ name +:+ PyStr.nl)]> (w_fs w) ∧
     new_events w run.2 =
       [mkEvent (w_cwd w) (AReadText file)
          (inr (VStr (PyStr.translate_newlines content)));
        mkEvent (w_cwd w)
          (APrint ((name +:+
                    " is not yet configured for this config type, adding.")
                   +:+ PyStr.nl)) (inr VUnit);
        mkEvent (w_cwd w) (AOpenAppend file) (inr VUnit);
        mkEvent (w_cwd w) (AWrite file (name +:+ PyStr.nl)) (inr VUnit)]) ∧
  (∀ envs,
     (registered name registry (w_fs w) ≤ 1)%nat →
     (registered name registry
        (w_fs (invocations envs (register_package config_type_path name) w))
      ≤ 1)%nat).
Proof.
  intros file registry run. split; [|split].
  - intros content Hsrc Hknown. split.
    { destruct (register_package_step env config_type_path name w)
        as [_ [Hfs|(content' & Hsrc' & Habsent & _)]]; [done|].
      assert (content' = content) as ->
        by (unfold registry, file in Hsrc; congruence).
      done. }
    intros Hok. subst run. unfold register_package. fold file.
    rewrite exec_bind, exec_perform, (step_no_fault env _ w Hok).
    cbn [perform_op]. fold registry. rewrite Hsrc.
    unfold registry_lines in Hknown. rewrite decide_True by done.
    unfold print. rewrite exec_perform.
    eexists. apply new_events_log. rewrite step_log. cbn [w_log w_cwd].
    rewrite <- app_assoc. reflexivity.
  - intros content Hsrc Habsent Hnf. subst run.
    unfold register_package. fold file.
    rewrite exec_bind, exec_perform,
      (step_no_fault env _ w (no_fault_now _ _ _ Hnf)).
    cbn [perform_op]. fold registry. rewrite Hsrc.
    unfold registry_lines in Habsent. rewrite decide_False by done.
    unfold print.
    rewrite exec_bind, exec_perform, step_no_fault; cbn [w_log w_cwd w_fs];
      [|rewrite length_app; apply (Hnf 1%nat); lia].
    cbn [perform_op].
    rewrite exec_bind, exec_perform, step_no_fault; cbn [w_log w_cwd w_fs];
      [|rewrite !length_app, <- Nat.add_assoc; apply (Hnf 2%nat); lia].
    cbn [perform_op]. fold registry. rewrite Hsrc.
    rewrite exec_perform, step_no_fault; cbn [w_log w_cwd w_fs];
      [|rewrite !length_app, <- !Nat.add_assoc; apply (Hnf 3%nat); lia].
    cbn [perform_op]. fold registry. rewrite Hsrc. cbn [fst snd w_fs].
    split; [done|]. split; [done|].
    apply new_events_log. cbn [w_log]. by rewrite <- !app_assoc.
  - intros envs. apply invocations_registered.
Qed.

(** ** C4, C5 and C8: the metadata of a run *)

Lemma resolve_flags_commit_id args commit_id p p' with_pypy legacy :
  resolve_flags args commit_id p = inr (p', with_pypy, legacy) →
  ConfigParser.lookup "commit-id" (meta_items p') = Some commit_id.
Proof.
  intros (p1 & p2 & b1 & b2 & H1 & _ & -> & H2 & _ & -> & H3)%resolve_flags_inv.
  destruct (lookup_meta_items_set "commit-id" "support_legacy_python" _ _ _
              ltac:(done) H3) as [-> _].
  destruct (lookup_meta_items_set "commit-id" "with-pypy" _ _ _
              ltac:(done) H2) as [-> _].
  apply meta_items_set in H1 as (-> & _ & _).
  apply lookup_assign_eq.
Qed.

(** The metadata a run leaves hold the two flags as resolved. *)
Lemma meta_run_stored args config_type commit_id p p' with_pypy legacy :
  meta_run args config_type commit_id p = inr (p', with_pypy, legacy) →
  ConfigParser.lookup "with-pypy" (meta_items p')
    = Some (PyStr.str_bool with_pypy) ∧
  ConfigParser.lookup "support_legacy_python" (meta_items p')
    = Some (PyStr.str_bool legacy).
Proof.
  intros (p0 & p3 & fu & H0 & Hflags & Hdef)%meta_run_inv.
  apply resolve_flags_inv in Hflags
    as (p1 & p2 & b1 & b2 & H1 & _ & _ & H2 & _ & _ & H3).
  rewrite (lookup_meta_items_setdefault "with-pypy" "fail-under" _ _ _ _
             ltac:(done) Hdef).
  rewrite (lookup_meta_items_setdefault "support_legacy_python" "fail-under"
             _ _ _ _ ltac:(done) Hdef).
  split.
  - destruct (lookup_meta_items_set "with-pypy" "support_legacy_python"
                _ _ _ ltac:(done) H3) as [-> _].
    apply meta_items_set in H2 as (-> & _). apply lookup_assign_eq.
  - apply meta_items_set in H3 as (-> & _). apply lookup_assign_eq.
Qed.

Lemma persisted_stored key p b :
  ConfigParser.lookup key (meta_items p) = Some (PyStr.str_bool b) →
  persisted key p b.
Proof.
  intros H. unfold persisted. rewrite lookup_app, H. by destruct b.
Qed.

(** Lines 150-164 when they succeed: the store they start from is the one
    the files give, and the commit they record is the output of git log. *)
Lemma read_meta_exec env args config_type w meta_cfg with_pypy legacy w' :
  exec env (read_meta args config_type) w
    = (inr (meta_cfg, with_pypy, legacy), w') →
  ∃ loaded p0 rc stdout,
    loaded_from env args w loaded ∧
    ConfigParser.set "meta" "template" config_type loaded = inr p0 ∧
    resolve_flags args stdout p0 = inr (meta_cfg, with_pypy, legacy) ∧
    git_log_event (w_cwd w) rc stdout ∈ new_events w w'.
Proof.
  intros Hrun.
  pose proof (exec_trace env (read_meta args config_type) w) as Htrace.
  rewrite Hrun in Htrace. cbn [fst snd] in Htrace.
  revert Hrun. unfold read_meta, loaded_from.
  set (file := Args.path args // ".meta.cfg").
  (* meta_cfg_path.exists() *)
  rewrite exec_bind, exec_perform.
  unfold step at 1.
  destruct (env_fault env (length (w_log w))) as [e|]; [discriminate|].
  cbn [perform_op].
  rewrite exec_bind.
  set (w1 := mkWorld _ _ _).
  (* meta_cfg.read(meta_cfg_path), or the empty section *)
  assert ((∃ loaded w2,
            exec env
              (if bool_decide (is_Some (w_fs w !! resolve (w_cwd w) file))
               then perform (ParserRead file)
               else mret (ConfigParser.setitem_empty "meta" ConfigParser.new))
              w1 = (inr loaded, w2) ∧
            (ConfigParser.getitem "meta" loaded = inl (KeyError "meta") ∨
             match w_fs w !! resolve (w_cwd w) file with
             | Some (File text) =>
                 env_parse env (PyStr.translate_newlines text) = inr loaded
             | Some Dir => False
             | None => loaded = fresh_meta
             end)) ∨
          ∃ e w2, exec env
              (if bool_decide (is_Some (w_fs w !! resolve (w_cwd w) file))
               then perform (ParserRead file)
               else mret (ConfigParser.setitem_empty "meta" ConfigParser.new))
              w1 = (inl e, w2)) as Hload.
  { destruct (w_fs w !! resolve (w_cwd w) file) as [[text|]|] eqn:Hfile.
    - rewrite bool_decide_eq_true_2 by eauto. rewrite exec_perform.
      unfold step. cbn [w_cwd w_fs w1].
      destruct (env_fault env _) as [[]|].
      all: try (right; eexists _, _; reflexivity).
      + left. eexists _, _. split; [reflexivity|]. by left.
      + cbn [perform_op]. rewrite Hfile.
        destruct (env_parse env _) as [e|loaded] eqn:Hparse.
        * right. eexists _, _; reflexivity.
        * left. eexists _, _. split; [reflexivity|]. by right.
    - rewrite bool_decide_eq_true_2 by eauto. rewrite exec_perform.
      unfold step. cbn [w_cwd w_fs w1].
      destruct (env_fault env _) as [[]|].
      all: try (right; eexists _, _; reflexivity).
      + left. eexists _, _. split; [reflexivity|]. by left.
      + cbn [perform_op]. rewrite Hfile.
        left. eexists _, _. split; [reflexivity|]. by left.
    - rewrite bool_decide_eq_false_2 by (by intros [? ?]).
      left. eexists _, _. split; [reflexivity|]. by right. }
  destruct Hload as [(loaded & w2 & -> & Hloaded)|(e & w2 & ->)];
    [|discriminate].
  (* meta_cfg['meta'] and the template *)
  rewrite exec_bind, exec_lift.
  destruct Hloaded as [->|Hloaded]; [discriminate|].
  destruct (ConfigParser.getitem "meta" loaded) as [e|s]; [discriminate|].
  rewrite exec_bind, exec_lift.
  destruct (ConfigParser.set "meta" "template" config_type loaded)
    as [e|p0] eqn:Hset; [discriminate|].
  (* git log and the flags *)
  rewrite exec_bind.
  destruct (exec env (call git_log_command true) w2) as [[e|log] w3];
    [discriminate|].
  rewrite exec_lift. intros [= Hflags <-].
  apply read_meta_trace in Htrace
    as (loaded' & p0' & rc & stdout & Hset' & Hflags' & Hlog & _).
  exists loaded, p0, rc, log.2. do 3 (split; [done|]).
  apply resolve_flags_commit_id in Hflags'.
  pose proof (resolve_flags_commit_id _ _ _ _ _ _ Hflags) as Hid.
  by replace log.2 with stdout by congruence.
Qed.

Section metadata.
Context (str_format : string → list (string * string) → result string).
Context (percent_format : string → list (string * pyval) → result string).
Context (here : Path.t).

(** The registry is another file than the metadata file. *)
Lemma register_package_unaffecting cwd path config_type_path name :
  only (unaffecting cwd (resolve cwd (path // ".meta.cfg")))
    (register_package config_type_path name).
Proof.
  unfold register_package, print. solve_only.
  all: split; [reflexivity|]; split; [done|].
  all: cbn; intros p' Hp'; simplify_eq.
  all: by apply resolve_div_ne.
Qed.

(** A preparation that completes hands over the metadata that lines 157-164
    and 211 make of the store the files give and of the output of git
    log. *)
Lemma prepare_loaded env args w meta_cfg add rm :
  let run := exec env (prepare str_format percent_format here args) w in
  run.1 = inr (meta_cfg, add, rm) →
  ∃ loaded rc stdout with_pypy legacy,
    loaded_from env args w loaded ∧
    meta_run args (config_type_str (Args.type args)) stdout loaded
      = inr (meta_cfg, with_pypy, legacy) ∧
    git_log_event (w_cwd w) rc stdout ∈ new_events w run.2.
Proof.
  intros run. subst run. unfold prepare.
  set (path := Args.path args). set (ct := config_type_str (Args.type args)).
  set (key := resolve (w_cwd w) (path // ".meta.cfg")).
  (* the clone *)
  rewrite exec_bind.
  destruct (exec_unaffecting env (perform (PathExists (path // ".git")))
              (w_cwd w) key) with (w := w) as [Hfs1 Hcwd1]; [|done|].
  { apply only_perform. split; [done|]. split; [done|]. by cbn. }
  destruct (exec env (perform (PathExists (path // ".git"))) w)
    as [[e|git] w1] eqn:E1; cbn [fst snd] in *; [discriminate|].
  apply exec_log_app in E1 as [evs1 Hlog1].
  rewrite exec_bind.
  destruct git; cbn [exec mret Prog_ret]; [|discriminate].
  (* the registry *)
  rewrite exec_bind.
  destruct (exec_unaffecting env _ _ _
              (register_package_unaffecting (w_cwd w) path (here // ct)
                 (Path.name path)) w1 Hcwd1) as [Hfs2 Hcwd2].
  destruct (exec env (register_package (here // ct) (Path.name path)) w1)
    as [[e|[]] w2] eqn:E2; cbn [fst snd] in *; [discriminate|].
  apply exec_log_app in E2 as [evs2 Hlog2].
  (* the metadata *)
  rewrite exec_bind.
  destruct (exec env (read_meta args ct) w2)
    as [[e|[[cfg0 wp] lg]] w3] eqn:E3; cbn [fst snd] in *; [discriminate|].
  pose proof (exec_log_app _ _ _ _ _ E3) as [evs3 Hlog3].
  apply read_meta_exec in E3
    as (loaded & p0 & rc & stdout & Hloaded & Hset & Hflags & Hgit).
  (* the template files *)
  rewrite exec_bind.
  destruct (exec env (copy_templates str_format here path ct) w3)
    as [[e|[add' rm']] w4] eqn:E4; cbn [fst snd] in *; [discriminate|].
  apply exec_log_app in E4 as [evs4 Hlog4].
  (* setup.cfg, tox.ini and tests.yml *)
  rewrite exec_bind.
  destruct (exec env (write_setup_cfg percent_format here path ct lg) w4)
    as [[e|[]] w5] eqn:E5; cbn [fst snd] in *; [discriminate|].
  apply exec_log_app in E5 as [evs5 Hlog5].
  rewrite exec_bind.
  pose proof (exec_trace env
                (write_tox_ini percent_format here path ct cfg0 wp
                   (get_tox_ini_versions (get_supported_versions args))) w5)
    as Htrace6.
  destruct (exec env (write_tox_ini _ _ _ _ _ _ _) w5)
    as [[e|cfg1] w6] eqn:E6; cbn [fst snd] in *; [discriminate|].
  apply exec_log_app in E6 as [evs6 Hlog6].
  apply write_tox_ini_trace in Htrace6 as [fail_under Hdefault].
  rewrite exec_bind.
  destruct (exec env (write_tests_yml _ _ _ _ _) w6)
    as [[e|[]] w7] eqn:E7; cbn [fst snd] in *; [discriminate|].
  apply exec_log_app in E7 as [evs7 Hlog7].
  cbn [exec mret Prog_ret fst snd]. intros [= <- <- <-].
  exists loaded, rc, stdout, wp, lg. split; [|split].
  - unfold loaded_from in *. subst key path.
    rewrite Hcwd2, Hcwd1 in Hloaded. by rewrite Hfs2, Hfs1 in Hloaded.
  - unfold meta_run. rewrite Hset. cbn [mbind result_bind].
    rewrite Hflags. cbn [mbind result_bind]. by rewrite Hdefault.
  - rewrite Hcwd2, Hcwd1 in Hgit.
    rewrite (new_events_log w w7
               (evs1 ++ evs2 ++ evs3 ++ evs4 ++ evs5 ++ evs6 ++ evs7)).
    2: { rewrite Hlog7, Hlog6, Hlog5, Hlog4, Hlog3, Hlog2, Hlog1.
         by rewrite <- !app_assoc. }
    rewrite (new_events_log w2 w3 evs3) in Hgit by done.
    rewrite !elem_of_app. auto.
Qed.

(** What a run writes to the metadata file after the provenance lines is
    the text of the metadata that its preparation handed over. *)
Lemma main_meta_writes env args w :
  let run := exec env (main str_format percent_format here args) w in
  let prepared := exec env (prepare str_format percent_format here args) w in
  Forall (λ ev, ∀ data,
    ev_action ev = AWrite (Path.rel ".meta.cfg") data →
    data = META_HINT (config_type_str (Args.type args)) ∨
    ∃ meta_cfg add rm,
      prepared.1 = inr (meta_cfg, add, rm) ∧
      data = ConfigParser.write meta_cfg ∧
      new_events w prepared.2 `prefix_of` new_events w run.2)
    (new_events w run.2).
Proof.
  intros run prepared. subst run prepared. unfold main.
  rewrite new_events_bind. apply Forall_app. split.
  - pose proof (exec_trace env (prepare str_format percent_format here args) w)
      as Htrace.
    apply (only_trace _ _ _ _ _ _ (prepare_preparing _ _ _ args)) in Htrace.
    eapply Forall_impl; [done|]. intros ev Hev data Hdata.
    apply preparing_inv in Hev as (_ & _ & Hmeta & _).
    by rewrite Hdata in Hmeta.
  - destruct (exec env (prepare str_format percent_format here args) w)
      as [[e|[[meta_cfg add] rm]] w1] eqn:E; [done|].
    cbn [fst snd].
    pose proof (exec_trace env
                  (orchestrate args (config_type_str (Args.type args))
                     meta_cfg add rm) w1) as Htrace.
    apply (only_trace (λ a, ∀ data,
             a = AWrite (Path.rel ".meta.cfg") data →
             data = META_HINT (config_type_str (Args.type args)) ∨
             data = ConfigParser.write meta_cfg)) in Htrace.
    + eapply Forall_impl; [done|]. intros ev Hev data Hdata.
      destruct (Hev data Hdata) as [Hd|Hd]; [by left|right].
      exists meta_cfg, add, rm. do 2 (split; [done|]).
      by apply prefix_app_r.
    + unfold orchestrate, in_repository, remove_legacy_files, write_meta_cfg,
        commit_and_push, print.
      solve_only.
      all: try (apply only_call; by cbn).
      all: cbn; intros data' Hdata'; simplify_eq; auto.
Qed.

(** C4.  When the preparation of a run completes, each of the two flags is
    the value that the metadata loaded from the file .meta.cfg of the target
    hold for it (false where the file or the option is missing) or the flag
    of the command line; the metadata handed over for writing hold the flag
    as resolved, and what the run writes to the metadata file after the
    provenance lines is the text of these metadata.  A flag resolved to true
    is held as True by the metadata of every later run that reads what the
    run before it has written, whatever the command lines of those runs. *)
Theorem flags_sticky env args w meta_cfg add rm :
  let prepared := exec env (prepare str_format percent_format here args) w in
  let run := exec env (main str_format percent_format here args) w in
  prepared.1 = inr (meta_cfg, add, rm) →
  ∃ loaded with_pypy support_legacy_python,
    loaded_from env args w loaded ∧
    (∀ b, persisted "with-pypy" loaded b →
          with_pypy = b || Args.with_pypy args) ∧
    (∀ b, persisted "support_legacy_python" loaded b →
          support_legacy_python = b || Args.support_legacy_python args) ∧
    ConfigParser.lookup "with-pypy" (meta_items meta_cfg)
      = Some (PyStr.str_bool with_pypy) ∧
    ConfigParser.lookup "support_legacy_python" (meta_items meta_cfg)
      = Some (PyStr.str_bool support_legacy_python) ∧
    Forall (λ ev, ∀ data,
      ev_action ev = AWrite (Path.rel ".meta.cfg") data →
      data = META_HINT (config_type_str (Args.type args)) ∨
      data = ConfigParser.write meta_cfg) (new_events w run.2) ∧
    (∀ later, later_run str_format percent_format here meta_cfg later →
       (with_pypy = true →
        ConfigParser.lookup "with-pypy" (meta_items later) = Some "True") ∧
       (support_legacy_python = true →
        ConfigParser.lookup "support_legacy_python" (meta_items later)
          = Some "True")).
Proof.
  intros prepared run Hrun.
  pose proof (main_meta_writes env args w) as Hwrites.
  cbv zeta in Hwrites. fold prepared run in Hwrites.
  apply prepare_loaded in Hrun as Hloaded.
  destruct Hloaded as (loaded & rc & stdout & wp & lg & Hloaded & Hmeta & _).
  exists loaded, wp, lg. split; [done|].
  destruct (meta_run_flags _ _ _ _ _ _ _ Hmeta) as (Hp & Hl & _ & _).
  destruct (meta_run_stored _ _ _ _ _ _ _ Hmeta) as [Hwp Hlg].
  do 4 (split; [done|]). split.
  { eapply Forall_impl; [exact Hwrites|]. intros ev Hev data Hdata.
    destruct (Hev data Hdata) as [Hd|(cfg & a & r & Hcfg & Hd & _)];
      [by left|right].
    rewrite Hrun in Hcfg. by injection Hcfg as <- _ _. }
  intros later Hlater.
  induction Hlater
    as [|env' args' w' ct mid next add' rm' Hmid IH Hfile Hparse Hnext].
  - split; intros ->; done.
  - apply prepare_loaded in Hnext
      as (loaded' & rc' & stdout' & wp' & lg' & Hloaded' & Hmeta' & _).
    unfold loaded_from in Hloaded'. rewrite Hfile, Hparse in Hloaded'.
    injection Hloaded' as <-.
    destruct (meta_run_flags _ _ _ _ _ _ _ Hmeta') as (Hp' & Hl' & _ & _).
    destruct (meta_run_stored _ _ _ _ _ _ _ Hmeta') as [Hwp' Hlg'].
    destruct IH as [IHp IHl]. split.
    + intros Ht. rewrite Hwp'.
      by rewrite (Hp' true (persisted_stored _ _ true (IHp Ht))).
    + intros Ht. rewrite Hlg'.
      by rewrite (Hl' true (persisted_stored _ _ true (IHl Ht))).
Qed.

(** C5.  When the preparation of a run completes, with line 211 in it: if
    the metadata loaded from the file .meta.cfg of the target hold a value
    for fail-under, in the section meta or in the defaults, the metadata
    handed over for writing hold the section's own option and the defaults
    as they were loaded; if they hold none, as for a target without
    metadata file, the section holds the text 0. *)
Theorem fail_under_default env args w meta_cfg add rm :
  let run := exec env (prepare str_format percent_format here args) w in
  run.1 = inr (meta_cfg, add, rm) →
  ∃ loaded,
    loaded_from env args w loaded ∧
    match ConfigParser.lookup "fail-under"
            (meta_items loaded ++ ConfigParser.defaults loaded) with
    | Some _ =>
        ConfigParser.lookup "fail-under" (meta_items meta_cfg) =
          ConfigParser.lookup "fail-under" (meta_items loaded) ∧
        ConfigParser.defaults meta_cfg = ConfigParser.defaults loaded
    | None =>
        ConfigParser.lookup "fail-under" (meta_items meta_cfg) = Some "0"
    end.
Proof.
  intros run Hrun.
  apply prepare_loaded in Hrun
    as (loaded & rc & stdout & wp & lg & Hloaded & Hmeta & _).
  exists loaded. split; [done|].
  by apply meta_run_fail_under in Hmeta.
Qed.

(** C8, as amended.  What a run writes to the metadata file after the
    provenance lines is the text of a store that has a section meta.  For a
    target that had no metadata file, the store has no defaults and no other
    section, and the options of meta are template, commit-id, with-pypy,
    support_legacy_python and fail-under, in this order: the legacy flag is
    stored under the key with underscores.  For a target that had a metadata
    file, the sections are those loaded from it, the section meta keeps the
    options it had, its options besides are among these five, and each of
    the five is an option of meta or of the defaults. *)
Theorem meta_keys env args w :
  let run := exec env (main str_format percent_format here args) w in
  Forall (λ ev, ∀ data,
    ev_action ev = AWrite (Path.rel ".meta.cfg") data →
    data = META_HINT (config_type_str (Args.type args)) ∨
    ∃ loaded meta_cfg,
      loaded_from env args w loaded ∧
      data = ConfigParser.write meta_cfg ∧
      "meta" ∈ ConfigParser.keys (ConfigParser.sections meta_cfg) ∧
      (w_fs w !! resolve (w_cwd w) (Args.path args // ".meta.cfg") = None →
       ConfigParser.defaults meta_cfg = [] ∧
       ConfigParser.keys (ConfigParser.sections meta_cfg) = ["meta"] ∧
       ConfigParser.keys (meta_items meta_cfg) = written_keys) ∧
      ConfigParser.keys (ConfigParser.sections meta_cfg) =
        ConfigParser.keys (ConfigParser.sections loaded) ∧
      (∀ k, k ∈ ConfigParser.keys (meta_items loaded) →
            k ∈ ConfigParser.keys (meta_items meta_cfg)) ∧
      (∀ k, k ∈ ConfigParser.keys (meta_items meta_cfg) →
            k ∈ ConfigParser.keys (meta_items loaded) ∨ k ∈ written_keys) ∧
      (∀ k, k ∈ written_keys →
            k ∈ ConfigParser.keys
                  (meta_items meta_cfg ++ ConfigParser.defaults meta_cfg)))
    (new_events w run.2).
Proof.
  intros run.
  eapply Forall_impl; [apply main_meta_writes|].
  intros ev Hev data Hdata.
  destruct (Hev data Hdata) as [Hd|(meta_cfg & add & rm & Hprep & Hd & _)];
    [by left|right].
  apply prepare_loaded in Hprep
    as (loaded & rc & stdout & wp & lg & Hloaded & Hmeta & _).
  exists loaded, meta_cfg. do 2 (split; [done|]).
  destruct (meta_run_keys _ _ _ _ _ _ Hmeta) as (Hfresh & Hsections & Hkeys).
  split.
  { rewrite Hsections. apply lookup_is_Some_keys.
    apply meta_run_inv in Hmeta as (p0 & _ & _ & Hset & _).
    by apply meta_items_set in Hset as (_ & _ & Hsec). }
  split; [|done].
  intros Hfile. apply Hfresh. unfold loaded_from in Hloaded.
  by rewrite Hfile in Hloaded.
Qed.

End metadata.

(** ** The properties on the scenario *)

(** The metadata file of the earlier run holds with-pypy: a run without the
    flag keeps it, and so does every run after it. *)
Lemma flags_sticky_witness :
  (exec Scenario.reading
     (prepare Scenario.str_format Scenario.percent_format Scenario.here
        Scenario.args) Scenario.configured).1
    = inr (Scenario.stored_next, false, false) ∧
  ConfigParser.lookup "with-pypy" (meta_items Scenario.stored_next)
    = Some "True" ∧
  ∀ later,
    later_run Scenario.str_format Scenario.percent_format Scenario.here
      Scenario.stored_next later →
    ConfigParser.lookup "with-pypy" (meta_items later) = Some "True".
Proof.
  assert ((exec Scenario.reading
             (prepare Scenario.str_format Scenario.percent_format
                Scenario.here Scenario.args) Scenario.configured).1
          = inr (Scenario.stored_next, false, false)) as Hrun
    by (vm_compute; reflexivity).
  split; [exact Hrun|].
  pose proof (flags_sticky Scenario.str_format Scenario.percent_format
                Scenario.here Scenario.reading Scenario.args
                Scenario.configured Scenario.stored_next false false) as H.
  cbv zeta in H.
  destruct (H Hrun) as (loaded & wp & lg & Hloaded & Hp & _ & Hwp & _ & _
                        & Hlater).
  assert (loaded = Scenario.stored) as ->.
  { unfold loaded_from in Hloaded. vm_compute in Hloaded.
    injection Hloaded as <-. reflexivity. }
  assert (wp = true) as ->.
  { apply (Hp true). vm_compute. reflexivity. }
  split; [exact Hwp|]. intros later Hl.
  destruct (Hlater later Hl) as [Hkept _]. exact (Hkept eq_refl).
Defined.

(** The threshold of 85 of the earlier run is kept. *)
Lemma fail_under_default_witness :
  (exec Scenario.reading
     (prepare Scenario.str_format Scenario.percent_format Scenario.here
        Scenario.args) Scenario.configured).1
    = inr (Scenario.stored_next, false, false) ∧
  ConfigParser.lookup "fail-under" (meta_items Scenario.stored_next)
    = Some "85".
Proof.
  assert ((exec Scenario.reading
             (prepare Scenario.str_format Scenario.percent_format
                Scenario.here Scenario.args) Scenario.configured).1
          = inr (Scenario.stored_next, false, false)) as Hrun
    by (vm_compute; reflexivity).
  split; [exact Hrun|].
  pose proof (fail_under_default Scenario.str_format Scenario.percent_format
                Scenario.here Scenario.reading Scenario.args
                Scenario.configured Scenario.stored_next false false) as H.
  cbv zeta in H.
  destruct (H Hrun) as (loaded & Hloaded & Hkept).
  assert (loaded = Scenario.stored) as ->.
  { unfold loaded_from in Hloaded. vm_compute in Hloaded.
    injection Hloaded as <-. reflexivity. }
  assert (ConfigParser.lookup "fail-under"
            (meta_items Scenario.stored ++
             ConfigParser.defaults Scenario.stored) = Some "85") as Hstored
    by (vm_compute; reflexivity).
  rewrite Hstored in Hkept. destruct Hkept as [Hkept _].
  rewrite Hkept. vm_compute. reflexivity.
Defined.

(** The keys that the first run of the scenario writes. *)
Lemma meta_keys_witness :
  Forall (λ ev, ∀ data,
    ev_action ev = AWrite (Path.rel ".meta.cfg") data →
    data = META_HINT (config_type_str (Args.type Scenario.args)) ∨
    ∃ meta_cfg,
      data = ConfigParser.write meta_cfg ∧
      ConfigParser.keys (meta_items meta_cfg) = written_keys)
    (new_events Scenario.world
       (exec Scenario.env
          (main Scenario.str_format Scenario.percent_format Scenario.here
             Scenario.args) Scenario.world).2).
Proof.
  eapply Forall_impl;
    [exact (meta_keys Scenario.str_format Scenario.percent_format
              Scenario.here Scenario.env Scenario.args Scenario.world)|].
  intros ev Hev data Hdata.
  destruct (Hev data Hdata)
    as [Hd|(loaded & meta_cfg & _ & Hd & _ & Hfresh & _)];
    [left; exact Hd|right].
  exists meta_cfg. split; [exact Hd|].
  destruct Hfresh as (_ & _ & Hkeys); [vm_compute; reflexivity|exact Hkeys].
Defined.

(** The original wording of C8 fails on a first run: the metadata of the
    run, and the file it writes, hold support_legacy_python and no
    support-legacy-python. *)
Lemma meta_keys_counterexample :
  meta_run Scenario.args "pure-python" "abc123" fresh_meta
    = inr (Scenario.first, false, false) ∧
  ConfigParser.keys (meta_items Scenario.first) ≠ hyphenated_keys ∧
  ConfigParser.lookup "support-legacy-python" (meta_items Scenario.first)
    = None ∧
  ConfigParser.lookup "support_legacy_python" (meta_items Scenario.first)
    = Some "False" ∧
  let run := exec Scenario.env
               (main Scenario.str_format Scenario.percent_format Scenario.here
                  Scenario.args) Scenario.world in
  run.1 = inr () ∧
  w_fs run.2 !! ["repo"; ".meta.cfg"] = Some (File Scenario.first_file).
Proof.
  split; [vm_compute; reflexivity|]. split; [by vm_compute|].
  split; [vm_compute; reflexivity|]. split; [vm_compute; reflexivity|].
  split; vm_compute; reflexivity.
Qed.

(** With --with-py27 the template of setup.cfg is written with
    universal_wheel 1. *)
Lemma universal_wheel_flag_witness :
  ∃ before template data after,
    Scenario.percent_format template [("universal_wheel", PInt 1)]
      = inr data ∧
    new_events Scenario.world
      (exec Scenario.env
         (prepare Scenario.str_format Scenario.percent_format Scenario.here
            Scenario.args_py27) Scenario.world).2 =
      before ++
      [mkEvent (w_cwd Scenario.world)
         (AReadText (Scenario.here
                     // config_type_str (Args.type Scenario.args_py27)
                     // "setup.cfg"))
         (inr (VStr template));
       mkEvent (w_cwd Scenario.world)
         (AOpenWrite (Args.path Scenario.args_py27 // "setup.cfg"))
         (inr VUnit);
       mkEvent (w_cwd Scenario.world)
         (AWrite (Args.path Scenario.args_py27 // "setup.cfg") data)
         (inr VUnit)] ++ after.
Proof.
  pose proof (universal_wheel_flag Scenario.str_format Scenario.percent_format
                Scenario.here Scenario.env Scenario.args_py27 Scenario.world
                Scenario.first_py27 false false) as H.
  cbv zeta in H.
  destruct H as (loaded & stdout & wp & lg & before & template & data & after
                 & _ & _ & Hcli & _ & Hfmt & Hevs & _).
  { vm_compute; reflexivity. }
  rewrite (Hcli eq_refl) in Hfmt. exists before, template, data, after.
  split; [exact Hfmt|exact Hevs].
Defined.

(** The run of the scenario completes, back in the directory it started in,
    with the name of the repository added to the registry; a second run on
    the files it leaves adds nothing. *)
Example scenario_run :
  let script := main Scenario.str_format Scenario.percent_format Scenario.here
                  Scenario.args in
  let registry := ["meta"; "config"; "pure-python"; "packages.txt"] in
  let run := exec Scenario.env script Scenario.world in
  let again := exec Scenario.again script run.2 in
  run.1 = inr () ∧ w_cwd run.2 = ["meta"] ∧
  w_fs run.2 !! registry
    = Some (File ("foo" +:+ PyStr.nl +:+ "bar" +:+ PyStr.nl +:+
                  "repo" +:+ PyStr.nl)) ∧
  w_fs run.2 !! ["repo"; "setup.cfg"]
    = Some (File ("[bdist_wheel]" +:+ PyStr.nl +:+
                  "universal = 0" +:+ PyStr.nl)) ∧
  again.1 = inr () ∧
  w_fs again.2 !! registry = w_fs run.2 !! registry.
Proof.
  cbv zeta. split; [vm_compute; reflexivity|].
  split; [vm_compute; reflexivity|]. split; [vm_compute; reflexivity|].
  split; [vm_compute; reflexivity|]. split; vm_compute; reflexivity.
Qed.

(** When the test runner fails and the operator answers n, the run exits
    with the return code of the runner, back in the directory it started
    in; there is no metadata file and no call of git commit. *)
Example scenario_declined :
  let run := exec Scenario.failing
               (main Scenario.str_format Scenario.percent_format Scenario.here
                  Scenario.args) Scenario.world in
  run.1 = inl (SystemExit 2) ∧ w_cwd run.2 = ["meta"] ∧
  w_fs run.2 !! ["repo"; ".meta.cfg"] = None ∧
  forallb (λ ev, negb (is_commit (ev_action ev))) (w_log run.2) = true ∧
  existsb (λ ev, is_tox (ev_action ev)) (w_log run.2) = true.
Proof.
  cbv zeta. split; [vm_compute; reflexivity|].
  split; [vm_compute; reflexivity|]. split; [vm_compute; reflexivity|].
  split; vm_compute; reflexivity.
Qed.

(** * Further properties *)

(** ** The snippets of the versions *)

Lemma join_cons (s : string) (l : list string) : join (s :: l) = s +:+ join l.
Proof.
  unfold join. destruct l as [|t l]; simpl.
  - by rewrite string_app_empty_r.
  - done.
Qed.

Lemma pretty_N_go_nobreak x s :
  has_linebreak s = false → has_linebreak (pretty_N_go x s) = false.
Proof.
  revert s. induction (N.lt_wf_0 x) as [x _ IH]; intros s Hs.
  assert (x = 0 ∨ 0 < x)%N as [->|?] by lia.
  - by rewrite pretty_N_go_0.
  - rewrite pretty_N_go_step by done. apply IH.
    { by apply N.div_lt. }
    simpl. rewrite Hs. unfold pretty_N_char. by repeat case_match.
Qed.

(** [str] of an integer holds no line boundary. *)
Lemma str_int_nobreak (n : Z) : has_linebreak (PyStr.str_int n) = false.
Proof.
  assert (∀ p : positive, has_linebreak (pretty (Npos p)) = false) as Hpos.
  { intros p. unfold pretty, pretty_N. rewrite decide_False by done.
    by apply pretty_N_go_nobreak. }
  unfold PyStr.str_int. destruct n as [|p|p]; [done|apply Hpos|].
  change (pretty (Z.neg p)) with ("-" +:+ pretty (Npos p)).
  rewrite has_linebreak_app. by rewrite Hpos.
Qed.

(** A text without line boundary continues the pending line. *)
Lemma splitlines_from_app cur line rest :
  has_linebreak line = false →
  PyStr.splitlines_from cur (line +:+ rest)
  = PyStr.splitlines_from (cur +:+ line) rest.
Proof.
  revert cur. induction line as [|c line IH]; intros cur Hline.
  - by rewrite string_app_nil, string_app_empty_r.
  - simpl in Hline. apply orb_false_elim in Hline as [Hc Hline].
    rewrite string_app_cons, splitlines_from_char, IH by done.
    by rewrite string_app_assoc.
Qed.

(** The lines of a text made of lines that each follow a newline. *)
Lemma splitlines_from_join cur (lines : list string) :
  Forall (λ line, has_linebreak line = false ∧ line ≠ "") lines →
  lines ≠ [] →
  PyStr.splitlines_from cur (join ((λ line, PyStr.nl +:+ line) <$> lines))
  = cur :: lines.
Proof.
  revert cur. induction lines as [|line lines IH]; intros cur Hlines Hne; [done|].
  apply Forall_cons in Hlines as [[Hline Hline'] Hlines].
  rewrite fmap_cons, join_cons. unfold PyStr.nl at 1.
  rewrite string_app_assoc, string_app_cons, string_app_nil.
  rewrite splitlines_from_break by done.
  rewrite splitlines_from_app by done. rewrite string_app_nil.
  destruct lines as [|line' lines].
  - change (join ((λ line, PyStr.nl +:+ line) <$> [])) with "".
    rewrite splitlines_from_nil. by rewrite decide_False by done.
  - by rewrite IH.
Qed.

Lemma tox_ini_line_plain v :
  has_linebreak (tox_ini_line v) = false ∧ tox_ini_line v ≠ "".
Proof.
  split; [|done]. unfold tox_ini_line.
  by rewrite !has_linebreak_app, !str_int_nobreak.
Qed.

Lemma test_matrix_line_plain v :
  has_linebreak (test_matrix_line v) = false ∧ test_matrix_line v ≠ "".
Proof.
  split; [|done]. unfold test_matrix_line.
  by rewrite !has_linebreak_app, !str_int_nobreak.
Qed.

(** X1.  The snippet for tox.ini is empty for no version; otherwise its
    lines are an empty line, which closes the line of the template the
    snippet is put on, and one line per version, in the order of the
    versions: four blanks, py, the major and the minor number, a comma. *)
Theorem get_tox_ini_versions_lines (versions : list (Z * Z)) :
  PyStr.splitlines (get_tox_ini_versions versions) =
    match versions with
    | [] => []
    | _ => "" :: (tox_ini_line <$> versions)
    end.
Proof.
  destruct versions as [|v versions]; [done|].
  unfold get_tox_ini_versions, PyStr.splitlines.
  rewrite <- list_fmap_compose.
  rewrite <- (splitlines_from_join "" (tox_ini_line <$> v :: versions)).
  - f_equal. rewrite <- list_fmap_compose. f_equal.
    apply list_fmap_ext. intros i [major minor] _. unfold tox_ini_line. simpl.
    by rewrite !string_app_assoc.
  - apply Forall_fmap, Forall_forall. intros x _. apply tox_ini_line_plain.
  - done.
Qed.

(** X2.  The snippet for the test matrix is empty for no version; otherwise
    its lines are an empty line and one row per version, in the order of
    the versions: the version with a dot and the name of the environment,
    each in double quotes. *)
Theorem get_test_matrix_versions_lines (versions : list (Z * Z)) :
  PyStr.splitlines (get_test_matrix_versions versions) =
    match versions with
    | [] => []
    | _ => "" :: (test_matrix_line <$> versions)
    end.
Proof.
  destruct versions as [|v versions]; [done|].
  unfold get_test_matrix_versions, PyStr.splitlines.
  rewrite <- list_fmap_compose.
  rewrite <- (splitlines_from_join "" (test_matrix_line <$> v :: versions)).
  - f_equal. rewrite <- list_fmap_compose. f_equal.
    apply list_fmap_ext. intros i [major minor] _. unfold test_matrix_line.
    simpl. by rewrite !string_app_assoc.
  - apply Forall_fmap, Forall_forall. intros x _. apply test_matrix_line_plain.
  - done.
Qed.

(** ** [call] *)

(** The answers that override a failure are y and Y. *)
Lemma lower_y (answer : string) :
  PyStr.lower answer = "y" ↔ answer = "y" ∨ answer = "Y".
Proof.
  split.
  - destruct answer as [|c [|c' s]]; [done| |done].
    intros H. injection H as H.
    destruct c as [[] [] [] [] [] [] [] []]; vm_compute in H;
      first [discriminate H | by left | by right].
  - by intros [-> | ->].
Qed.

Section call.
Context (env : Env).

(** X3.  In every environment: when [call] returns, it returns the return
    code and the output of the child process; the code is 0 and the child
    process is the only call made, or the code is not 0, the two lines of
    the prompt were printed and the operator typed y or Y.  The working
    directory is the one of the start. *)
Theorem call_returns args capture_output w result :
  let run := exec env (call args capture_output) w in
  run.1 = inr result →
  w_cwd run.2 = w_cwd w ∧
  let child := mkEvent (w_cwd w) (ASubprocessRun args capture_output)
                 (inr (VProc result.1 result.2)) in
  (result.1 = 0 ∧ new_events w run.2 = [child]) ∨
  (result.1 ≠ 0 ∧
   ∃ answer,
     (answer = "y" ∨ answer = "Y") ∧
     new_events w run.2 =
       [child;
        mkEvent (w_cwd w) (APrint ABORTING) (inr VUnit);
        mkEvent (w_cwd w) (APrint PROCEED) (inr VUnit);
        mkEvent (w_cwd w) AInput (inr (VStr answer))]).
Proof.
  intros run Hrun.
  pose proof (exec_trace env (call args capture_output) w) as Htrace.
  fold run in Htrace. rewrite Hrun in Htrace.
  apply call_trace in Htrace as [Hcall Hcwd]. split; [done|]. simpl.
  inversion Hcall; subst.
  - left. by split.
  - right. split; [done|]. exists answer. split; [by apply lower_y|done].
Qed.

(** X4.  When no call fails, the child process returns a code other than 0
    and the operator types anything but y or Y, [call] raises [SystemExit]
    with that code, after the child process, the two lines of the prompt and
    the reading of the answer; the files are as the child process left
    them. *)
Theorem call_declined_exits args capture_output w returncode stdout fs answer :
  no_fault env w 4 →
  env_subprocess env (length (w_log w)) args (w_cwd w) (w_fs w)
    = (returncode, stdout, fs) →
  returncode ≠ 0 →
  env_input env (length (w_log w) + 3) = answer →
  answer ≠ "y" → answer ≠ "Y" →
  let run := exec env (call args capture_output) w in
  run.1 = inl (SystemExit returncode) ∧
  w_fs run.2 = fs ∧ w_cwd run.2 = w_cwd w ∧
  new_events w run.2 =
    [mkEvent (w_cwd w) (ASubprocessRun args capture_output)
       (inr (VProc returncode stdout));
     mkEvent (w_cwd w) (APrint ABORTING) (inr VUnit);
     mkEvent (w_cwd w) (APrint PROCEED) (inr VUnit);
     mkEvent (w_cwd w) AInput (inr (VStr answer))].
Proof.
  intros Hnf Hchild Hrc Hinput Hy HY run. subst run.
  assert (PyStr.lower answer ≠ "y") as Hlower.
  { intros [?|?]%lower_y; done. }
  unfold call, print.
  rewrite exec_bind, exec_perform, (step_no_fault env _ w (no_fault_now _ _ _ Hnf)).
  cbn [perform_op]. rewrite Hchild. cbn [fst snd].
  rewrite exec_bind, decide_True by done.
  rewrite exec_bind, exec_perform, step_no_fault; cbn [w_log w_cwd w_fs];
    [|rewrite length_app; apply (Hnf 1%nat); lia].
  cbn [perform_op].
  rewrite exec_bind, exec_perform, step_no_fault; cbn [w_log w_cwd w_fs];
    [|rewrite !length_app, <- Nat.add_assoc; apply (Hnf 2%nat); lia].
  cbn [perform_op].
  rewrite exec_bind, exec_perform, step_no_fault; cbn [w_log w_cwd w_fs];
    [|rewrite !length_app, <- !Nat.add_assoc; apply (Hnf 3%nat); lia].
  cbn [perform_op]. rewrite !length_app, <- !Nat.add_assoc. simpl length.
  simpl Nat.add. rewrite Hinput, decide_True by done.
  cbn [exec fst snd w_fs w_cwd]. do 3 (split; [done|]).
  apply new_events_log. cbn [w_log]. by rewrite <- !app_assoc.
Qed.

End call.

(** ** A path that is no clone *)

Section clone.
Context (str_format : string → list (string * string) → result string).
Context (percent_format : string → list (string * pyval) → result string).
Context (here : Path.t).

(** X5.  When the target path holds no .git, the run raises [ValueError]
    after the one test for it: no file is read or written, the registry is
    left as it is. *)
Theorem not_a_clone env args w :
  env_fault env (length (w_log w)) = None →
  w_fs w !! resolve (w_cwd w) (Args.path args // ".git") = None →
  let run := exec env (main str_format percent_format here args) w in
  run.1 = inl (ValueError
                 "The `path` has to point to a git clone of a repository") ∧
  w_fs run.2 = w_fs w ∧ w_cwd run.2 = w_cwd w ∧
  new_events w run.2 =
    [mkEvent (w_cwd w) (APathExists (Args.path args // ".git"))
       (inr (VBool false))].
Proof.
  intros Hok Hgit run. subst run. unfold main, prepare.
  rewrite !exec_bind, exec_perform, (step_no_fault env _ w Hok).
  cbn [perform_op]. rewrite Hgit.
  rewrite bool_decide_eq_false_2 by (by intros [? ?]).
  cbn [exec fst snd w_fs w_cwd]. do 3 (split; [done|]).
  by apply new_events_log.
Qed.

End clone.

(** ** git push *)

(** Unfold the script down to its calls. *)
Ltac unfold_script :=
  unfold main, orchestrate, in_repository, commit_and_push, write_meta_cfg,
    remove_legacy_files, prepare, register_package, read_meta, copy_templates,
    write_setup_cfg, write_tox_ini, write_tests_yml, print.

Section push.
Context (str_format : string → list (string * string) → result string).
Context (percent_format : string → list (string * pyval) → result string).
Context (here : Path.t).

(** X6.  With --no-push, no call of a run is git push, whatever the
    environment answers. *)
Theorem no_push_never_pushes env args w :
  Args.no_push args = true →
  let run := exec env (main str_format percent_format here args) w in
  Forall (λ ev, is_push (ev_action ev) = false) (new_events w run.2).
Proof.
  intros Hno_push run.
  apply (only_trace (λ a, is_push a = false)
           (main str_format percent_format here args) (w_cwd w) run.1
           (new_events w run.2) (w_cwd run.2)); [|apply exec_trace].
  unfold_script. rewrite Hno_push. solve_only.
  all: try (apply only_call; reflexivity).
  all: try (apply only_copy_with_meta; intros; reflexivity).
  all: reflexivity.
Qed.

End push.

(** ** Where the calls of a run are made *)

Lemma in_repository_inside args config_type branch_name cwd meta_cfg add rm :
  in_repository args config_type branch_name cwd meta_cfg add rm =
  (perform (ChDir (Args.path args));;
   inside_repository args config_type branch_name cwd meta_cfg add rm).
Proof. reflexivity. Qed.

Lemma inside_repository_stays args config_type branch_name cwd meta_cfg add rm :
  only (λ a, is_chdir a = false)
    (inside_repository args config_type branch_name cwd meta_cfg add rm).
Proof.
  unfold inside_repository, remove_legacy_files, write_meta_cfg,
    commit_and_push, print.
  solve_only.
  all: try (apply only_call; reflexivity).
  all: reflexivity.
Qed.

Section located.
Context (str_format : string → list (string * string) → result string).
Context (percent_format : string → list (string * pyval) → result string).
Context (here : Path.t).

(** The calls of a run: those of the preparation, made in the directory of
    the start; then [os.getcwd()], the two [os.chdir] and, between these,
    the calls of the work in the target repository, made in that
    directory. *)
Lemma main_located (Q1 : action → Prop)
    (Q2 : ConfigParser.t → bool → bool → action → Prop) args cwd out evs cwd' :
  only Q1 (prepare str_format percent_format here args) →
  (∀ meta_cfg add rm,
     only (Q2 meta_cfg add rm)
       (inside_repository args (config_type_str (Args.type args))
          ("config-with-" +:+ config_type_str (Args.type args))
          (Path.mk true cwd) meta_cfg add rm)) →
  trace (main str_format percent_format here args) cwd out evs cwd' →
  ∃ evsP evsR,
    evs = evsP ++ evsR ∧
    Forall (λ ev, ev_cwd ev = cwd ∧ Q1 (ev_action ev)) evsP ∧
    (evsR = [] ∨
     ∃ meta_cfg add rm,
       trace (prepare str_format percent_format here args) cwd
         (inr (meta_cfg, add, rm)) evsP cwd ∧
       Forall (λ ev,
         is_getcwd (ev_action ev) = true ∨ is_chdir (ev_action ev) = true ∨
         (Q2 meta_cfg add rm (ev_action ev) ∧
          ev_cwd ev = resolve cwd (Args.path args))) evsR).
Proof.
  intros HQ1 HQ2 H.
  pose proof (prepare_preparing str_format percent_format here args) as Hprep.
  assert (∀ a, preparing a = true → is_chdir a = false) as Hchdir.
  { intros a. unfold preparing. by destruct (is_chdir a). }
  assert (∀ r evsP cwdP,
            trace (prepare str_format percent_format here args) cwd r evsP cwdP →
            cwdP = cwd ∧
            Forall (λ ev, ev_cwd ev = cwd ∧ Q1 (ev_action ev)) evsP) as HP.
  { intros r evsP cwdP HtP.
    destruct (only_trace_cwd (λ a, preparing a = true) _ _ _ _ _ Hchdir Hprep HtP)
      as [-> Hc].
    split; [done|].
    pose proof (only_trace Q1 _ _ _ _ _ HQ1 HtP) as Hq.
    rewrite Forall_forall in Hc, Hq. apply Forall_forall. intros ev Hev. auto. }
  unfold main in H.
  apply trace_bind in H
    as [(e & -> & H)|([[meta_cfg add] rm] & evsP & evsO & cwd1 & -> & H1 & H)].
  { exists evs, []. rewrite app_nil_r. split; [done|].
    split; [by apply HP in H as [_ ?]|by left]. }
  destruct (HP _ _ _ H1) as [-> HevsP].
  exists evsP, evsO. split; [done|]. split; [done|]. right.
  exists meta_cfg, add, rm. split; [done|].
  unfold orchestrate in H.
  apply trace_bind in H as [(e & -> & H)|(p & evsg & evs3 & cwd2 & -> & Hg & H)].
  { apply trace_perform in H as (_ & -> & _).
    apply Forall_cons_2; [by left|apply Forall_nil_2]. }
  apply trace_perform in Hg as (Hp & -> & ->). simpl in Hp. subst p.
  apply Forall_app. split; [apply Forall_cons_2; [by left|apply Forall_nil_2]|].
  cbn [next_cwd action_of] in H.
  apply trace_try_finally in H
    as (out1 & evsB & cwdB & out2 & evsF & -> & HB & HF & _).
  apply trace_perform in HF as (_ & -> & _).
  apply Forall_app.
  split; [|apply Forall_cons_2; [by right; left|apply Forall_nil_2]].
  rewrite in_repository_inside in HB.
  apply trace_bind in HB
    as [(e & -> & HB)|([] & evsC & evsI & cwdI & -> & HC & HI)].
  { apply trace_perform in HB as (_ & -> & _).
    apply Forall_cons_2; [by right; left|apply Forall_nil_2]. }
  apply trace_perform in HC as (_ & -> & ->).
  apply Forall_app.
  split; [apply Forall_cons_2; [by right; left|apply Forall_nil_2]|].
  cbn [next_cwd action_of reply_of] in HI.
  destruct (only_trace_cwd (λ a, is_chdir a = false) _ _ _ _ _
              (λ a Ha, Ha) (inside_repository_stays _ _ _ _ _ _ _) HI)
    as [_ Hc].
  pose proof (only_trace _ _ _ _ _ _ (HQ2 meta_cfg add rm) HI) as Hq.
  rewrite Forall_forall in Hc, Hq. apply Forall_forall. intros ev Hev.
  right. right. split; [by apply Hq|by apply Hc].
Qed.

End located.

Lemma below_refl p : below p p.
Proof. by split. Qed.

Lemma below_div root p s : below root p → below root (p // s).
Proof.
  intros [Habs Hparts]. split; [done|].
  unfold Path.div. simpl. by apply prefix_app_r.
Qed.

Lemma resolve_below cwd root p :
  below root p → resolve cwd root `prefix_of` resolve cwd p.
Proof.
  intros [Habs Hparts]. unfold resolve. rewrite Habs.
  destruct (Path.absolute root); [done|]. by apply prefix_app.
Qed.

Lemma resolve_rel cwd p s :
  resolve (resolve cwd p) (Path.rel s) = resolve cwd (p // s).
Proof.
  unfold resolve, Path.rel, Path.div. simpl.
  destruct (Path.absolute p); [done|]. by rewrite app_assoc.
Qed.

Section places.
Context (str_format : string → list (string * string) → result string).
Context (percent_format : string → list (string * pyval) → result string).
Context (here : Path.t).

(** X7.  In every run, the test runner is bin/tox -p auto of the directory
    of the start, and it runs in the target repository. *)
Theorem tests_run_in_target env args w :
  let run := exec env (main str_format percent_format here args) w in
  Forall (λ ev,
    is_tox (ev_action ev) = true →
    ev_action ev = ASubprocessRun (tox_command (Path.mk true (w_cwd w))) false ∧
    ev_cwd ev = resolve (w_cwd w) (Args.path args)) (new_events w run.2).
Proof.
  intros run. apply Forall_forall. intros ev Hev Htox.
  pose proof (exec_trace env (main str_format percent_format here args) w)
    as Htrace.
  apply (main_located _ _ _
           (λ a, preparing a = true)
           (λ _ _ _ a, is_tox a = true →
              a = ASubprocessRun (tox_command (Path.mk true (w_cwd w))) false))
    in Htrace as (evsP & evsR & Hevs & HP & HR).
  - fold run in Hevs. rewrite Hevs in Hev.
    apply elem_of_app in Hev as [Hev|Hev].
    + rewrite Forall_forall in HP.
      destruct (HP ev Hev) as [_ (_ & _ & _ & _ & Hno)%preparing_inv].
      congruence.
    + destruct HR as [->|(meta_cfg & add & rm & _ & HR)];
        [by apply elem_of_nil in Hev|].
      rewrite Forall_forall in HR.
      destruct (HR ev Hev) as [Hg|[Hc|[Hq Hcwd]]]; [| |by split; [apply Hq|]].
      * by destruct (ev_action ev).
      * by destruct (ev_action ev).
  - apply prepare_preparing.
  - intros meta_cfg add rm.
    unfold inside_repository, remove_legacy_files, write_meta_cfg,
      commit_and_push, print.
    solve_only.
    all: try (apply only_call; by cbn).
    all: by cbn.
Qed.

(** X8.  In every run, the calls that open or write the metadata file write
    the file .meta.cfg of the target path, the file the preparation reads
    the metadata from. *)
Theorem metadata_file_location env args w :
  let run := exec env (main str_format percent_format here args) w in
  Forall (λ ev,
    is_meta_write (ev_action ev) = true →
    ∃ p, written_path (ev_action ev) = Some p ∧
         resolve (ev_cwd ev) p
         = resolve (w_cwd w) (Args.path args // ".meta.cfg"))
    (new_events w run.2).
Proof.
  intros run. apply Forall_forall. intros ev Hev Hmeta.
  pose proof (exec_trace env (main str_format percent_format here args) w)
    as Htrace.
  apply (main_located _ _ _
           (λ a, preparing a = true)
           (λ _ _ _ a, is_meta_write a = true →
              written_path a = Some (Path.rel ".meta.cfg")))
    in Htrace as (evsP & evsR & Hevs & HP & HR).
  - fold run in Hevs. rewrite Hevs in Hev.
    apply elem_of_app in Hev as [Hev|Hev].
    + rewrite Forall_forall in HP.
      destruct (HP ev Hev) as [_ (_ & _ & Hno & _)%preparing_inv].
      congruence.
    + destruct HR as [->|(meta_cfg & add & rm & _ & HR)];
        [by apply elem_of_nil in Hev|].
      rewrite Forall_forall in HR.
      destruct (HR ev Hev) as [Hg|[Hc|[Hq Hcwd]]].
      * by destruct (ev_action ev).
      * by destruct (ev_action ev).
      * exists (Path.rel ".meta.cfg"). split; [by apply Hq|].
        rewrite Hcwd. apply resolve_rel.
  - apply prepare_preparing.
  - intros meta_cfg add rm.
    unfold inside_repository, remove_legacy_files, write_meta_cfg,
      commit_and_push, print.
    solve_only.
    all: try (apply only_call; by cbn).
    all: by cbn.
Qed.

(** What the preparation creates or writes: the registry, and paths at or
    below the target path. *)
Lemma prepare_written args :
  only (λ a, ∀ p, written_path a = Some p →
               p = here // config_type_str (Args.type args) // "packages.txt" ∨
               below (Args.path args) p)
    (prepare str_format percent_format here args).
Proof.
  unfold prepare, register_package, read_meta, copy_templates,
    write_setup_cfg, write_tox_ini, write_tests_yml, print.
  solve_only.
  all: try (apply only_call; by cbn).
  all: try (apply only_copy_with_meta; intros; cbn;
            intros p' Hp'; simplify_eq; right;
            repeat apply below_div; apply below_refl).
  all: cbn; intros p' Hp'; simplify_eq.
  all: first [by left | right; repeat apply below_div; apply below_refl].
Qed.

(** X9.  In every run, a file or directory that a call of the script
    creates, opens for writing or writes is the registry of the template
    type, or lies at or below the target path. *)
Theorem writes_stay_in_target env args w :
  let run := exec env (main str_format percent_format here args) w in
  Forall (λ ev, ∀ p,
    written_path (ev_action ev) = Some p →
    resolve (ev_cwd ev) p
    = resolve (w_cwd w)
        (here // config_type_str (Args.type args) // "packages.txt") ∨
    resolve (w_cwd w) (Args.path args) `prefix_of` resolve (ev_cwd ev) p)
    (new_events w run.2).
Proof.
  intros run. apply Forall_forall. intros ev Hev p Hp.
  pose proof (exec_trace env (main str_format percent_format here args) w)
    as Htrace.
  apply (main_located _ _ _ _
           (λ _ _ _ a, ∀ p, written_path a = Some p → p = Path.rel ".meta.cfg")
           _ _ _ _ _ (prepare_written args))
    in Htrace as (evsP & evsR & Hevs & HP & HR).
  - fold run in Hevs. rewrite Hevs in Hev.
    apply elem_of_app in Hev as [Hev|Hev].
    + rewrite Forall_forall in HP. destruct (HP ev Hev) as [-> Hq].
      destruct (Hq p Hp) as [->|Hbelow]; [by left|right].
      by apply resolve_below.
    + destruct HR as [->|(meta_cfg & add & rm & _ & HR)];
        [by apply elem_of_nil in Hev|].
      rewrite Forall_forall in HR.
      destruct (HR ev Hev) as [Hg|[Hc|[Hq Hcwd]]].
      * by destruct (ev_action ev).
      * by destruct (ev_action ev).
      * right. rewrite (Hq p Hp), Hcwd, resolve_rel.
        apply resolve_below, below_div, below_refl.
  - intros meta_cfg add rm.
    unfold inside_repository, remove_legacy_files, write_meta_cfg,
      commit_and_push, print.
    solve_only.
    all: try (apply only_call; by cbn).
    all: cbn; intros p' Hp'; by simplify_eq.
Qed.

End places.

(** ** .coveragerc *)

Section coveragerc.
Context (str_format : string → list (string * string) → result string).
Context (percent_format : string → list (string * pyval) → result string).
Context (here : Path.t).

(** Lines 177-186 never ask for both. *)
Lemma copy_templates_flags path config_type cwd add rm evs cwd' :
  trace (copy_templates str_format here path config_type) cwd (inr (add, rm))
    evs cwd' →
  add = false ∨ rm = false.
Proof.
  unfold copy_templates. intros H.
  apply trace_bind in H as [(e & [=] & _)|([] & evs1 & evs2 & cwd1 & -> & H1 & H)].
  apply trace_bind in H as [(e & [=] & _)|([] & evs3 & evs4 & cwd2 & -> & H2 & H)].
  apply trace_bind in H as [(e & [=] & _)|([] & evs5 & evs6 & cwd3 & -> & H3 & H)].
  apply trace_bind in H as [(e & [=] & _)|([] & evs7 & evs8 & cwd4 & -> & H4 & H)].
  apply trace_bind in H as [(e & [=] & _)|([] & evs9 & evs10 & cwd5 & -> & H5 & H)].
  apply trace_bind in H
    as [(e & [=] & _)|(template & evs11 & evs12 & cwd6 & -> & H6 & H)].
  destruct template.
  - apply trace_bind in H
      as [(e & [=] & _)|([] & evs13 & evs14 & cwd7 & -> & H7 & H)].
    destruct H as (Hret & _). injection Hret as -> ->. by right.
  - apply trace_bind in H
      as [(e & [=] & _)|(stale & evs13 & evs14 & cwd7 & -> & H7 & H)].
    destruct H as (Hret & _). injection Hret as -> ->. by left.
Qed.

Lemma prepare_flags args cwd meta_cfg add rm evs cwd' :
  trace (prepare str_format percent_format here args) cwd
    (inr (meta_cfg, add, rm)) evs cwd' →
  add = false ∨ rm = false.
Proof.
  unfold prepare. intros H.
  apply trace_bind in H as [(e & [=] & _)|(git & evs1 & evs2 & cwd1 & -> & H1 & H)].
  apply trace_bind in H as [(e & [=] & _)|([] & evs3 & evs4 & cwd2 & -> & H2 & H)].
  apply trace_bind in H as [(e & [=] & _)|([] & evs5 & evs6 & cwd3 & -> & H3 & H)].
  apply trace_bind in H
    as [(e & [=] & _)|([[cfg0 wp] lg] & evs7 & evs8 & cwd4 & -> & H4 & H)].
  apply trace_bind in H
    as [(e & [=] & _)|([add' rm'] & evs9 & evs10 & cwd5 & -> & H5 & H)].
  apply trace_bind in H as [(e & [=] & _)|([] & evs11 & evs12 & cwd6 & -> & H6 & H)].
  apply trace_bind in H as [(e & [=] & _)|(cfg1 & evs13 & evs14 & cwd7 & -> & H7 & H)].
  apply trace_bind in H as [(e & [=] & _)|([] & evs15 & evs16 & cwd8 & -> & H8 & H)].
  destruct H as (Hret & _). injection Hret as -> -> ->.
  by apply copy_templates_flags in H5.
Qed.

(** X10.  No run calls both git rm .coveragerc and git add .coveragerc,
    whatever the environment answers. *)
Theorem coveragerc_added_or_removed env args w :
  let run := exec env (main str_format percent_format here args) w in
  Forall (λ ev, ev_action ev ≠ git_rm_coveragerc) (new_events w run.2) ∨
  Forall (λ ev, ev_action ev ≠ git_add_coveragerc) (new_events w run.2).
Proof.
  intros run.
  pose proof (exec_trace env (main str_format percent_format here args) w)
    as Htrace.
  apply (main_located _ _ _
           (λ a, a ≠ git_rm_coveragerc ∧ a ≠ git_add_coveragerc)
           (λ _ add rm a, (a = git_rm_coveragerc → rm = true) ∧
                          (a = git_add_coveragerc → add = true)))
    in Htrace as (evsP & evsR & Hevs & HP & HR).
  - fold run in Hevs. rewrite Hevs.
    assert (Forall (λ ev, ev_action ev ≠ git_rm_coveragerc) evsP ∧
            Forall (λ ev, ev_action ev ≠ git_add_coveragerc) evsP) as [HP1 HP2].
    { split; (eapply Forall_impl; [done|]); by intros ev [_ [? ?]]. }
    destruct HR as [->|(meta_cfg & add & rm & Hprep & HR)].
    { left. by rewrite app_nil_r. }
    apply prepare_flags in Hprep as [-> | ->]; [right|left].
    all: apply Forall_app; split; [done|].
    all: eapply Forall_impl; [done|].
    all: intros ev [Hg|[Hc|[[Hrm Hadd] _]]] Heq.
    all: try (rewrite Heq in *; discriminate).
    + by specialize (Hadd Heq).
    + by specialize (Hrm Heq).
  - unfold prepare, register_package, read_meta, copy_templates,
      write_setup_cfg, write_tox_ini, write_tests_yml, print.
    solve_only.
    all: try (apply only_call; by split).
    all: try (apply only_copy_with_meta; intros; by split).
    all: by split.
  - intros meta_cfg add rm.
    unfold inside_repository, remove_legacy_files, write_meta_cfg,
      commit_and_push, print.
    solve_only.
    all: try (apply only_call; by split).
    all: by split.
Qed.

End coveragerc.

(** ** A run that completes *)

Lemma script_calls_app evs1 evs2 :
  script_calls (evs1 ++ evs2) = script_calls evs1 ++ script_calls evs2.
Proof. unfold script_calls. by rewrite fmap_app, filter_app. Qed.

Lemma script_calls_cons c a r evs :
  is_prompt a = false →
  script_calls (mkEvent c a r :: evs) = a :: script_calls evs.
Proof.
  intros Ha. unfold script_calls. rewrite fmap_cons, filter_cons. simpl.
  by rewrite decide_True by done.
Qed.

Lemma script_calls_call cwd args cap out evs :
  call_outcome cwd args cap out evs →
  script_calls evs = [ASubprocessRun args cap].
Proof. by intros []. Qed.

Lemma trace_bind_ok {A B} (m : Prog A) (f : A → Prog B) cwd b evs cwd' :
  trace (m ≫= f) cwd (inr b) evs cwd' →
  ∃ a evs1 evs2 cwd1,
    evs = evs1 ++ evs2 ∧ trace m cwd (inr a) evs1 cwd1 ∧
    trace (f a) cwd1 (inr b) evs2 cwd'.
Proof. by intros [(e & [=] & _)|H]%trace_bind. Qed.

Lemma trace_perform_ok {X B} (o : op X) (f : X → Prog B) cwd b evs cwd' :
  trace (perform o ≫= f) cwd (inr b) evs cwd' →
  ∃ x evs2,
    evs = mkEvent cwd (action_of o) (reply_of o (inr x)) :: evs2 ∧
    trace (f x) (next_cwd cwd (action_of o) (reply_of o (inr x))) (inr b)
      evs2 cwd'.
Proof.
  intros (x & evs1 & evs2 & cwd1 & -> & H1 & H)%trace_bind_ok.
  apply trace_perform in H1 as (_ & -> & ->). by exists x, evs2.
Qed.

Lemma trace_call_ok {B} args cap (f : Z * string → Prog B) cwd b evs cwd' :
  trace (call args cap ≫= f) cwd (inr b) evs cwd' →
  ∃ r evs1 evs2,
    evs = evs1 ++ evs2 ∧ call_outcome cwd args cap (inr r) evs1 ∧
    trace (f r) cwd (inr b) evs2 cwd'.
Proof.
  intros (r & evs1 & evs2 & cwd1 & -> & H1 & H)%trace_bind_ok.
  apply call_trace in H1 as [H1 ->]. by exists r, evs1, evs2.
Qed.

(** A call that one branch of a conditional makes. *)
Lemma trace_optional_call (c : bool) args cwd evs cwd' :
  trace (if c then call args false;; mret () else mret ()) cwd (inr ())
    evs cwd' →
  cwd' = cwd ∧
  script_calls evs = if c then [ASubprocessRun args false] else [].
Proof.
  destruct c.
  - intros (r & evs1 & evs2 & -> & H1 & (_ & -> & ->))%trace_call_ok.
    split; [done|]. rewrite app_nil_r. by eapply script_calls_call.
  - by intros (_ & -> & ->).
Qed.

Lemma next_cwd_stays cwd a r : is_chdir a = false → next_cwd cwd a r = cwd.
Proof. by destruct a. Qed.

(** A call that returns has run the child process with this answer. *)
Lemma call_outcome_event cwd args cap rc stdout evs :
  call_outcome cwd args cap (inr (rc, stdout)) evs →
  mkEvent cwd (ASubprocessRun args cap) (inr (VProc rc stdout)) ∈ evs.
Proof. intros H. inversion H; subst; by left. Qed.

(** The calls of lines 238-277 when every step succeeds: what the two
    existence tests and git branch answered decides the calls that follow. *)
Lemma in_repository_completed args config_type branch_name cwd0 meta_cfg add rm
    cwd evs cwd' :
  trace (in_repository args config_type branch_name cwd0 meta_cfg add rm)
    cwd (inr ()) evs cwd' →
  ∃ bootstrap travis rc listing,
    mkEvent (resolve cwd (Args.path args))
      (APathExists (Path.rel "bootstrap.py")) (inr (VBool bootstrap)) ∈ evs ∧
    mkEvent (resolve cwd (Args.path args))
      (APathExists (Path.rel ".travis.yml")) (inr (VBool travis)) ∈ evs ∧
    mkEvent (resolve cwd (Args.path args))
      (ASubprocessRun ["git"; "branch"; "--format"; "%(refname:short)"] true)
      (inr (VProc rc listing)) ∈ evs ∧
    script_calls evs =
      completed_calls args config_type branch_name cwd0 meta_cfg
        bootstrap travis add rm listing.
Proof.
  unfold in_repository, remove_legacy_files, write_meta_cfg, commit_and_push,
    print.
  intros H.
  (* os.chdir(path) *)
  apply trace_perform_ok in H as ([] & evs1 & -> & H).
  cbn [next_cwd action_of reply_of value_of] in H.
  (* the files of former set-ups *)
  apply trace_bind_ok in H as ([] & evsL & evs2 & cwd1 & -> & HL & H).
  apply trace_perform_ok in HL as (bootstrap & evsL1 & -> & HL).
  cbn [next_cwd action_of reply_of value_of] in HL.
  apply trace_bind_ok in HL as ([] & evsB & evsL2 & cwd2 & -> & HB & HL).
  apply trace_optional_call in HB as [-> HB].
  apply trace_perform_ok in HL as (travis & evsT & -> & HT).
  cbn [next_cwd action_of reply_of value_of] in HT.
  apply trace_optional_call in HT as [-> HT].
  (* the tests *)
  apply trace_call_ok in H as (tests & evs3 & evs4 & -> & Htox & H).
  apply script_calls_call in Htox.
  (* the metadata file *)
  apply trace_bind_ok in H as ([] & evsM & evs5 & cwd3 & -> & HM & H).
  apply trace_perform_ok in HM as ([] & evsM1 & -> & HM).
  apply trace_perform_ok in HM as ([] & evsM2 & -> & HM).
  apply trace_perform in HM as (_ & -> & ->).
  cbn [next_cwd action_of reply_of value_of] in H.
  (* git *)
  apply trace_call_ok in H as ([rc listing] & evs6 & evs7 & -> & Hbranch & H).
  pose proof (call_outcome_event _ _ _ _ _ _ Hbranch) as Hlisting.
  apply script_calls_call in Hbranch.
  apply trace_bind_ok in H as (updating & evsC & evs8 & cwd4 & -> & HC & H).
  assert (script_calls evsC =
            [ASubprocessRun
               (if bool_decide (branch_name ∈ PyStr.splitlines listing)
                then ["git"; "checkout"; branch_name]
                else ["git"; "checkout"; "-b"; branch_name]) false] ∧
          updating = bool_decide (branch_name ∈ PyStr.splitlines listing))
    as (HC' & ->).
  { simpl in HC. case_decide as Hin.
    - apply trace_call_ok in HC as (r & e1 & e2 & -> & HC & (Hret & -> & ->)).
      rewrite app_nil_r, bool_decide_eq_true_2 by done.
      split; [by eapply script_calls_call|]. by injection Hret.
    - apply trace_call_ok in HC as (r & e1 & e2 & -> & HC & (Hret & -> & ->)).
      rewrite app_nil_r, bool_decide_eq_false_2 by done.
      split; [by eapply script_calls_call|]. by injection Hret. }
  apply trace_call_ok in H as (r1 & evs9 & evs10 & -> & Hadd & H).
  apply script_calls_call in Hadd.
  apply trace_bind_ok in H as ([] & evsR & evs11 & cwd5 & -> & HR & H).
  apply trace_optional_call in HR as [-> HR].
  apply trace_bind_ok in H as ([] & evsA & evs12 & cwd6 & -> & HA & H).
  apply trace_optional_call in HA as [-> HA].
  apply trace_call_ok in H as (r2 & evs13 & evs14 & -> & Hcommit & H).
  apply script_calls_call in Hcommit.
  apply trace_bind_ok in H as ([] & evsP & evs15 & cwd7 & -> & HP & H).
  apply trace_optional_call in HP as [-> HP].
  apply trace_perform_ok in H as ([] & evs16 & -> & H).
  apply trace_perform_ok in H as ([] & evs17 & -> & H).
  assert (script_calls evs17 =
            [APrint ((if bool_decide (branch_name ∈ PyStr.splitlines listing)
                      then "Updated the previously created PR."
                      else "Create a PR, using the URL shown above.")
                     +:+ PyStr.nl)]) as Hlast.
  { destruct (bool_decide _); apply trace_perform in H as (_ & -> & _); done. }
  exists bootstrap, travis, rc, listing.
  split; [find_elem|]. split; [find_elem|]. split; [find_elem|].
  unfold completed_calls.
  repeat first
    [ rewrite script_calls_app
    | rewrite script_calls_cons by done ].
  rewrite HB, HT, Htox, Hbranch, HC', Hadd, HR, HA, Hcommit, HP, Hlast.
  simpl. rewrite <- !app_assoc. by destruct (Args.no_push args).
Qed.

Section completed.
Context (str_format : string → list (string * string) → result string).
Context (percent_format : string → list (string * pyval) → result string).
Context (here : Path.t).

(** X11.  The calls of a run that completes, those of the prompts left
    out: the calls of the preparation; then [os.getcwd()], the calls of
    lines 238-277 in their order (git rm of bootstrap.py and of .travis.yml
    where the existence test in the target answered true, the test runner,
    the metadata file with the metadata the preparation handed over, git
    branch, git checkout of the branch config-with- and the type, with -b
    unless the branch is a line of what git branch printed, git add, git rm
    or git add of .coveragerc as the preparation decided, git commit, git
    push unless --no-push, the closing lines) and the [os.chdir] back. *)
Theorem completed_run env args w :
  let run := exec env (main str_format percent_format here args) w in
  let prepared := exec env (prepare str_format percent_format here args) w in
  let target := resolve (w_cwd w) (Args.path args) in
  run.1 = inr () →
  ∃ meta_cfg add rm evsR bootstrap travis rc listing,
    prepared.1 = inr (meta_cfg, add, rm) ∧
    new_events w run.2 = new_events w prepared.2 ++ evsR ∧
    Forall (λ ev, preparing (ev_action ev) = true) (new_events w prepared.2) ∧
    mkEvent target (APathExists (Path.rel "bootstrap.py"))
      (inr (VBool bootstrap)) ∈ evsR ∧
    mkEvent target (APathExists (Path.rel ".travis.yml"))
      (inr (VBool travis)) ∈ evsR ∧
    mkEvent target
      (ASubprocessRun ["git"; "branch"; "--format"; "%(refname:short)"] true)
      (inr (VProc rc listing)) ∈ evsR ∧
    script_calls evsR =
      AGetCwd ::
      completed_calls args (config_type_str (Args.type args))
        ("config-with-" +:+ config_type_str (Args.type args))
        (Path.mk true (w_cwd w)) meta_cfg bootstrap travis add rm listing ++
      [AChDir (Path.mk true (w_cwd w))].
Proof.
  intros run prepared target. subst run prepared target.
  pose proof (exec_trace env (prepare str_format percent_format here args) w)
    as HtraceP.
  pose proof (only_trace _ _ _ _ _ _ (prepare_preparing _ _ _ args) HtraceP)
    as HP.
  assert (w_cwd (exec env (prepare str_format percent_format here args) w).2
          = w_cwd w) as Hcwd.
  { apply exec_stays.
    eapply only_mono; [|apply (prepare_preparing str_format percent_format here)].
    intros a. unfold preparing. by destruct (is_chdir a). }
  clear HtraceP.
  unfold main. rewrite new_events_bind, exec_bind.
  destruct (exec env (prepare str_format percent_format here args) w)
    as [[e|[[meta_cfg add] rm]] w1]; [discriminate|].
  cbn [fst snd] in *. intros Hrun.
  pose proof (exec_trace env
                (orchestrate args (config_type_str (Args.type args))
                   meta_cfg add rm) w1) as Htrace.
  rewrite Hrun, Hcwd in Htrace.
  set (evs := new_events w1 _) in *. clearbody evs.
  unfold orchestrate in Htrace.
  apply trace_bind in Htrace
    as [(e & [=] & _)|(p & evsg & evs3 & cwd2 & -> & Hg & H)].
  apply trace_perform in Hg as (Hp & -> & ->). simpl in Hp. subst p.
  cbn [next_cwd action_of] in H.
  apply trace_try_finally in H
    as (out1 & evsB & cwdB & out2 & evsF & -> & HB & HF & Hout).
  apply trace_perform in HF as (_ & -> & _).
  destruct out2 as [e|[]]; [discriminate|]. subst out1.
  apply in_repository_completed in HB
    as (bootstrap & travis & rc & listing & Hb & Ht & Hl & Hcalls).
  exists meta_cfg, add, rm. eexists. exists bootstrap, travis, rc, listing.
  split; [done|]. split; [reflexivity|]. split; [done|].
  split; [find_elem|]. split; [find_elem|]. split; [find_elem|].
  cbn [app]. rewrite script_calls_cons, script_calls_app, Hcalls by done.
  by rewrite script_calls_cons by done.
Qed.

End completed.

(** ** The provenance lines *)

(** X12.  For a config type without line boundary, the lines of the hint of
    origin followed by any text are the two provenance lines and then the
    lines of the text. *)
Theorem provenance_lines (config_type body : string) :
  has_linebreak config_type = false →
  PyStr.splitlines (META_HINT config_type +:+ body) =
    "# Generated from:" ::
    ("# https://github.com/gocept/meta/tree/master/config/" +:+ config_type) ::
    PyStr.splitlines body.
Proof.
  intros Hct. unfold META_HINT, PyStr.splitlines.
  rewrite !string_app_assoc.
  rewrite splitlines_from_app by done. unfold PyStr.nl at 1.
  rewrite string_app_cons, string_app_nil, splitlines_from_break by done.
  rewrite splitlines_from_app by done.
  rewrite splitlines_from_app by done.
  rewrite (splitlines_from_app _ config_type) by done.
  unfold PyStr.nl at 1.
  by rewrite string_app_cons, string_app_nil, splitlines_from_break by done.
Qed.

Lemma provenance_lines_witness :
  PyStr.splitlines (META_HINT "pure-python" +:+ "[bdist_wheel]") =
    ["# Generated from:";
     "# https://github.com/gocept/meta/tree/master/config/pure-python";
     "[bdist_wheel]"].
Proof. exact (provenance_lines "pure-python" "[bdist_wheel]" eq_refl). Defined.

(** ** The metadata of a first run *)

Lemma indent_newlines_plain s :
  has_linebreak s = false → ConfigParser.indent_newlines s = s.
Proof.
  induction s as [|c s IH]; [done|]. simpl.
  intros [Hc Hs]%orb_false_elim. rewrite IH by done.
  rewrite decide_False; [done|]. intros ->. by rewrite is_linebreak_LF in Hc.
Qed.

Section first_run.
Context (str_format : string → list (string * string) → result string).
Context (percent_format : string → list (string * pyval) → result string).
Context (here : Path.t).

(** X13.  In a run on a target without metadata file, whatever the
    environment answers, what is written to the metadata file after the
    provenance lines is the section meta with the options template,
    commit-id (the output of the run's git log), with-pypy and
    support_legacy_python (the flags of the command line) and fail-under
    0, one per line, and an empty line. *)
Theorem first_metadata_file env args w :
  let run := exec env (main str_format percent_format here args) w in
  w_fs w !! resolve (w_cwd w) (Args.path args // ".meta.cfg") = None →
  Forall (λ ev, ∀ data,
    ev_action ev = AWrite (Path.rel ".meta.cfg") data →
    data = META_HINT (config_type_str (Args.type args)) ∨
    ∃ rc commit_id,
      git_log_event (w_cwd w) rc commit_id ∈ new_events w run.2 ∧
      data = first_text (config_type_str (Args.type args)) commit_id
               (Args.with_pypy args) (Args.support_legacy_python args))
    (new_events w run.2).
Proof.
  intros run Hfile.
  eapply Forall_impl; [apply main_meta_writes|].
  intros ev Hev data Hdata.
  destruct (Hev data Hdata) as [Hd|(meta_cfg & add & rm & Hprep & Hd & Hpre)];
    [by left|right].
  apply prepare_loaded in Hprep
    as (loaded & rc & stdout & wp & lg & Hloaded & Hmeta & Hgit).
  unfold loaded_from in Hloaded. rewrite Hfile in Hloaded. subst loaded.
  pose proof (meta_run_fresh _ _ _ _ _ Hmeta) as (-> & -> & ->).
  exists rc, stdout. split.
  { destruct Hpre as [k Hk]. fold run in Hk. rewrite Hk.
    apply elem_of_app. by left. }
  rewrite Hd.
  unfold first_text, ConfigParser.write, ConfigParser.write_section. simpl.
  rewrite (indent_newlines_plain (config_type_str _))
    by (by destruct (Args.type args)).
  rewrite !(indent_newlines_plain (PyStr.str_bool _))
    by (by destruct (Args.with_pypy args), (Args.support_legacy_python args)).
  by rewrite !string_app_assoc.
Qed.

End first_run.

Lemma first_metadata_file_witness :
  Forall (λ ev, ∀ data,
    ev_action ev = AWrite (Path.rel ".meta.cfg") data →
    data = META_HINT (config_type_str (Args.type Scenario.args)) ∨
    ∃ rc commit_id,
      git_log_event (w_cwd Scenario.world) rc commit_id ∈
        new_events Scenario.world
          (exec Scenario.env
             (main Scenario.str_format Scenario.percent_format Scenario.here
                Scenario.args) Scenario.world).2 ∧
      data = first_text (config_type_str (Args.type Scenario.args)) commit_id
               (Args.with_pypy Scenario.args)
               (Args.support_legacy_python Scenario.args))
    (new_events Scenario.world
       (exec Scenario.env
          (main Scenario.str_format Scenario.percent_format Scenario.here
             Scenario.args) Scenario.world).2).
Proof.
  apply (first_metadata_file Scenario.str_format Scenario.percent_format
           Scenario.here Scenario.env Scenario.args Scenario.world).
  vm_compute. reflexivity.
Defined.

(** ** A flag that is no boolean *)

(** X14.  When the metadata hold, for with-pypy, a text without percent
    sign that is none of the spellings of a boolean, lines 158-161 raise the
    [ValueError] of the conversion, whatever the command line: the fallback
    serves only for an option that is missing. *)
Theorem flag_not_boolean args commit_id meta_cfg stored value e :
  ConfigParser.set "meta" "commit-id" commit_id meta_cfg = inr stored →
  ConfigParser.lookup "with-pypy"
    (meta_items meta_cfg ++ ConfigParser.defaults meta_cfg) = Some value →
  PyStr.contains "%" value = false →
  ConfigParser.convert_to_boolean value = inl e →
  resolve_flags args commit_id meta_cfg = inl e.
Proof.
  intros Hset Hvalue Hplain Hbool. unfold resolve_flags. rewrite Hset.
  cbn [mbind result_bind].
  apply set_meta_inv in Hset as (sec & Hsec & ->).
  unfold meta_items in Hvalue. rewrite Hsec in Hvalue. simpl in Hvalue.
  unfold ConfigParser.getboolean, ConfigParser.get, ConfigParser.unify_values.
  cbn [ConfigParser.sections ConfigParser.defaults].
  rewrite lookup_assign_eq.
  change (ConfigParser.optionxform "with-pypy") with "with-pypy".
  change (ConfigParser.optionxform "commit-id") with "commit-id".
  rewrite lookup_app, lookup_assign_ne by done.
  rewrite lookup_app in Hvalue. rewrite Hvalue.
  rewrite before_get_plain by done. rewrite Hbool.
  unfold ConfigParser.convert_to_boolean in Hbool.
  destruct (ConfigParser.lookup _ ConfigParser.BOOLEAN_STATES);
    [discriminate|]. by injection Hbool as <-.
Qed.

Lemma flag_not_boolean_witness :
  ∃ e, resolve_flags Scenario.args "abc123"
         (ConfigParser.mk [] [("meta", [("with-pypy", "maybe")])]) = inl e.
Proof.
  eexists.
  apply (flag_not_boolean Scenario.args "abc123"
           (ConfigParser.mk [] [("meta", [("with-pypy", "maybe")])])
           (ConfigParser.mk []
              [("meta", [("with-pypy", "maybe"); ("commit-id", "abc123")])])
           "maybe").
  - reflexivity.
  - reflexivity.
  - reflexivity.
  - reflexivity.
Defined.

(** ** [copy_with_meta] on a failure *)

Section copy_failure.
Context (str_format : string → list (string * string) → result string).

(** X15.  When the source does not exist, [copy_with_meta] raises
    [FileNotFoundError] on its first call: the destination is neither
    created nor emptied. *)
Theorem copy_source_missing env source destination config_type kw w :
  env_fault env (length (w_log w)) = None →
  w_fs w !! resolve (w_cwd w) source = None →
  let run := exec env (copy_with_meta str_format source destination
                         config_type kw) w in
  run.1 = inl (OSError "FileNotFoundError") ∧ w_fs run.2 = w_fs w ∧
  new_events w run.2 =
    [mkEvent (w_cwd w) (AReadText source) (inl (OSError "FileNotFoundError"))].
Proof.
  intros Hok Hsource run. subst run. unfold copy_with_meta.
  rewrite exec_bind, exec_perform, (step_no_fault env _ w Hok).
  cbn [perform_op]. rewrite Hsource. cbn [fst snd w_fs].
  do 2 (split; [done|]). by apply new_events_log.
Qed.

(** X16.  When keyword arguments are given and [str.format] raises on the
    text of the source, [copy_with_meta] raises that exception after it has
    emptied the destination and written the provenance lines: these are
    all the destination then holds. *)
Theorem copy_format_fails env source destination config_type kw w data e :
  no_fault env w 3 →
  w_fs w !! resolve (w_cwd w) source = Some (File data) →
  w_fs w !! resolve (w_cwd w) destination ≠ Some Dir →
  kw ≠ [] →
  str_format (PyStr.translate_newlines data) kw = inl e →
  let run := exec env (copy_with_meta str_format source destination
                         config_type kw) w in
  run.1 = inl e ∧
  w_fs run.2 =
    <[resolve (w_cwd w) destination := File (META_HINT config_type)]> (w_fs w).
Proof.
  intros Hnf Hsource Hdest Hkw Hformat run. subst run. unfold copy_with_meta.
  rewrite exec_bind, exec_perform,
    (step_no_fault env _ w (no_fault_now _ _ _ Hnf)).
  cbn [perform_op]. rewrite Hsource.
  rewrite exec_bind, exec_perform, step_no_fault; cbn [w_log w_cwd w_fs];
    [|rewrite length_app; apply (Hnf 1%nat); lia].
  cbn [perform_op].
  destruct (w_fs w !! resolve (w_cwd w) destination) as [[old|]|] eqn:Hd;
    [|done|].
  all: rewrite exec_bind, exec_perform, step_no_fault; cbn [w_log w_cwd w_fs];
    [|rewrite !length_app, <- Nat.add_assoc; apply (Hnf 2%nat); lia].
  all: cbn [perform_op]; rewrite lookup_insert_eq, insert_insert_eq.
  all: rewrite exec_bind, decide_True by done; rewrite exec_lift, Hformat.
  all: done.
Qed.

End copy_failure.

(** ** The packaging configuration the preparation leaves *)

Section setup_cfg_file.
Context (str_format : string → list (string * string) → result string).
Context (percent_format : string → list (string * pyval) → result string).
Context (here : Path.t).

(** Lines 195-202 when they succeed. *)
Lemma write_setup_cfg_exec env path config_type legacy w w' :
  exec env (write_setup_cfg percent_format here path config_type legacy) w
    = (inr (), w') →
  ∃ template data,
    percent_format template
      [("universal_wheel", PInt (if legacy then 1 else 0))] = inr data ∧
    w_fs w' !! resolve (w_cwd w) (path // "setup.cfg") = Some (File data) ∧
    w_cwd w' = w_cwd w ∧
    w_log w' =
      w_log w ++
      [mkEvent (w_cwd w) (AReadText (here // config_type // "setup.cfg"))
         (inr (VStr template));
       mkEvent (w_cwd w) (AOpenWrite (path // "setup.cfg")) (inr VUnit);
       mkEvent (w_cwd w) (AWrite (path // "setup.cfg") data) (inr VUnit)].
Proof.
  unfold write_setup_cfg.
  set (source := here // config_type // "setup.cfg").
  set (target := path // "setup.cfg").
  (* f_.read() *)
  rewrite exec_bind, exec_perform.
  pose proof (step_cwd env (ReadText source) w eq_refl) as Hcwd1.
  pose proof (step_log env (ReadText source) w) as Hlog1.
  destruct (step env (ReadText source) w) as [[e|template] w1];
    cbn [fst snd] in *; [discriminate|].
  (* open(..., 'w') *)
  rewrite exec_bind, exec_perform.
  pose proof (step_OpenWrite env target w1) as Hfs2.
  pose proof (step_cwd env (OpenWrite target) w1 eq_refl) as Hcwd2.
  pose proof (step_log env (OpenWrite target) w1) as Hlog2.
  destruct (step env (OpenWrite target) w1) as [[e|[]] w2];
    cbn [fst snd] in *; [discriminate|].
  (* setup_cfg % dict(...) *)
  rewrite exec_bind, exec_lift.
  destruct (percent_format template _) as [e|data] eqn:Hformat;
    [discriminate|].
  (* f_.write(...) *)
  rewrite exec_perform.
  pose proof (step_Write env target data w2) as Hfs3.
  pose proof (step_cwd env (Write target data) w2 eq_refl) as Hcwd3.
  pose proof (step_log env (Write target data) w2) as Hlog3.
  destruct (step env (Write target data) w2) as [[e|[]] w3];
    cbn [fst snd] in *; [discriminate|].
  intros [= <-]. exists template, data. split; [done|].
  destruct Hfs3 as (old & Hold & Hfs3).
  rewrite Hfs2, Hcwd2, lookup_insert_eq in Hold. injection Hold as <-.
  rewrite Hcwd2, Hcwd1 in Hfs3. rewrite Hfs3, lookup_insert_eq.
  split; [done|]. split; [congruence|].
  rewrite Hlog3, Hlog2, Hlog1, Hcwd2, Hcwd1, <- !app_assoc. done.
Qed.

End setup_cfg_file.

(** ** Child processes *)

Section children.
Context (str_format : string → list (string * string) → result string).
Context (percent_format : string → list (string * pyval) → result string).
Context (here : Path.t).

(** X18.  In every run, the one child process started in the directory of
    the start is git log; every other child process runs in the target
    repository. *)
Theorem children_run_in_target env args w :
  let run := exec env (main str_format percent_format here args) w in
  Forall (λ ev,
    is_child (ev_action ev) = true →
    (ev_action ev = ASubprocessRun git_log_command true ∧
     ev_cwd ev = w_cwd w) ∨
    (is_git_log (ev_action ev) = false ∧
     ev_cwd ev = resolve (w_cwd w) (Args.path args))) (new_events w run.2).
Proof.
  intros run. apply Forall_forall. intros ev Hev Hchild.
  pose proof (exec_trace env (main str_format percent_format here args) w)
    as Htrace.
  apply (main_located _ _ _
           (λ a, is_child a = true → a = ASubprocessRun git_log_command true)
           (λ _ _ _ a, is_git_log a = false))
    in Htrace as (evsP & evsR & Hevs & HP & HR).
  - fold run in Hevs. rewrite Hevs in Hev.
    apply elem_of_app in Hev as [Hev|Hev].
    + rewrite Forall_forall in HP. destruct (HP ev Hev) as [Hcwd Hq].
      left. split; [by apply Hq|done].
    + destruct HR as [->|(meta_cfg & add & rm & _ & HR)];
        [by apply elem_of_nil in Hev|].
      rewrite Forall_forall in HR.
      destruct (HR ev Hev) as [Hg|[Hc|[Hq Hcwd]]]; [| |by right].
      * by destruct (ev_action ev).
      * by destruct (ev_action ev).
  - unfold prepare, register_package, read_meta, copy_templates,
      write_setup_cfg, write_tox_ini, write_tests_yml, print.
    solve_only.
    all: try (apply only_call; by cbn).
    all: try (apply only_copy_with_meta; intros; by cbn).
    all: by cbn.
  - intros meta_cfg add rm.
    unfold inside_repository, remove_legacy_files, write_meta_cfg,
      commit_and_push, print.
    solve_only.
    all: try (apply only_call; by cbn).
    all: by cbn.
Qed.

(** X19.  When the target is a clone and the template type has no registry
    file, the run raises [FileNotFoundError] on reading it: nothing is
    written, in the registry or in the target. *)
Theorem registry_missing env args w :
  no_fault env w 2 →
  is_Some (w_fs w !! resolve (w_cwd w) (Args.path args // ".git")) →
  w_fs w !! resolve (w_cwd w)
              (here // config_type_str (Args.type args) // "packages.txt")
    = None →
  let run := exec env (main str_format percent_format here args) w in
  run.1 = inl (OSError "FileNotFoundError") ∧
  w_fs run.2 = w_fs w ∧ w_cwd run.2 = w_cwd w ∧
  new_events w run.2 =
    [mkEvent (w_cwd w) (APathExists (Args.path args // ".git"))
       (inr (VBool true));
     mkEvent (w_cwd w)
       (AReadText (here // config_type_str (Args.type args) // "packages.txt"))
       (inl (OSError "FileNotFoundError"))].
Proof.
  intros Hnf Hgit Hregistry run. subst run. unfold main, prepare.
  rewrite !exec_bind, exec_perform,
    (step_no_fault env _ w (no_fault_now _ _ _ Hnf)).
  cbn [perform_op]. rewrite bool_decide_eq_true_2 by done.
  unfold register_package. rewrite !exec_bind. cbn [exec mret Prog_ret].
  rewrite !exec_bind, exec_perform, step_no_fault; cbn [w_log w_cwd w_fs];
    [|rewrite length_app; apply (Hnf 1%nat); lia].
  cbn [perform_op]. rewrite Hregistry. cbn [fst snd w_fs w_cwd].
  do 3 (split; [done|]). apply new_events_log. cbn [w_log].
  by rewrite <- app_assoc.
Qed.

End children.

(** ** Metadata without the section meta *)

(** X20.  When the target has a metadata file in which the parser finds no
    section meta, lines 152-154 raise [KeyError] for meta, before git log
    is called. *)
Theorem metadata_without_section env args config_type w text meta_cfg :
  no_fault env w 2 →
  w_fs w !! resolve (w_cwd w) (Args.path args // ".meta.cfg")
    = Some (File text) →
  env_parse env (PyStr.translate_newlines text) = inr meta_cfg →
  ConfigParser.lookup "meta" (ConfigParser.sections meta_cfg) = None →
  let run := exec env (read_meta args config_type) w in
  run.1 = inl (KeyError "meta") ∧ w_fs run.2 = w_fs w ∧
  new_events w run.2 =
    [mkEvent (w_cwd w) (APathExists (Args.path args // ".meta.cfg"))
       (inr (VBool true));
     mkEvent (w_cwd w) (AParserRead (Args.path args // ".meta.cfg"))
       (inr (VParser meta_cfg))].
Proof.
  intros Hnf Hfile Hparse Hsection run. subst run. unfold read_meta.
  rewrite exec_bind, exec_perform,
    (step_no_fault env _ w (no_fault_now _ _ _ Hnf)).
  cbn [perform_op]. rewrite Hfile.
  rewrite bool_decide_eq_true_2 by done.
  rewrite exec_bind, exec_perform, step_no_fault; cbn [w_log w_cwd w_fs];
    [|rewrite length_app; apply (Hnf 1%nat); lia].
  cbn [perform_op]. rewrite Hfile, Hparse.
  rewrite exec_bind, exec_lift. unfold ConfigParser.getitem.
  rewrite decide_False by done. rewrite Hsection.
  cbn [fst snd w_fs]. do 2 (split; [done|]).
  apply new_events_log. cbn [w_log]. by rewrite <- app_assoc.
Qed.

(** ** The files the preparation leaves *)

(** The value line 211 hands to tox.ini is the one the metadata then give
    for fail-under. *)
Lemma setdefault_get meta_cfg fail_under meta_cfg' :
  ConfigParser.setdefault "meta" "fail-under" "0" meta_cfg
    = inr (fail_under, meta_cfg') →
  ConfigParser.get "meta" "fail-under" meta_cfg' = inr fail_under.
Proof.
  unfold ConfigParser.setdefault. case_match.
  - destruct (ConfigParser.get _ _ _) as [|v] eqn:Hget; [discriminate|].
    by intros [= <- <-].
  - destruct (ConfigParser.set _ _ _ _) as [|p'] eqn:Hset; [discriminate|].
    intros [= <- <-].
    apply set_meta_inv in Hset as (sec & Hsec & ->).
    unfold ConfigParser.get, ConfigParser.unify_values.
    cbn [ConfigParser.sections ConfigParser.defaults].
    rewrite lookup_assign_eq, lookup_app, lookup_assign_eq.
    by apply before_get_plain.
Qed.

Section prepared_files.
Context (str_format : string → list (string * string) → result string).
Context (percent_format : string → list (string * pyval) → result string).
Context (here : Path.t).

(** Lines 206-219 when they succeed. *)
Lemma write_tox_ini_exec env path config_type meta_cfg with_pypy environs
    w meta_cfg' w' :
  exec env (write_tox_ini percent_format here path config_type meta_cfg
              with_pypy environs) w = (inr meta_cfg', w') →
  ∃ template fail_under data,
    ConfigParser.setdefault "meta" "fail-under" "0" meta_cfg
      = inr (fail_under, meta_cfg') ∧
    percent_format template
      [("coverage_report_options", PStr ("--fail-under=" +:+ fail_under));
       ("python_environs", PStr environs);
       ("additional_environs", PStr (if with_pypy then TOX_INI_PYPY else ""))]
      = inr data ∧
    w_fs w' !! resolve (w_cwd w) (path // "tox.ini") = Some (File data) ∧
    w_cwd w' = w_cwd w ∧
    w_log w' =
      w_log w ++
      [mkEvent (w_cwd w) (AReadText (here // config_type // "tox.ini.in"))
         (inr (VStr template));
       mkEvent (w_cwd w) (AOpenWrite (path // "tox.ini")) (inr VUnit);
       mkEvent (w_cwd w) (AWrite (path // "tox.ini") data) (inr VUnit)].
Proof.
  unfold write_tox_ini.
  set (source := here // config_type // "tox.ini.in").
  set (target := path // "tox.ini").
  rewrite exec_bind, exec_perform.
  pose proof (step_cwd env (ReadText source) w eq_refl) as Hcwd1.
  pose proof (step_log env (ReadText source) w) as Hlog1.
  destruct (step env (ReadText source) w) as [[e|template] w1];
    cbn [fst snd] in *; [discriminate|].
  rewrite exec_bind, exec_perform.
  pose proof (step_OpenWrite env target w1) as Hfs2.
  pose proof (step_cwd env (OpenWrite target) w1 eq_refl) as Hcwd2.
  pose proof (step_log env (OpenWrite target) w1) as Hlog2.
  destruct (step env (OpenWrite target) w1) as [[e|[]] w2];
    cbn [fst snd] in *; [discriminate|].
  rewrite exec_bind, exec_lift.
  destruct (ConfigParser.setdefault _ _ _ _) as [e|[fail_under cfg]]
    eqn:Hdefault; [discriminate|].
  rewrite exec_bind, exec_lift.
  destruct (percent_format template _) as [e|data] eqn:Hformat;
    [discriminate|].
  rewrite exec_bind, exec_perform.
  pose proof (step_Write env target data w2) as Hfs3.
  pose proof (step_cwd env (Write target data) w2 eq_refl) as Hcwd3.
  pose proof (step_log env (Write target data) w2) as Hlog3.
  destruct (step env (Write target data) w2) as [[e|[]] w3];
    cbn [fst snd] in *; [discriminate|].
  cbn [exec mret Prog_ret]. intros [= <- <-].
  exists template, fail_under, data. do 2 (split; [done|]).
  destruct Hfs3 as (old & Hold & Hfs3).
  rewrite Hfs2, Hcwd2, lookup_insert_eq in Hold. injection Hold as <-.
  rewrite Hcwd2, Hcwd1 in Hfs3. rewrite Hfs3, lookup_insert_eq.
  split; [done|]. split; [congruence|].
  rewrite Hlog3, Hlog2, Hlog1, Hcwd2, Hcwd1, <- !app_assoc. done.
Qed.

(** Lines 222-233 when they succeed. *)
Lemma write_tests_yml_exec env path with_pypy versions_config w w' :
  exec env (write_tests_yml percent_format here path with_pypy versions_config)
    w = (inr (), w') →
  ∃ template data,
    percent_format template
      [("version_config", PStr versions_config);
       ("additional_config",
        PStr (if with_pypy then TESTS_MATRIX_PYPY else ""))] = inr data ∧
    w_fs w' !! resolve (w_cwd w)
                 (path // ".github" // "workflows" // "tests.yml")
      = Some (File data) ∧
    w_cwd w' = w_cwd w ∧
    w_log w' =
      w_log w ++
      [mkEvent (w_cwd w) (AReadText (here // "default" // "tests.yml.in"))
         (inr (VStr template));
       mkEvent (w_cwd w)
         (AOpenWrite (path // ".github" // "workflows" // "tests.yml"))
         (inr VUnit);
       mkEvent (w_cwd w)
         (AWrite (path // ".github" // "workflows" // "tests.yml") data)
         (inr VUnit)].
Proof.
  unfold write_tests_yml.
  set (source := here // "default" // "tests.yml.in").
  set (target := path // ".github" // "workflows" // "tests.yml").
  rewrite exec_bind, exec_perform.
  pose proof (step_cwd env (ReadText source) w eq_refl) as Hcwd1.
  pose proof (step_log env (ReadText source) w) as Hlog1.
  destruct (step env (ReadText source) w) as [[e|template] w1];
    cbn [fst snd] in *; [discriminate|].
  rewrite exec_bind, exec_perform.
  pose proof (step_OpenWrite env target w1) as Hfs2.
  pose proof (step_cwd env (OpenWrite target) w1 eq_refl) as Hcwd2.
  pose proof (step_log env (OpenWrite target) w1) as Hlog2.
  destruct (step env (OpenWrite target) w1) as [[e|[]] w2];
    cbn [fst snd] in *; [discriminate|].
  rewrite exec_bind, exec_lift.
  destruct (percent_format template _) as [e|data] eqn:Hformat;
    [discriminate|].
  rewrite exec_perform.
  pose proof (step_Write env target data w2) as Hfs3.
  pose proof (step_cwd env (Write target data) w2 eq_refl) as Hcwd3.
  pose proof (step_log env (Write target data) w2) as Hlog3.
  destruct (step env (Write target data) w2) as [[e|[]] w3];
    cbn [fst snd] in *; [discriminate|].
  intros [= <-]. exists template, data. split; [done|].
  destruct Hfs3 as (old & Hold & Hfs3).
  rewrite Hfs2, Hcwd2, lookup_insert_eq in Hold. injection Hold as <-.
  rewrite Hcwd2, Hcwd1 in Hfs3. rewrite Hfs3, lookup_insert_eq.
  split; [done|]. split; [congruence|].
  rewrite Hlog3, Hlog2, Hlog1, Hcwd2, Hcwd1, <- !app_assoc. done.
Qed.

(** A preparation that completes, step by step: the metadata and the flags
    that lines 150-164 resolve, and the worlds between the writes of
    setup.cfg, tox.ini and tests.yml. *)
Lemma prepare_exec env args w meta_cfg add rm :
  (exec env (prepare str_format percent_format here args) w).1
    = inr (meta_cfg, add, rm) →
  ∃ meta_cfg0 with_pypy legacy w4 w5 w6 before,
    ConfigParser.lookup "with-pypy" (meta_items meta_cfg0)
      = Some (PyStr.str_bool with_pypy) ∧
    ConfigParser.lookup "support_legacy_python" (meta_items meta_cfg0)
      = Some (PyStr.str_bool legacy) ∧
    w_cwd w4 = w_cwd w ∧ w_log w4 = w_log w ++ before ∧
    exec env (write_setup_cfg percent_format here (Args.path args)
                (config_type_str (Args.type args)) legacy) w4
      = (inr (), w5) ∧
    exec env (write_tox_ini percent_format here (Args.path args)
                (config_type_str (Args.type args)) meta_cfg0 with_pypy
                (get_tox_ini_versions (get_supported_versions args))) w5
      = (inr meta_cfg, w6) ∧
    exec env (write_tests_yml percent_format here (Args.path args) with_pypy
                (get_test_matrix_versions (get_supported_versions args))) w6
      = (inr (), (exec env (prepare str_format percent_format here args) w).2).
Proof.
  unfold prepare.
  set (path := Args.path args). set (ct := config_type_str (Args.type args)).
  (* the clone *)
  rewrite exec_bind.
  pose proof (exec_stays env (perform (PathExists (path // ".git"))) w
                ltac:(by apply only_perform)) as Hcwd1.
  destruct (exec env (perform (PathExists (path // ".git"))) w)
    as [[e|git] w1] eqn:E1; cbn [fst snd] in *; [discriminate|].
  apply exec_log_app in E1 as [evs1 Hlog1].
  rewrite exec_bind.
  destruct git; cbn [exec mret Prog_ret]; [|discriminate].
  (* the registry *)
  rewrite exec_bind.
  pose proof (register_package_step env (here // ct) (Path.name path) w1)
    as [Hcwd2 _].
  destruct (exec env (register_package (here // ct) (Path.name path)) w1)
    as [[e|[]] w2] eqn:E2; cbn [fst snd] in *; [discriminate|].
  apply exec_log_app in E2 as [evs2 Hlog2].
  (* the metadata *)
  rewrite exec_bind.
  assert (only (λ a, is_chdir a = false) (read_meta args ct)) as Hread.
  { unfold read_meta. solve_only. all: try (apply only_call; reflexivity).
    all: reflexivity. }
  pose proof (exec_stays env _ w2 Hread) as Hcwd3.
  pose proof (exec_trace env (read_meta args ct) w2) as Htrace3.
  destruct (exec env (read_meta args ct) w2)
    as [[e|[[cfg0 wp] lg]] w3] eqn:E3; cbn [fst snd] in *; [discriminate|].
  apply exec_log_app in E3 as [evs3 Hlog3].
  apply read_meta_trace in Htrace3
    as (loaded & p0 & rc & stdout & _ & Hflags & _).
  apply resolve_flags_inv in Hflags
    as (p1 & p2 & b1 & b2 & _ & _ & _ & Hset2 & _ & _ & Hset3).
  (* the template files *)
  rewrite exec_bind.
  assert (only (λ a, is_chdir a = false)
            (copy_templates str_format here path ct)) as Hcopy.
  { unfold copy_templates. solve_only.
    all: try (apply only_copy_with_meta; intros; reflexivity).
    all: reflexivity. }
  pose proof (exec_stays env _ w3 Hcopy) as Hcwd4.
  destruct (exec env (copy_templates str_format here path ct) w3)
    as [[e|[add' rm']] w4] eqn:E4; cbn [fst snd] in *; [discriminate|].
  apply exec_log_app in E4 as [evs4 Hlog4].
  (* setup.cfg, tox.ini and tests.yml *)
  rewrite exec_bind.
  destruct (exec env (write_setup_cfg percent_format here path ct lg) w4)
    as [[e|[]] w5] eqn:E5; cbn [fst snd] in *; [discriminate|].
  rewrite exec_bind.
  destruct (exec env (write_tox_ini _ _ _ _ _ _ _) w5)
    as [[e|cfg1] w6] eqn:E6; cbn [fst snd] in *; [discriminate|].
  rewrite exec_bind.
  destruct (exec env (write_tests_yml _ _ _ _ _) w6)
    as [[e|[]] w7] eqn:E7; cbn [fst snd] in *; [discriminate|].
  cbn [exec mret Prog_ret fst snd]. intros [= <- <- <-].
  exists cfg0, wp, lg, w4, w5, w6, (evs1 ++ evs2 ++ evs3 ++ evs4).
  split.
  { destruct (lookup_meta_items_set "with-pypy" "support_legacy_python"
                _ _ _ ltac:(done) Hset3) as [-> _].
    apply meta_items_set in Hset2 as (-> & _). apply lookup_assign_eq. }
  split.
  { apply meta_items_set in Hset3 as (-> & _). apply lookup_assign_eq. }
  split; [congruence|]. split; [|done].
  rewrite Hlog4, Hlog3, Hlog2, Hlog1. by rewrite <- !app_assoc.
Qed.

End prepared_files.

Section written.
Context (str_format : string → list (string * string) → result string).
Context (percent_format : string → list (string * pyval) → result string).
Context (here : Path.t).

Lemma write_tox_ini_unaffecting cwd path name config_type meta_cfg with_pypy
    environs :
  name ≠ "tox.ini" →
  only (unaffecting cwd (resolve cwd (path // name)))
    (write_tox_ini percent_format here path config_type meta_cfg with_pypy
       environs).
Proof.
  intros Hname. unfold write_tox_ini. solve_only.
  all: split; [reflexivity|]; split; [done|].
  all: cbn; intros p' Hp'; simplify_eq.
  all: by apply resolve_div_ne.
Qed.

Lemma write_tests_yml_unaffecting cwd path name with_pypy versions_config :
  name ≠ "tests.yml" →
  only (unaffecting cwd (resolve cwd (path // name)))
    (write_tests_yml percent_format here path with_pypy versions_config).
Proof.
  intros Hname. unfold write_tests_yml. solve_only.
  all: split; [reflexivity|]; split; [done|].
  all: cbn; intros p' Hp'; simplify_eq.
  all: by apply resolve_div_ne.
Qed.

(** X17.  When the preparation completes, the file setup.cfg of the target
    is the template of the config type as last read, formatted with
    universal_wheel 1 or 0 as the metadata handed over hold
    support_legacy_python True or False, and nothing else: lines 195-202
    replace the copy with the provenance lines that lines 167-168 made. *)
Theorem setup_cfg_written env args w meta_cfg add rm :
  let run := exec env (prepare str_format percent_format here args) w in
  run.1 = inr (meta_cfg, add, rm) →
  ∃ template legacy data before after,
    ConfigParser.lookup "support_legacy_python" (meta_items meta_cfg)
      = Some (PyStr.str_bool legacy) ∧
    percent_format template
      [("universal_wheel", PInt (if legacy then 1 else 0))] = inr data ∧
    new_events w run.2 =
      before ++
      [mkEvent (w_cwd w)
         (AReadText (here // config_type_str (Args.type args) // "setup.cfg"))
         (inr (VStr template));
       mkEvent (w_cwd w) (AOpenWrite (Args.path args // "setup.cfg"))
         (inr VUnit);
       mkEvent (w_cwd w) (AWrite (Args.path args // "setup.cfg") data)
         (inr VUnit)] ++ after ∧
    w_fs run.2 !! resolve (w_cwd w) (Args.path args // "setup.cfg")
      = Some (File data).
Proof.
  intros run Hrun. subst run.
  apply prepare_exec in Hrun
    as (cfg0 & wp & lg & w4 & w5 & w6 & before & _ & Hlg & Hcwd4 & Hlog4
        & E5 & E6 & E7).
  apply write_setup_cfg_exec in E5
    as (template & data & Hformat & Hfs5 & Hcwd5 & Hlog5).
  rewrite Hcwd4 in Hfs5, Hlog5.
  destruct (exec_unaffecting env _ _ _
              (write_tox_ini_unaffecting (w_cwd w) (Args.path args) "setup.cfg"
                 (config_type_str (Args.type args)) cfg0 wp
                 (get_tox_ini_versions (get_supported_versions args))
                 ltac:(done)) w5 ltac:(congruence)) as [Hfs6 Hcwd6].
  rewrite E6 in Hfs6, Hcwd6. cbn [snd] in Hfs6, Hcwd6.
  apply write_tox_ini_exec in E6
    as (template6 & fail_under & data6 & Hdefault & _ & _ & _ & Hlog6).
  destruct (exec_unaffecting env _ _ _
              (write_tests_yml_unaffecting (w_cwd w) (Args.path args)
                 "setup.cfg" wp
                 (get_test_matrix_versions (get_supported_versions args))
                 ltac:(done)) w6 ltac:(congruence)) as [Hfs7 _].
  rewrite E7 in Hfs7. cbn [snd] in Hfs7.
  apply exec_log_app in E7 as [evs7 Hlog7].
  match type of Hlog6 with _ = _ ++ ?evs6 =>
    exists template, lg, data, before, (evs6 ++ evs7) end.
  split.
  { by rewrite (lookup_meta_items_setdefault "support_legacy_python"
                  "fail-under" _ _ _ _ ltac:(done) Hdefault). }
  split; [done|]. split.
  { apply new_events_log. rewrite Hlog7, Hlog6, Hlog5, Hlog4.
    by rewrite <- !app_assoc. }
  by rewrite Hfs7, Hfs6.
Qed.

(** X21.  When the preparation completes, the file tox.ini of the target is
    the template tox.ini.in of the config type, formatted with the
    threshold that the metadata handed over give for fail-under, the
    environments of the supported versions and, when the metadata hold
    with-pypy True, those of PyPy. *)
Theorem tox_ini_written env args w meta_cfg add rm :
  let run := exec env (prepare str_format percent_format here args) w in
  run.1 = inr (meta_cfg, add, rm) →
  ∃ template with_pypy fail_under data before after,
    ConfigParser.lookup "with-pypy" (meta_items meta_cfg)
      = Some (PyStr.str_bool with_pypy) ∧
    ConfigParser.get "meta" "fail-under" meta_cfg = inr fail_under ∧
    percent_format template
      [("coverage_report_options", PStr ("--fail-under=" +:+ fail_under));
       ("python_environs",
        PStr (get_tox_ini_versions (get_supported_versions args)));
       ("additional_environs", PStr (if with_pypy then TOX_INI_PYPY else ""))]
      = inr data ∧
    new_events w run.2 =
      before ++
      [mkEvent (w_cwd w)
         (AReadText (here // config_type_str (Args.type args) // "tox.ini.in"))
         (inr (VStr template));
       mkEvent (w_cwd w) (AOpenWrite (Args.path args // "tox.ini"))
         (inr VUnit);
       mkEvent (w_cwd w) (AWrite (Args.path args // "tox.ini") data)
         (inr VUnit)] ++ after ∧
    w_fs run.2 !! resolve (w_cwd w) (Args.path args // "tox.ini")
      = Some (File data).
Proof.
  intros run Hrun. subst run.
  apply prepare_exec in Hrun
    as (cfg0 & wp & lg & w4 & w5 & w6 & before & Hwp & _ & Hcwd4 & Hlog4
        & E5 & E6 & E7).
  apply write_setup_cfg_exec in E5
    as (template5 & data5 & _ & _ & Hcwd5 & Hlog5).
  apply write_tox_ini_exec in E6
    as (template & fail_under & data & Hdefault & Hformat & Hfs6 & Hcwd6
        & Hlog6).
  assert (w_cwd w5 = w_cwd w) as Hcwd by congruence.
  rewrite Hcwd in Hfs6, Hlog6.
  destruct (exec_unaffecting env _ _ _
              (write_tests_yml_unaffecting (w_cwd w) (Args.path args)
                 "tox.ini" wp
                 (get_test_matrix_versions (get_supported_versions args))
                 ltac:(done)) w6 ltac:(congruence)) as [Hfs7 _].
  rewrite E7 in Hfs7. cbn [snd] in Hfs7.
  apply exec_log_app in E7 as [evs7 Hlog7].
  match type of Hlog5 with _ = _ ++ ?evs5 =>
    exists template, wp, fail_under, data, (before ++ evs5), evs7 end.
  split.
  { by rewrite (lookup_meta_items_setdefault "with-pypy" "fail-under"
                  _ _ _ _ ltac:(done) Hdefault). }
  split; [by apply setdefault_get in Hdefault|]. split; [done|]. split.
  { apply new_events_log. rewrite Hlog7, Hlog6, Hlog5, Hlog4.
    by rewrite <- !app_assoc. }
  by rewrite Hfs7.
Qed.

(** X22.  When the preparation completes, the workflow tests.yml of the
    target is the template tests.yml.in, formatted with the rows of the
    supported versions and, when the metadata hold with-pypy True, those of
    PyPy. *)
Theorem tests_yml_written env args w meta_cfg add rm :
  let run := exec env (prepare str_format percent_format here args) w in
  run.1 = inr (meta_cfg, add, rm) →
  ∃ template with_pypy data before,
    ConfigParser.lookup "with-pypy" (meta_items meta_cfg)
      = Some (PyStr.str_bool with_pypy) ∧
    percent_format template
      [("version_config",
        PStr (get_test_matrix_versions (get_supported_versions args)));
       ("additional_config",
        PStr (if with_pypy then TESTS_MATRIX_PYPY else ""))] = inr data ∧
    new_events w run.2 =
      before ++
      [mkEvent (w_cwd w) (AReadText (here // "default" // "tests.yml.in"))
         (inr (VStr template));
       mkEvent (w_cwd w)
         (AOpenWrite (Args.path args // ".github" // "workflows" // "tests.yml"))
         (inr VUnit);
       mkEvent (w_cwd w)
         (AWrite (Args.path args // ".github" // "workflows" // "tests.yml")
            data) (inr VUnit)] ∧
    w_fs run.2 !! resolve (w_cwd w)
                    (Args.path args // ".github" // "workflows" // "tests.yml")
      = Some (File data).
Proof.
  intros run Hrun. subst run.
  apply prepare_exec in Hrun
    as (cfg0 & wp & lg & w4 & w5 & w6 & before & Hwp & _ & Hcwd4 & Hlog4
        & E5 & E6 & E7).
  apply write_setup_cfg_exec in E5
    as (template5 & data5 & _ & _ & Hcwd5 & Hlog5).
  apply write_tox_ini_exec in E6
    as (template6 & fail_under & data6 & Hdefault & _ & _ & Hcwd6 & Hlog6).
  apply write_tests_yml_exec in E7
    as (template & data & Hformat & Hfs7 & _ & Hlog7).
  assert (w_cwd w6 = w_cwd w) as Hcwd by congruence.
  rewrite Hcwd in Hfs7, Hlog7.
  match type of Hlog5 with _ = _ ++ ?evs5 =>
    match type of Hlog6 with _ = _ ++ ?evs6 =>
      exists template, wp, data, (before ++ evs5 ++ evs6) end end.
  split.
  { by rewrite (lookup_meta_items_setdefault "with-pypy" "fail-under"
                  _ _ _ _ ltac:(done) Hdefault). }
  split; [done|]. split; [|done].
  apply new_events_log. rewrite Hlog7, Hlog6, Hlog5, Hlog4.
  by rewrite <- !app_assoc.
Qed.

End written.

(** ** The metadata file *)

(** X23.  When the three calls of lines 246-251 succeed, the file .meta.cfg
    of the working directory holds the two provenance lines followed by the
    text of the metadata, and nothing of what it held before. *)
Theorem metadata_file_written env config_type meta_cfg w w' :
  exec env (write_meta_cfg config_type meta_cfg) w = (inr (), w') →
  w_fs w' =
    <[resolve (w_cwd w) (Path.rel ".meta.cfg") :=
        File (META_HINT config_type +:+ ConfigParser.write meta_cfg)]> (w_fs w)
  ∧ w_cwd w' = w_cwd w.
Proof.
  unfold write_meta_cfg.
  set (target := Path.rel ".meta.cfg").
  change ("# Generated from:" +:+ PyStr.nl +:+
          "# https://github.com/gocept/meta/tree/master/config/" +:+
          config_type +:+ PyStr.nl) with (META_HINT config_type).
  rewrite exec_bind, exec_perform.
  pose proof (step_OpenWrite env target w) as Hfs1.
  pose proof (step_cwd env (OpenWrite target) w eq_refl) as Hcwd1.
  destruct (step env (OpenWrite target) w) as [[e|[]] w1];
    cbn [fst snd] in *; [discriminate|].
  rewrite exec_bind, exec_perform.
  pose proof (step_Write env target (META_HINT config_type) w1) as Hfs2.
  pose proof (step_cwd env (Write target (META_HINT config_type)) w1 eq_refl)
    as Hcwd2.
  destruct (step env (Write target (META_HINT config_type)) w1)
    as [[e|[]] w2]; cbn [fst snd] in *; [discriminate|].
  rewrite exec_perform.
  pose proof (step_Write env target (ConfigParser.write meta_cfg) w2) as Hfs3.
  pose proof (step_cwd env (Write target (ConfigParser.write meta_cfg)) w2
                eq_refl) as Hcwd3.
  destruct (step env (Write target (ConfigParser.write meta_cfg)) w2)
    as [[e|[]] w3]; cbn [fst snd] in *; [discriminate|].
  intros [= <-]. split; [|congruence].
  destruct Hfs2 as (old2 & Hold2 & Hfs2).
  rewrite Hfs1, Hcwd1, lookup_insert_eq in Hold2. injection Hold2 as <-.
  destruct Hfs3 as (old3 & Hold3 & Hfs3).
  rewrite Hfs2, Hcwd2, Hcwd1, lookup_insert_eq in Hold3.
  injection Hold3 as <-.
  rewrite Hfs3, Hfs2, Hfs1, Hcwd2, Hcwd1, !insert_insert_eq. done.
Qed.

Lemma metadata_file_written_witness :
  w_fs (exec Scenario.env (write_meta_cfg "pure-python" Scenario.first)
          Scenario.world).2
    !! ["meta"; ".meta.cfg"] = Some (File Scenario.first_file).
Proof.
  destruct (metadata_file_written Scenario.env "pure-python" Scenario.first
              Scenario.world
              (exec Scenario.env (write_meta_cfg "pure-python" Scenario.first)
                 Scenario.world).2) as [Hfs _].
  - vm_compute. reflexivity.
  - rewrite Hfs. vm_compute. reflexivity.
Defined.

(** ** A run that stops at git log *)

Section abort.
Context (str_format : string → list (string * string) → result string).
Context (percent_format : string → list (string * pyval) → result string).
Context (here : Path.t).

(** X24.  The registry is written before anything is validated: when the
    target is a clone without metadata file, its name is no line of the
    registry, no call fails, git log returns a code other than 0 and the
    operator answers anything but y or Y, the run exits with that code, and
    git log has run on files in which the registry already holds the name;
    the run does not take the name out again. *)
Theorem registry_kept_on_abort env args w content returncode stdout fs answer :
  let registry :=
    resolve (w_cwd w)
      (here // config_type_str (Args.type args) // "packages.txt") in
  let registered :=
    <[registry := File (content +:+ Path.name (Args.path args) +:+ PyStr.nl)]>
      (w_fs w) in
  no_fault env w 10 →
  is_Some (w_fs w !! resolve (w_cwd w) (Args.path args // ".git")) →
  w_fs w !! registry = Some (File content) →
  Path.name (Args.path args) ∉ registry_lines content →
  registered !! resolve (w_cwd w) (Args.path args // ".meta.cfg") = None →
  env_subprocess env (length (w_log w) + 6) git_log_command (w_cwd w)
    registered = (returncode, stdout, fs) →
  returncode ≠ 0 →
  env_input env (length (w_log w) + 9) = answer →
  answer ≠ "y" → answer ≠ "Y" →
  let run := exec env (main str_format percent_format here args) w in
  run.1 = inl (SystemExit returncode) ∧ w_fs run.2 = fs ∧
  length (new_events w run.2) = 10%nat.
Proof.
  intros registry registered Hnf Hgit Hcontent Habsent Hmeta Hlog Hrc Hinput
    Hy HY run. subst run.
  assert (PyStr.lower answer ≠ "y") as Hlower.
  { destruct answer as [|c [|c' s]]; [done| |done].
    intros H. injection H as H.
    destruct c as [[] [] [] [] [] [] [] []]; vm_compute in H;
      first [discriminate H | done]. }
  assert (∀ i, (i < 10)%nat →
               env_fault env (length (w_log w) + i) = None) as Hok by done.
  assert (∃ evs,
            exec env (main str_format percent_format here args) w =
              (inl (SystemExit returncode),
               mkWorld (w_cwd w) fs (w_log w ++ evs)) ∧
            length evs = 10%nat) as (evs & -> & Hlen);
    [|by rewrite (new_events_log w _ evs)].
  unfold main, prepare.
  (* the clone *)
  rewrite !exec_bind, exec_perform,
    (step_no_fault env _ w (no_fault_now _ _ _ Hnf)).
  cbn [perform_op]. rewrite bool_decide_eq_true_2 by done.
  unfold register_package. rewrite !exec_bind. cbn [exec mret Prog_ret].
  (* the registry *)
  rewrite !exec_bind, exec_perform, step_no_fault; cbn [w_log w_cwd w_fs];
    [|rewrite length_app; apply (Hok 1%nat); lia].
  cbn [perform_op]. fold registry. rewrite Hcontent.
  unfold registry_lines in Habsent. rewrite decide_False by done.
  unfold print.
  rewrite !exec_bind, exec_perform, step_no_fault; cbn [w_log w_cwd w_fs];
    [|rewrite !length_app, <- !Nat.add_assoc; apply (Hok 2%nat); lia].
  cbn [perform_op].
  rewrite ?exec_bind, exec_perform, step_no_fault; cbn [w_log w_cwd w_fs];
    [|rewrite !length_app, <- !Nat.add_assoc; apply (Hok 3%nat); lia].
  cbn [perform_op]. fold registry. rewrite Hcontent.
  rewrite ?exec_bind, exec_perform, step_no_fault; cbn [w_log w_cwd w_fs];
    [|rewrite !length_app, <- !Nat.add_assoc; apply (Hok 4%nat); lia].
  cbn [perform_op]. fold registry. rewrite Hcontent. fold registered.
  (* the metadata *)
  unfold read_meta.
  rewrite !exec_bind, exec_perform, step_no_fault; cbn [w_log w_cwd w_fs];
    [|rewrite !length_app, <- !Nat.add_assoc; apply (Hok 5%nat); lia].
  cbn [perform_op]. rewrite Hmeta.
  rewrite bool_decide_eq_false_2 by (by intros [? ?]).
  repeat first [rewrite exec_bind | progress cbn [exec mret Prog_ret]].
  rewrite exec_lift.
  change (ConfigParser.getitem "meta"
            (ConfigParser.setitem_empty "meta" ConfigParser.new))
    with (inr (A := exn) "meta").
  cbv iota beta. rewrite ?exec_bind, exec_lift.
  rewrite (set_meta_ok "template" _
             (ConfigParser.setitem_empty "meta" ConfigParser.new) []
             eq_refl (config_type_str_plain _)).
  cbv iota beta.
  (* git log *)
  unfold call, print.
  rewrite !exec_bind, exec_perform, step_no_fault; cbn [w_log w_cwd w_fs];
    [|rewrite !length_app, <- !Nat.add_assoc; apply (Hok 6%nat); lia].
  cbn [perform_op].
  rewrite !length_app, <- !Nat.add_assoc. simpl length. simpl Nat.add.
  rewrite Hlog. cbn [fst snd]. rewrite decide_True by done.
  rewrite !exec_bind, exec_perform, step_no_fault; cbn [w_log w_cwd w_fs];
    [|rewrite !length_app, <- !Nat.add_assoc; apply (Hok 7%nat); lia].
  cbn [perform_op].
  rewrite ?exec_bind, exec_perform, step_no_fault; cbn [w_log w_cwd w_fs];
    [|rewrite !length_app, <- !Nat.add_assoc; apply (Hok 8%nat); lia].
  cbn [perform_op].
  rewrite ?exec_bind, exec_perform, step_no_fault; cbn [w_log w_cwd w_fs];
    [|rewrite !length_app, <- !Nat.add_assoc; apply (Hok 9%nat); lia].
  cbn [perform_op].
  rewrite !length_app, <- !Nat.add_assoc. simpl length. simpl Nat.add.
  rewrite Hinput, decide_True by done.
  cbn [exec]. eexists. split; [by rewrite <- !app_assoc|]. reflexivity.
Qed.

End abort.

(** ** The further properties on the scenario *)

Lemma scenario_no_fault w k : no_fault Scenario.env w k.
Proof. intros i _. reflexivity. Qed.

Lemma scenario_failing_no_fault w k : no_fault Scenario.failing w k.
Proof. intros i _. reflexivity. Qed.

(** git log succeeds: the child process is the only call. *)
Lemma call_returns_witness :
  new_events Scenario.world
    (exec Scenario.env (call git_log_command true) Scenario.world).2 =
    [mkEvent (w_cwd Scenario.world) (ASubprocessRun git_log_command true)
       (inr (VProc 0 "abc123"))].
Proof.
  destruct (call_returns Scenario.env git_log_command true Scenario.world
              (0, "abc123")) as [_ [[_ Hevs]|[Hne _]]].
  - vm_compute. reflexivity.
  - exact Hevs.
  - exfalso. apply Hne. reflexivity.
Defined.

(** The test runner fails with 2 and the operator answers n. *)
Lemma call_declined_exits_witness :
  (exec Scenario.failing (call (tox_command (Path.mk true ["meta"])) false)
     Scenario.world).1 = inl (SystemExit 2).
Proof.
  destruct (call_declined_exits Scenario.failing (tox_command (Path.mk true ["meta"]))
              false Scenario.world 2 "" Scenario.files "n") as [Hexit _].
  - apply scenario_failing_no_fault.
  - reflexivity.
  - discriminate.
  - reflexivity.
  - discriminate.
  - discriminate.
  - exact Hexit.
Defined.

(** A target path that is no clone. *)
Lemma not_a_clone_witness :
  (exec Scenario.env
     (main Scenario.str_format Scenario.percent_format Scenario.here
        (Args.mk (Path.mk true ["elsewhere"]) true false pure_python false
           (3, 6))) Scenario.world).1
  = inl (ValueError "The `path` has to point to a git clone of a repository").
Proof.
  destruct (not_a_clone Scenario.str_format Scenario.percent_format
              Scenario.here Scenario.env
              (Args.mk (Path.mk true ["elsewhere"]) true false pure_python
                 false (3, 6)) Scenario.world) as [Hout _].
  - reflexivity.
  - vm_compute. reflexivity.
  - exact Hout.
Defined.

(** The run of the scenario, with --no-push, does not push. *)
Lemma no_push_never_pushes_witness :
  Forall (λ ev, is_push (ev_action ev) = false)
    (new_events Scenario.world
       (exec Scenario.env
          (main Scenario.str_format Scenario.percent_format Scenario.here
             Scenario.args) Scenario.world).2).
Proof.
  exact (no_push_never_pushes Scenario.str_format Scenario.percent_format
           Scenario.here Scenario.env Scenario.args Scenario.world eq_refl).
Defined.

(** The run of the scenario completes. *)
Lemma completed_run_witness :
  ∃ meta_cfg add rm evsR bootstrap travis rc listing,
    new_events Scenario.world
      (exec Scenario.env
         (main Scenario.str_format Scenario.percent_format Scenario.here
            Scenario.args) Scenario.world).2 =
      new_events Scenario.world
        (exec Scenario.env
           (prepare Scenario.str_format Scenario.percent_format Scenario.here
              Scenario.args) Scenario.world).2 ++ evsR ∧
    mkEvent (resolve (w_cwd Scenario.world) (Args.path Scenario.args))
      (ASubprocessRun ["git"; "branch"; "--format"; "%(refname:short)"] true)
      (inr (VProc rc listing)) ∈ evsR ∧
    script_calls evsR =
      AGetCwd ::
      completed_calls Scenario.args
        (config_type_str (Args.type Scenario.args))
        ("config-with-" +:+ config_type_str (Args.type Scenario.args))
        (Path.mk true (w_cwd Scenario.world)) meta_cfg bootstrap travis add rm
        listing ++
      [AChDir (Path.mk true (w_cwd Scenario.world))].
Proof.
  pose proof (completed_run Scenario.str_format Scenario.percent_format
                Scenario.here Scenario.env Scenario.args Scenario.world) as H.
  cbv zeta in H.
  destruct H as (meta_cfg & add & rm & evsR & bootstrap & travis & rc
                 & listing & _ & Hevs & _ & _ & _ & Hlisting & Hcalls).
  { vm_compute. reflexivity. }
  exists meta_cfg, add, rm, evsR, bootstrap, travis, rc, listing.
  split; [exact Hevs|]. split; [exact Hlisting|exact Hcalls].
Defined.

(** A source that does not exist. *)
Lemma copy_source_missing_witness :
  (exec Scenario.env
     (copy_with_meta Scenario.str_format (Scenario.here // "coveragerc")
        (Path.mk true ["repo"; ".coveragerc"]) "pure-python" [])
     Scenario.world).1 = inl (OSError "FileNotFoundError").
Proof.
  destruct (copy_source_missing Scenario.str_format Scenario.env
              (Scenario.here // "coveragerc")
              (Path.mk true ["repo"; ".coveragerc"]) "pure-python" []
              Scenario.world) as [Hout _].
  - reflexivity.
  - vm_compute. reflexivity.
  - exact Hout.
Defined.

(** A template with a placeholder for which no value is given. *)
Lemma copy_format_fails_witness :
  (exec Scenario.env
     (copy_with_meta Scenario.str_format (Path.mk true ["coveragerc"])
        (Path.mk true [".coveragerc"]) "pure-python"
        [("package_name", "repo")])
     (mkWorld [] {[ ["coveragerc"] := File "source = {name}" ]} [])).1
  = inl (KeyError "name").
Proof.
  destruct (copy_format_fails Scenario.str_format Scenario.env
              (Path.mk true ["coveragerc"]) (Path.mk true [".coveragerc"])
              "pure-python" [("package_name", "repo")]
              (mkWorld [] {[ ["coveragerc"] := File "source = {name}" ]} [])
              "source = {name}" (KeyError "name")) as [Hout _].
  - apply scenario_no_fault.
  - vm_compute. reflexivity.
  - vm_compute. discriminate.
  - discriminate.
  - vm_compute. reflexivity.
  - exact Hout.
Defined.

(** The files the preparation of the scenario leaves. *)
Lemma setup_cfg_written_witness :
  ∃ template legacy data before after,
    ConfigParser.lookup "support_legacy_python" (meta_items Scenario.first)
      = Some (PyStr.str_bool legacy) ∧
    Scenario.percent_format template
      [("universal_wheel", PInt (if legacy then 1 else 0))] = inr data ∧
    new_events Scenario.world
      (exec Scenario.env
         (prepare Scenario.str_format Scenario.percent_format Scenario.here
            Scenario.args) Scenario.world).2 =
      before ++
      [mkEvent (w_cwd Scenario.world)
         (AReadText (Scenario.here
                     // config_type_str (Args.type Scenario.args)
                     // "setup.cfg"))
         (inr (VStr template));
       mkEvent (w_cwd Scenario.world)
         (AOpenWrite (Args.path Scenario.args // "setup.cfg")) (inr VUnit);
       mkEvent (w_cwd Scenario.world)
         (AWrite (Args.path Scenario.args // "setup.cfg") data) (inr VUnit)]
      ++ after ∧
    w_fs (exec Scenario.env
            (prepare Scenario.str_format Scenario.percent_format Scenario.here
               Scenario.args) Scenario.world).2
      !! resolve (w_cwd Scenario.world) (Args.path Scenario.args // "setup.cfg")
      = Some (File data).
Proof.
  apply (setup_cfg_written Scenario.str_format Scenario.percent_format
           Scenario.here Scenario.env Scenario.args Scenario.world
           Scenario.first false false).
  vm_compute. reflexivity.
Defined.

Lemma tox_ini_written_witness :
  ∃ data,
    w_fs (exec Scenario.env
            (prepare Scenario.str_format Scenario.percent_format Scenario.here
               Scenario.args) Scenario.world).2
      !! resolve (w_cwd Scenario.world) (Args.path Scenario.args // "tox.ini")
      = Some (File data).
Proof.
  destruct (tox_ini_written Scenario.str_format Scenario.percent_format
              Scenario.here Scenario.env Scenario.args Scenario.world
              Scenario.first false false)
    as (template & wp & fu & data & before & after & _ & _ & _ & _ & Hfs).
  - vm_compute. reflexivity.
  - exists data. exact Hfs.
Defined.

Lemma tests_yml_written_witness :
  ∃ data,
    w_fs (exec Scenario.env
            (prepare Scenario.str_format Scenario.percent_format Scenario.here
               Scenario.args) Scenario.world).2
      !! resolve (w_cwd Scenario.world)
           (Args.path Scenario.args // ".github" // "workflows" // "tests.yml")
      = Some (File data).
Proof.
  destruct (tests_yml_written Scenario.str_format Scenario.percent_format
              Scenario.here Scenario.env Scenario.args Scenario.world
              Scenario.first false false)
    as (template & wp & data & before & _ & _ & _ & Hfs).
  - vm_compute. reflexivity.
  - exists data. exact Hfs.
Defined.

(** A template type without registry. *)
Lemma registry_missing_witness :
  (exec Scenario.env
     (main Scenario.str_format Scenario.percent_format Scenario.here
        (Args.mk (Path.mk true ["repo"]) true false pytest false (3, 6)))
     Scenario.world).1 = inl (OSError "FileNotFoundError").
Proof.
  destruct (registry_missing Scenario.str_format Scenario.percent_format
              Scenario.here Scenario.env
              (Args.mk (Path.mk true ["repo"]) true false pytest false (3, 6))
              Scenario.world) as [Hout _].
  - apply scenario_no_fault.
  - vm_compute. eauto.
  - vm_compute. reflexivity.
  - exact Hout.
Defined.

(** A metadata file in which the parser finds no section. *)
Lemma metadata_without_section_witness :
  (exec Scenario.env (read_meta Scenario.args "pure-python")
     (mkWorld [] {[ ["repo"; ".meta.cfg"] := File "" ]} [])).1
  = inl (KeyError "meta").
Proof.
  destruct (metadata_without_section Scenario.env Scenario.args "pure-python"
              (mkWorld [] {[ ["repo"; ".meta.cfg"] := File "" ]} []) ""
              ConfigParser.new) as [Hout _].
  - apply scenario_no_fault.
  - vm_compute. reflexivity.
  - reflexivity.
  - reflexivity.
  - exact Hout.
Defined.

(** git log fails in the scenario and the operator answers n. *)
Lemma registry_kept_on_abort_witness :
  ∃ fs,
    w_fs (exec (mkEnv (λ _, None) (λ _ _ _ fs, (1, "", fs)) (λ _, "n")
                  (λ _, inr ConfigParser.new))
            (main Scenario.str_format Scenario.percent_format Scenario.here
               Scenario.args) Scenario.world).2 = fs ∧
    fs !! ["meta"; "config"; "pure-python"; "packages.txt"] =
      Some (File ("foo" +:+ PyStr.nl +:+ "bar" +:+ PyStr.nl +:+
                  "repo" +:+ PyStr.nl)).
Proof.
  destruct (registry_kept_on_abort Scenario.str_format Scenario.percent_format
              Scenario.here
              (mkEnv (λ _, None) (λ _ _ _ fs, (1, "", fs)) (λ _, "n")
                 (λ _, inr ConfigParser.new))
              Scenario.args Scenario.world
              ("foo" +:+ PyStr.nl +:+ "bar" +:+ PyStr.nl) 1 ""
              (<[["meta"; "config"; "pure-python"; "packages.txt"] :=
                   File (("foo" +:+ PyStr.nl +:+ "bar" +:+ PyStr.nl) +:+
                         "repo" +:+ PyStr.nl)]> Scenario.files) "n")
    as (_ & Hfs & _).
  - intros i _. reflexivity.
  - vm_compute. eauto.
  - vm_compute. reflexivity.
  - intros Hin. apply list_elem_of_In in Hin. vm_compute in Hin.
    intuition discriminate.
  - vm_compute. reflexivity.
  - reflexivity.
  - discriminate.
  - reflexivity.
  - discriminate.
  - discriminate.
  - eexists. split; [exact Hfs|]. vm_compute. reflexivity.
Defined.
